(** * markdown-flashcards: the markdown-embedded metadata store

    A shallow embedding of [internal/files.go] and of the date query, the
    category comparison, the number prompt, the markdown formatter and the
    line wrapper of [internal/utils.go], followed by the properties of the
    metadata codec, the load protocol, the card updater, the share exporter
    and [FindClosestDate], and by further properties of errors, panics, round
    trips, the interaction, [FormatMarkdown] and [WrapLines].

    Conventions of the embedding.
    - A Go string is the list of its characters ([rune], a code point as [N]);
      the files are UTF-8 text, and the library functions used by the program
      ([regexp], [strings], [bufio.ScanLines]) work character by character;
      where the program counts bytes ([len] in [WrapLines]) the length of a
      character in UTF-8 is written out.
    - The random identifier source is a tape of numbers, one number consumed
      per call of [gonanoid.MustGenerate].
    - The clock is an argument [now]; the file system is a finite map from
      absolute paths to contents; a [panic] is an outcome of its own. *)

From Stdlib Require Import NArith ZArith Lia ZifyBool Ascii String.
From stdpp Require Import gmap list.

Abbreviation rune := N (only parsing).
Abbreviation gostring := (list N) (only parsing).

(** Literals: [str "## "] is the Go string ["## "]. *)
Definition str (s : string) : gostring :=
  map N_of_ascii (list_ascii_of_string s).
Arguments str s%_string.

(* ================================================================== *)
(** * Package [strings] *)
(* ================================================================== *)

Module GoStrings.

Fixpoint HasPrefix (s prefix : gostring) : bool :=
  match prefix, s with
  | [], _ => true
  | p :: prefix', c :: s' => (c =? p)%N && HasPrefix s' prefix'
  | _ :: _, [] => false
  end.

Definition HasSuffix (s suffix : gostring) : bool :=
  HasPrefix (rev s) (rev suffix).

(** [strings.TrimSuffix]: [s] without the trailing [suffix], or [s]. *)
Definition TrimSuffix (s suffix : gostring) : gostring :=
  if HasSuffix s suffix then take (length s - length suffix) s else s.

Fixpoint trim_left (p : rune -> bool) (s : gostring) : gostring :=
  match s with
  | c :: s' => if p c then trim_left p s' else s
  | [] => []
  end.

Definition trim_right (p : rune -> bool) (s : gostring) : gostring :=
  rev (trim_left p (rev s)).

(** [unicode.IsSpace]. *)
Definition IsSpace (c : rune) : bool :=
  ((9 <=? c) && (c <=? 13) || (c =? 32) || (c =? 133) || (c =? 160)
   || (c =? 5760) || (8192 <=? c) && (c <=? 8202) || (c =? 8232)
   || (c =? 8233) || (c =? 8239) || (c =? 8287) || (c =? 12288))%N.

Definition TrimSpace (s : gostring) : gostring :=
  trim_right IsSpace (trim_left IsSpace s).

(** [strings.TrimRight(s, cutset)]. *)
Definition TrimRight (s cutset : gostring) : gostring :=
  trim_right (fun c => bool_decide (c ∈ cutset)) s.

Fixpoint Join (elems : list gostring) (sep : gostring) : gostring :=
  match elems with
  | [] => []
  | [e] => e
  | e :: rest => e ++ sep ++ Join rest sep
  end.

End GoStrings.

(* ================================================================== *)
(** * Package [regexp]: leftmost-first matching with submatches *)
(* ================================================================== *)

Module Regexp.

(** The fragment of the syntax the program's patterns are written in.
    Repetition [*] is only ever applied to a character class. *)
Inductive regex : Type :=
| Eps
| Lit (c : rune)
| Cls (p : rune -> bool)
| Cat (r1 r2 : regex)
| Alt (r1 r2 : regex)
| Opt (r : regex)
| Star (p : rune -> bool)
| Grp (n : nat) (r : regex).

(** [\d], [\s] (which is [[\t\n\f\r ]]) and [.] (anything but a newline). *)
Definition digit (c : rune) : bool := ((48 <=? c) && (c <=? 57))%N.
Definition space (c : rune) : bool :=
  ((c =? 9) || (c =? 10) || (c =? 12) || (c =? 13) || (c =? 32))%N.
Definition dot (c : rune) : bool := negb (c =? 10)%N.

Fixpoint lits (s : gostring) : regex :=
  match s with
  | [] => Eps
  | [c] => Lit c
  | c :: s' => Cat (Lit c) (lits s')
  end.

(** [r{n}] for [n >= 1]. *)
Fixpoint rep (n : nat) (r : regex) : regex :=
  match n with
  | 0 => Eps
  | 1 => r
  | S n' => Cat r (rep n' r)
  end.

Fixpoint NumSubexp (r : regex) : nat :=
  match r with
  | Eps | Lit _ | Cls _ | Star _ => 0
  | Cat r1 r2 | Alt r1 r2 => NumSubexp r1 `max` NumSubexp r2
  | Opt r => NumSubexp r
  | Grp n r => n `max` NumSubexp r
  end.

(** Greedy repetition of a class: the longest run is tried first, then
    shorter ones, down to none. *)
Fixpoint star {A : Type} (p : rune -> bool) (k : gostring -> option A)
    (t : gostring) : option A :=
  match t with
  | x :: t' =>
      if p x then
        match star p k t' with
        | Some a => Some a
        | None => k t
        end
      else k t
  | [] => k []
  end.

(** Backtracking execution in continuation-passing style: alternatives are
    tried in priority order (left branch first, greedy repetition and
    option first), and the first complete success is the result.  [caps]
    holds the text of each group, [""] while it has not taken part. *)
Fixpoint exec {A : Type} (r : regex) (s : gostring) (caps : list gostring)
    (k : gostring -> list gostring -> option A) {struct r} : option A :=
  match r with
  | Eps => k s caps
  | Lit c =>
      match s with
      | x :: s' => if (x =? c)%N then k s' caps else None
      | [] => None
      end
  | Cls p =>
      match s with
      | x :: s' => if p x then k s' caps else None
      | [] => None
      end
  | Cat r1 r2 => exec r1 s caps (fun s' caps' => exec r2 s' caps' k)
  | Alt r1 r2 =>
      match exec r1 s caps k with
      | Some a => Some a
      | None => exec r2 s caps k
      end
  | Opt r1 =>
      match exec r1 s caps k with
      | Some a => Some a
      | None => k s caps
      end
  | Star p => star p (fun t => k t caps) s
  | Grp n r1 =>
      exec r1 s caps
        (fun s' caps' => k s' (<[n := take (length s - length s') s]> caps'))
  end.

(** A match anchored at the start of [s]: the submatches (index 0 is the
    whole match) and the text after the match. *)
Definition match_here (r : regex) (s : gostring)
    : option (list gostring * gostring) :=
  exec r s (replicate (S (NumSubexp r)) [])
    (fun rest caps => Some (<[0 := take (length s - length rest) s]> caps, rest)).

(** The leftmost match: the text before it, its submatches, the text after. *)
Fixpoint find (r : regex) (s : gostring)
    : option (gostring * list gostring * gostring) :=
  match match_here r s with
  | Some (caps, rest) => Some ([], caps, rest)
  | None =>
      match s with
      | [] => None
      | c :: s' =>
          match find r s' with
          | Some (pre, caps, rest) => Some (c :: pre, caps, rest)
          | None => None
          end
      end
  end.

(** [FindStringSubmatch]: [nil] (here the empty list) when nothing matches. *)
Definition FindStringSubmatch (r : regex) (s : gostring) : list gostring :=
  match find r s with
  | Some (_, caps, _) => caps
  | None => []
  end.

(** [ReplaceAllString] for a replacement without [$]: successive leftmost
    matches, none overlapping the previous one, are replaced by [repl].
    [skip] counts the characters of the current match still to be passed.
    None of the program's patterns matches the empty string (each demands
    a literal [<!--]), so the library's rule for empty matches next to a
    previous match is never exercised. *)
Fixpoint replace_all (r : regex) (repl : gostring) (skip : nat) (s : gostring)
    : gostring :=
  match s with
  | [] => []
  | c :: s' =>
      match skip with
      | S n => replace_all r repl n s'
      | 0 =>
          match match_here r s with
          | Some (_, rest) =>
              match length s - length rest with
              | S n => repl ++ replace_all r repl n s'
              | 0 => repl ++ c :: replace_all r repl 0 s'
              end
          | None => c :: replace_all r repl 0 s'
          end
      end
  end.

Definition ReplaceAllString (r : regex) (src repl : gostring) : gostring :=
  replace_all r repl 0 src.

(** The declarative reading of a pattern: [matches r w c c'] says that [r]
    matches exactly the word [w] and takes the submatches from [c] to [c'].
    It knows nothing of priorities. *)
Fixpoint matches (r : regex) (w : gostring) (c c' : list gostring) : Prop :=
  match r with
  | Eps => w = [] /\ c' = c
  | Lit x => w = [x] /\ c' = c
  | Cls p => exists x, w = [x] /\ p x = true /\ c' = c
  | Cat r1 r2 =>
      exists w1 w2 c1, w = w1 ++ w2 /\ matches r1 w1 c c1 /\ matches r2 w2 c1 c'
  | Alt r1 r2 => matches r1 w c c' \/ matches r2 w c c'
  | Opt r1 => matches r1 w c c' \/ (w = [] /\ c' = c)
  | Star p => forallb p w = true /\ c' = c
  | Grp n r1 => exists c1, matches r1 w c c1 /\ c' = <[n := w]> c1
  end.

End Regexp.

(* ================================================================== *)
(** * Package [bufio]: the line scanner *)
(* ================================================================== *)

Module Bufio.

Definition LF : rune := 10%N.
Definition CR : rune := 13%N.

(** [dropCR] of the library: one trailing carriage return is removed. *)
Definition dropCR (data : gostring) : gostring :=
  match rev data with
  | c :: r => if (c =? CR)%N then rev r else data
  | [] => data
  end.

(** The raw lines: [cur] is the line being read.  A final line without a
    newline is a line; nothing after the last newline is not. *)
Fixpoint split_lines (cur s : gostring) : list gostring :=
  match s with
  | [] => match cur with [] => [] | _ => [cur] end
  | c :: s' =>
      if (c =? LF)%N then cur :: split_lines [] s'
      else split_lines (cur ++ [c]) s'
  end.

(** The successive results of [scanner.Text()] over a whole file with the
    default split function [ScanLines].  Lines are taken to be shorter than
    the scanner's token limit. *)
Definition ScanLines (content : gostring) : list gostring :=
  map dropCR (split_lines [] content).

End Bufio.

(* ================================================================== *)
(** * Package [time], as far as the program uses it *)
(* ================================================================== *)

Module GoTime.

(** An instant, by its civil reading in UTC.  Instants the program handles
    are normalised (a real month, a real day, [0 <= nsec < 24h]), and on
    those the lexicographic order is the order of time. *)
Record Time : Type := mkTime {
  year : Z;
  month : Z;
  day : Z;
  nsec : Z   (* nanoseconds since midnight *)
}.

(** [time.Time{}]: January 1, year 1, 00:00:00 UTC. *)
Definition zero : Time := mkTime 1 1 1 0.

Definition Equal (t u : Time) : bool :=
  ((year t =? year u) && (month t =? month u) && (day t =? day u)
   && (nsec t =? nsec u))%Z.

Definition Before (t u : Time) : bool :=
  ((year t <? year u)
   || (year t =? year u) &&
      ((month t <? month u)
       || (month t =? month u) &&
          ((day t <? day u) || (day t =? day u) && (nsec t <? nsec u))))%Z.

Definition IsZero (t : Time) : bool := Equal t zero.

(** [time.Date(y, m, d, 0, 0, 0, 0, time.UTC)] for a date read off the
    clock (no normalisation needed). *)
Definition Date (y m d : Z) : Time := mkTime y m d 0.

Definition isLeap (y : Z) : bool :=
  ((y mod 4 =? 0) && (negb (y mod 100 =? 0) || (y mod 400 =? 0)))%Z.

Definition daysIn (m y : Z) : Z :=
  (if m =? 2 then (if isLeap y then 29 else 28)
   else if (m =? 4) || (m =? 6) || (m =? 9) || (m =? 11) then 30
   else 31)%Z.

Definition digit_val (c : rune) : Z := Z.of_N c - 48.

(** Decimal value of a string of digits. *)
Definition atoi_digits (s : gostring) : Z :=
  fold_left (fun acc c => 10 * acc + digit_val c)%Z s 0%Z.

(** [time.Parse("2006-01-02", value)]: four digits, a dash, two digits, a
    dash, two digits and nothing else; the month must be 1..12 and the day
    must exist in that month.  [None] is the parse error. *)
Definition Parse (value : gostring) : option Time :=
  match value with
  | [y1; y2; y3; y4; h1; m1; m2; h2; d1; d2] =>
      if forallb Regexp.digit [y1; y2; y3; y4; m1; m2; d1; d2]
         && (h1 =? 45)%N && (h2 =? 45)%N
      then
        let y := atoi_digits [y1; y2; y3; y4] in
        let m := atoi_digits [m1; m2] in
        let d := atoi_digits [d1; d2] in
        if ((1 <=? m) && (m <=? 12) && (1 <=? d) && (d <=? daysIn m y))%Z
        then Some (Date y m d)
        else None
      else None
  | _ => None
  end.

(** Decimal digits of a natural number, most significant first. *)
Fixpoint digits_fuel (fuel : nat) (n : N) (acc : gostring) : gostring :=
  match fuel with
  | 0 => acc
  | S fuel' =>
      let acc' := (48 + n mod 10)%N :: acc in
      if (n <? 10)%N then acc' else digits_fuel fuel' (n / 10)%N acc'
  end.

Definition digits (n : N) : gostring :=
  digits_fuel (S (N.to_nat (N.log2 n))) n [].

(** [appendInt] of the library: sign, then zero padding to [width]. *)
Definition appendInt (x : Z) (width : nat) : gostring :=
  let ds := digits (Z.abs_N x) in
  (if (x <? 0)%Z then [45%N] else [])
    ++ replicate (width - length ds) 48%N ++ ds.

(** [t.Format("2006-01-02")]. *)
Definition Format (t : Time) : gostring :=
  appendInt (year t) 4 ++ [45%N] ++ appendInt (month t) 2 ++ [45%N]
    ++ appendInt (day t) 2.

End GoTime.

(* ================================================================== *)
(** * Packages [go-nanoid], [strconv] and [fmt] *)
(* ================================================================== *)

Module Nanoid.

Definition alphabet : gostring :=
  Eval cbv in str "0123456789ABCDEFGHIJKLMNOPQRSTUVWXYZabcdefghijklmnopqrstuvwxyz".

Definition symbol (i : N) : rune := nth (N.to_nat (i mod 62)%N) alphabet 48%N.

(** [gonanoid.MustGenerate(alphabet, 4)] on the random draw [r], read as
    four base-62 digits. *)
Definition MustGenerate (r : N) : gostring :=
  [symbol (r / 238328); symbol (r / 3844); symbol (r / 62); symbol r]%N.

End Nanoid.

Module Strconv.

(** [strconv.Atoi]: an optional sign and at least one digit; [None] is the
    syntax error.  (Range errors need more digits than a box field has.) *)
Definition Atoi (s : gostring) : option Z :=
  let unsigned (t : gostring) :=
    match t with
    | [] => None
    | _ => if forallb Regexp.digit t then Some (GoTime.atoi_digits t) else None
    end in
  match s with
  | 43%N :: t => unsigned t
  | 45%N :: t => Z.opp <$> unsigned t
  | _ => unsigned s
  end.

(** [%t] and [%d] of [fmt.Sprintf]. *)
Definition FormatBool (b : bool) : gostring :=
  if b then str "true" else str "false".

Definition FormatUint (n : Z) : gostring := GoTime.digits (Z.to_N n).

End Strconv.

(* ================================================================== *)
(** * The program: [internal/files.go] and [FindClosestDate] *)
(* ================================================================== *)

Module Flashcards.
Import Regexp.

Record Card : Type := mkCard {
  Id : gostring;
  Category : gostring;
  Front : gostring;
  Back : gostring;
  Box : Z;            (* [uint] *)
  Due : GoTime.Time;
  Enabled : bool
}.

(** [Card{}]. *)
Definition emptyCard : Card := mkCard [] [] [] [] 0 GoTime.zero false.

Record File : Type := mkFile {
  Path : gostring;
  BoxIntervals : list Z;
  Cards : list Card
}.

Record Session : Type := mkSession {
  SFile : File;
  SCategory : gostring
}.

(** The values made with [errors.New]:
    ["no file specified"], ["file not found"],
    ["no flashcards found in file"], ["category not found"],
    ["found due date in the past"]. *)
Inductive error : Type :=
| NoFileSpecified
| FileNotFound
| NoCardsFound
| CategoryNotFound
| OverdueFound.

(** How a call ends: it returns, it panics ([check] on an error), or, in
    the model only, the random tape runs out while identifiers are still
    being drawn. *)
Inductive outcome (A : Type) : Type :=
| Returned (a : A)
| Panicked
| Starved.
Arguments Returned {A} a.
Arguments Panicked {A}.
Arguments Starved {A}.

Definition cat (rs : list regex) : regex := foldr Cat Eps rs.

(** [\d{4}-\d{2}-\d{2}] *)
Definition date_re : regex :=
  cat [rep 4 (Cls digit); Lit 45; rep 2 (Cls digit); Lit 45; rep 2 (Cls digit)].

Definition true_or_false : regex := Alt (lits (str "true")) (lits (str "false")).

(** [<!--\s*(.{4});(\d);(\d{4}-\d{2}-\d{2})(?:;(true|false))?\s*-->] *)
Definition metadata_re : regex :=
  cat [lits (str "<!--"); Star space; Grp 1 (rep 4 (Cls dot)); Lit 59;
       Grp 2 (Cls digit); Lit 59; Grp 3 date_re;
       Opt (Cat (Lit 59) (Grp 4 true_or_false)); Star space;
       lits (str "-->")].

(** [\s*<!--.*-->] *)
Definition comment_re : regex :=
  cat [Star space; lits (str "<!--"); Star dot; lits (str "-->")].

(** The pattern of [extractQuestion]: [##], [\s+], a group holding [.*],
    then [<!--]. *)
Definition question_re : regex :=
  cat [lits (str "##"); Cls space; Star space; Grp 1 (Star dot);
       lits (str "<!--")].

(** Characters with a meaning in a pattern or in a replacement template. *)
Definition is_meta (c : rune) : bool :=
  bool_decide (c ∈ str "\.+*?()|[]{}^$").

(** [<!--\s*%s;\d;\d{4}-\d{2}-\d{2}(?:;(true|false))?\s*-->] with an
    identifier that stands for itself spliced in. *)
Definition update_pattern (id : gostring) : regex :=
  cat [lits (str "<!--"); Star space; lits id; Lit 59; Cls digit;
       Lit 59; date_re; Opt (Cat (Lit 59) (Grp 1 true_or_false));
       Star space; lits (str "-->")].

(** [regexp.MustCompile] of that pattern text.  An identifier without
    operator characters (any identifier of the allocator) stands for itself;
    others would be read as pattern syntax and are outside the model
    ([None]). *)
Definition update_re (id : gostring) : option regex :=
  if forallb (fun c => negb (is_meta c)) id then Some (update_pattern id) else None.

Definition getMetadata (line : gostring)
    : gostring * gostring * gostring * bool :=
  let matches := FindStringSubmatch metadata_re line in
  if (4 <=? length matches) then
    let id := nth 1 matches [] in
    let box := nth 2 matches [] in
    let due := nth 3 matches [] in
    let enabled :=
      if (5 <=? length matches) && negb (bool_decide (nth 4 matches [] = []))
      then bool_decide (nth 4 matches [] = str "true")
      else true in
    (id, box, due, enabled)
  else ([], [], [], true).

(** The block [<!--id;box;due;enabled-->] of [fmt.Sprintf]. *)
Definition block4 (id box due : gostring) (enabled : bool) : gostring :=
  str "<!--" ++ id ++ [59%N] ++ box ++ [59%N] ++ due ++ [59%N]
    ++ Strconv.FormatBool enabled ++ str "-->".

Section Environment.
(** [now] is [time.Now()], read in the local zone. *)
Variable now : GoTime.Time.

(** [r] is the random draw behind [gonanoid.MustGenerate]. *)
Definition initializeMetadata (r : N) (line : gostring)
    : gostring * gostring * gostring * gostring * bool :=
  let id := Nanoid.MustGenerate r in
  let box := str "0" in
  let due := GoTime.Format now in
  let enabled := true in
  let updatedLine := ReplaceAllString comment_re line [] in
  let updatedLine := updatedLine ++ str " " ++ block4 id box due enabled in
  (updatedLine, id, box, due, enabled).

(** The replacement text holds an allocator identifier, a digit, a date
    and [true] or [false]: no [$], so it is inserted as it is. *)
Definition generateNewId (r : N) (line : gostring) : gostring * gostring :=
  let matches := FindStringSubmatch metadata_re line in
  let id := Nanoid.MustGenerate r in
  if (4 <=? length matches) then
    let updated :=
      str "<!--" ++ id ++ [59%N] ++ nth 2 matches [] ++ [59%N] ++ nth 3 matches [] in
    let updated :=
      if (5 <=? length matches) && negb (bool_decide (nth 4 matches [] = []))
      then updated ++ [59%N] ++ nth 4 matches []
      else updated in
    let updated := updated ++ str "-->" in
    (ReplaceAllString metadata_re line updated, id)
  else
    let due :=
      GoTime.Format
        (GoTime.Date (GoTime.year now) (GoTime.month now) (GoTime.day now)) in
    (GoStrings.TrimRight line (str " ") ++ str " "
       ++ (str "<!--" ++ id ++ str ";0;" ++ due ++ str ";true-->"), id).
End Environment.

Definition extractQuestion (line : gostring) : gostring :=
  let matches := FindStringSubmatch question_re line in
  if bool_decide (length matches = 2) then GoStrings.TrimSpace (nth 1 matches [])
  else [].

(** [uint(boxUint)] on a 64-bit platform. *)
Definition uint_of_int (n : Z) : Z := (n mod 2 ^ 64)%Z.

(** [None] is the panic of [check(err)]. *)
Definition getCardFromLine (line category : gostring) : option Card :=
  let '(id, box, due, enabled) := getMetadata line in
  boxUint ← Strconv.Atoi box;
  dueTime ← GoTime.Parse due;
  Some {| Id := id; Category := category; Front := extractQuestion line;
          Back := []; Box := uint_of_int boxUint; Due := dueTime;
          Enabled := enabled |}.

Definition is_card_header (line : gostring) : bool :=
  GoStrings.HasPrefix line (str "## ") || GoStrings.HasPrefix line (str "### ")
  || GoStrings.HasPrefix line (str "#### ").

(** [ids[id]] on a [map[string]bool]. *)
Definition seen (ids : gmap gostring bool) (id : gostring) : bool :=
  default false (ids !! id).

Section Load.
Variable now : GoTime.Time.

(** [for ids[id] { line, id = generateNewId(line) }]; [None] when the tape
    is used up before a free identifier is drawn. *)
Fixpoint fresh_id (tape : list N) (ids : gmap gostring bool)
    (line id : gostring) : option (gostring * gostring * list N) :=
  if seen ids id then
    match tape with
    | [] => None
    | r :: tape' =>
        let '(line', id') := generateNewId now r line in
        fresh_id tape' ids line' id'
    end
  else Some (line, id, tape).

(** The body of the first loop of [OpenFile] for one header line. *)
Definition normalize_header (tape : list N) (ids : gmap gostring bool)
    (line : gostring) : option (gostring * gostring * list N) :=
  let '(id, _, _, _) := getMetadata line in
  '(line1, id1, tape1) ←
    (if bool_decide (id = []) then
       match tape with
       | [] => None
       | r :: tape' =>
           let '(line', id', _, _, _) := initializeMetadata now r line in
           Some (line', id', tape')
       end
     else Some (line, id, tape));
  fresh_id tape1 ids line1 id1.

(** The first loop of [OpenFile]: the lines to write back. *)
Fixpoint normalize (tape : list N) (ids : gmap gostring bool)
    (lines : list gostring) : option (list gostring) :=
  match lines with
  | [] => Some []
  | line :: rest =>
      if is_card_header line then
        match normalize_header tape ids line with
        | None => None
        | Some (line', id, tape') =>
            match normalize tape' (<[id := true]> ids) rest with
            | Some out => Some (line' :: out)
            | None => None
            end
        end
      else
        match normalize tape ids rest with
        | Some out => Some (line :: out)
        | None => None
        end
  end.
End Load.

(** The second loop of [OpenFile]: the card under construction, the current
    category, [readBack], and the cards appended so far. *)
Record extractor : Type := mkExtractor {
  currentCard : Card;
  currentCategory : gostring;
  readBack : bool;
  collected : list Card
}.

Definition with_back (c : Card) (back : gostring) : Card :=
  {| Id := Id c; Category := Category c; Front := Front c; Back := back;
     Box := Box c; Due := Due c; Enabled := Enabled c |}.

Definition appendCard (st : extractor) : extractor :=
  {| currentCard := emptyCard;
     currentCategory := currentCategory st;
     readBack := readBack st;
     collected :=
       collected st
         ++ [with_back (currentCard st) (GoStrings.TrimSpace (Back (currentCard st)))] |}.

(** [currentCard.Front != "" && currentCard.Back != ""] *)
Definition pending (st : extractor) : bool :=
  negb (bool_decide (Front (currentCard st) = []))
  && negb (bool_decide (Back (currentCard st) = [])).

Definition flush_pending (st : extractor) : extractor :=
  if pending st then appendCard st else st.

(** One iteration of the [switch]; [None] is a panic in [getCardFromLine]. *)
Definition extract_line (st : extractor) (l : gostring) : option extractor :=
  if GoStrings.HasPrefix l (str "# ") then
    let st := flush_pending st in
    Some {| currentCard := currentCard st;
            currentCategory := GoStrings.TrimSpace (drop 2 l);
            readBack := false;
            collected := collected st |}
  else if is_card_header l then
    let st := flush_pending st in
    card ← getCardFromLine l (currentCategory st);
    Some {| currentCard := card;
            currentCategory := currentCategory st;
            readBack := true;
            collected := collected st |}
  else if readBack st then
    Some {| currentCard :=
              with_back (currentCard st) (Back (currentCard st) ++ l ++ [Bufio.LF]);
            currentCategory := currentCategory st;
            readBack := readBack st;
            collected := collected st |}
  else Some st.

Fixpoint extract_lines (st : extractor) (lines : list gostring) : option extractor :=
  match lines with
  | [] => Some st
  | l :: rest =>
      match extract_line st l with
      | Some st' => extract_lines st' rest
      | None => None
      end
  end.

Definition extract (lines : list gostring) : option (list Card) :=
  st ← extract_lines (mkExtractor emptyCard [] false []) lines;
  Some (collected (if readBack st then appendCard st else st)).

Section Operations.
(** [filepath.Abs], the global [boxIntervals], and the clock. *)
Variable Abs : gostring -> gostring.
Variable boxIntervals : list Z.
Variable now : GoTime.Time.

(** [(s *Session) OpenFile(path)]: the file system and, when the call
    returns, the session and the error ([None] for [nil]). *)
Definition OpenFile (tape : list N) (fs : gmap gostring gostring)
    (s : Session) (path : gostring)
    : gmap gostring gostring * outcome (Session * option error) :=
  if bool_decide (path = []) then (fs, Returned (s, Some NoFileSpecified))
  else
    let absPath := Abs path in
    let s := mkSession (mkFile absPath boxIntervals []) (SCategory s) in
    if bool_decide (absPath = []) then (fs, Returned (s, Some NoFileSpecified))
    else
      match fs !! absPath with
      | None => (fs, Returned (s, Some FileNotFound))
      | Some content =>
          match normalize now tape ∅ (Bufio.ScanLines content) with
          | None => (fs, Starved)
          | Some lines =>
              let fs' := <[absPath := GoStrings.Join lines [Bufio.LF]]> fs in
              match extract lines with
              | None => (fs', Panicked)
              | Some cards =>
                  let s := mkSession (mkFile absPath boxIntervals cards) (SCategory s) in
                  (fs', Returned (s, if bool_decide (length cards = 0)
                                     then Some NoCardsFound else None))
              end
          end
      end.

(** [(s *Session) updateCardInFile(c)]; the outer [None] is an identifier
    outside the model of [update_re]. *)
Definition updateCardInFile (fs : gmap gostring gostring) (s : Session)
    (c : Card) : option (outcome (gmap gostring gostring)) :=
  re ← update_re (Id c);
  Some
    match fs !! Path (SFile s) with
    | None => Panicked
    | Some md =>
        let md :=
          ReplaceAllString re md
            (block4 (Id c) (Strconv.FormatUint (Box c)) (GoTime.Format (Due c))
               (Enabled c)) in
        Returned (<[Path (SFile s) := md]> fs)
    end.

(** The loop of [CreateCopyToShare]: the text written to the copy. *)
Fixpoint share_lines (tape : list N) (lines : list gostring) : option gostring :=
  match lines with
  | [] => Some []
  | line :: rest =>
      if is_card_header line then
        match tape with
        | [] => None
        | r :: tape' =>
            let '(line', _, _, _, _) := initializeMetadata now r line in
            out ← share_lines tape' rest;
            Some (line' ++ [Bufio.LF] ++ out)
        end
      else
        out ← share_lines tape rest;
        Some (line ++ [Bufio.LF] ++ out)
  end.

Definition share_path (absPath : gostring) : gostring :=
  GoStrings.TrimSuffix absPath (str ".md") ++ str ".share.md".

Definition CreateCopyToShare (tape : list N) (fs : gmap gostring gostring)
    (path : gostring) : gmap gostring gostring * outcome (option error) :=
  if bool_decide (path = []) then (fs, Returned (Some NoFileSpecified))
  else
    let absPath := Abs path in
    match fs !! absPath with
    | None => (fs, Returned (Some FileNotFound))
    | Some content =>
        let newPath := share_path absPath in
        match share_lines tape (Bufio.ScanLines content) with
        | None => (<[newPath := []]> fs, Starved)
        | Some out => (<[newPath := out]> fs, Returned None)
        end
    end.

(** [FindClosestDate(cards)]. *)
Definition closest_step (today : GoTime.Time)
    (acc : option GoTime.Time) (c : Card) : option GoTime.Time :=
  closestDate ← acc;
  if GoTime.Before (Due c) today || GoTime.Equal (Due c) today then None
  else if GoTime.IsZero closestDate || GoTime.Before (Due c) closestDate
       then Some (Due c)
       else Some closestDate.

Definition FindClosestDate (cards : list Card) : GoTime.Time * option error :=
  let today := GoTime.Date (GoTime.year now) (GoTime.month now) (GoTime.day now) in
  match foldl (closest_step today) (Some GoTime.zero) cards with
  | None => (GoTime.zero, Some OverdueFound)
  | Some closestDate => (closestDate, None)
  end.
End Operations.

End Flashcards.

(* ================================================================== *)
(** * The program: choosing a category ([files.go], [utils.go]) *)
(* ================================================================== *)

Module Interaction.
Import Flashcards.

Section Categories.
(** [unicode.ToLower] beyond ASCII: the case table of the Unicode standard
    is a parameter of the embedding. *)
Variable unicode_lower : rune -> rune.

(** [unicode.ToLower]: on ASCII, [A]..[Z] are moved to [a]..[z]. *)
Definition to_lower (c : rune) : rune :=
  if (c <? 128)%N then (if (65 <=? c) && (c <=? 90) then c + 32 else c)%N
  else unicode_lower c.

(** [strings.ToLower], which maps [unicode.ToLower] over the string. *)
Definition ToLower (s : gostring) : gostring := map to_lower s.

(** [CompareCategory(category, input)]. *)
Definition CompareCategory (category input : gostring) : bool :=
  if bool_decide (input = []) then true
  else GoStrings.HasPrefix (ToLower category) (ToLower input).

(** The loop of [CheckCategory] over [s.File.Cards]. *)
Fixpoint check_cards (cards : list Card) (category : gostring) : option error :=
  match cards with
  | [] => Some CategoryNotFound
  | c :: rest =>
      if CompareCategory (Category c) category then None
      else check_cards rest category
  end.

(** [(s *Session) CheckCategory()]; [None] is [nil]. *)
Definition CheckCategory (s : Session) : option error :=
  check_cards (Cards (SFile s)) (SCategory s).
End Categories.

(** The terminal behind [os.Stdin].  Either [term.MakeRaw] succeeds and the
    program reads key by key: [reads] are the results of the successive
    one-byte reads, [None] for a read that fails or returns nothing.  Or it
    fails and the program reads lines of [input] with a scanner.  When the
    keys or the lines are used up, every further read fails or is empty. *)
Inductive terminal : Type :=
| Raw (reads : list (option N))
| Cooked (input : gostring).

(** Arithmetic of [int], 64 bits wide. *)
Definition int_wrap (n : Z) : Z := ((n + 2 ^ 63) mod 2 ^ 64 - 2 ^ 63)%Z.

Definition in_int (n : Z) : bool := ((- 2 ^ 63 <=? n) && (n <? 2 ^ 63))%Z.

(** [strconv.Atoi] with its range error. *)
Definition Atoi (s : gostring) : option Z :=
  n ← Strconv.Atoi s; if in_int n then Some n else None.

Definition prompt : gostring := str "Please enter a number: ".

(** The loop of the fallback of [ReadNumberInput], entered with [res]
    outside [i..j]: one line per iteration; [out] is the text printed so far.
    [None]: the call does not return, for at the end of the input
    [scanner.Text()] is [""] for ever, which is no number. *)
Fixpoint read_lines (i j : Z) (lines : list gostring) (out : gostring)
    : option (Z * gostring) :=
  match lines with
  | [] => None
  | l :: rest =>
      match Atoi l with
      | Some nr =>
          if (nr <? i)%Z || (j <? nr)%Z then read_lines i j rest (out ++ prompt)
          else Some (nr, out)
      | None => read_lines i j rest (out ++ prompt)
      end
  end.

(** The loop of [ReadNumberInput] in raw mode: one read per iteration. *)
Fixpoint read_keys (i j : Z) (reads : list (option N)) (out : gostring)
    : option (Z * gostring) :=
  match reads with
  | [] => None
  | ev :: rest =>
      let out := out ++ prompt in
      match ev with
      | None => read_keys i j rest out
      | Some b =>
          if (48 <=? b)%N && (b <=? 57)%N then
            let nr := (Z.of_N b - 48)%Z in
            let out := out ++ [b; 10%N] in
            if (i <=? nr)%Z && (nr <=? j)%Z then Some (nr, out)
            else read_keys i j rest out
          else read_keys i j rest out
      end
  end.

(** [ReadNumberInput(i, j)]: the number read and the text printed, or
    [None] when the call does not return. *)
Definition ReadNumberInput (t : terminal) (i j : Z) : option (Z * gostring) :=
  let res := int_wrap (i - 1) in
  if (res <? i)%Z || (j <? res)%Z then
    match t with
    | Raw reads => read_keys i j reads []
    | Cooked input => read_lines i j (Bufio.ScanLines input) []
    end
  else Some (res, []).

(** The first loop of [ChooseCategory]: the categories of the cards, each
    once, in the order of their first card. *)
Definition add_category (categories : list gostring) (c : Card) : list gostring :=
  if bool_decide (Category c ∈ categories) then categories
  else categories ++ [Category c].

Definition categories_of (cards : list Card) : list gostring :=
  foldl add_category [] cards.

(** [fmt.Printf("(%d) %s\n", i+1, c)] for each category. *)
Fixpoint menu (i : nat) (categories : list gostring) : gostring :=
  match categories with
  | [] => []
  | c :: rest =>
      str "(" ++ GoTime.digits (N.of_nat (S i)) ++ str ") " ++ c ++ [10%N]
        ++ menu (S i) rest
  end.

(** [(s *Session) ChooseCategory()]: [None] when the call does not return;
    otherwise the session and the text printed, or the panic of an index out
    of range. *)
Definition ChooseCategory (t : terminal) (s : Session)
    : option (outcome (Session * gostring)) :=
  let categories := categories_of (Cards (SFile s)) in
  let out :=
    str "Please select the category you want to study:" ++ [10%N]
      ++ menu 0 categories ++ str "Your choice: " in
  '(choice, out') ← ReadNumberInput t 1 (Z.of_nat (length categories));
  Some
    (if (0 <=? choice - 1)%Z then
       match categories !! Z.to_nat (choice - 1) with
       | Some c => Returned (mkSession (SFile s) c, out ++ out')
       | None => Panicked
       end
     else Panicked).

End Interaction.

(* ================================================================== *)
(** * The program: [FormatMarkdown] ([utils.go]) *)
(* ================================================================== *)

Module Markdown.
Import Regexp Flashcards.

(** Patterns with a lazy repetition of a class ([c*?]) beside the first
    fragment. *)
Inductive pattern : Type :=
| Plain (r : regex)
| Lazy (p : rune -> bool)
| Seq (r1 r2 : pattern)
| Group (n : nat) (r : pattern).

(** Lazy repetition: going on without a further character is tried first,
    then with one more, and so on. *)
Fixpoint lazy_star {A : Type} (p : rune -> bool) (k : gostring -> option A)
    (t : gostring) : option A :=
  match k t with
  | Some a => Some a
  | None =>
      match t with
      | x :: t' => if p x then lazy_star p k t' else None
      | [] => None
      end
  end.

Fixpoint pexec {A : Type} (r : pattern) (s : gostring) (caps : list gostring)
    (k : gostring -> list gostring -> option A) {struct r} : option A :=
  match r with
  | Plain r0 => exec r0 s caps k
  | Lazy p => lazy_star p (fun t => k t caps) s
  | Seq r1 r2 => pexec r1 s caps (fun s' caps' => pexec r2 s' caps' k)
  | Group n r1 =>
      pexec r1 s caps
        (fun s' caps' => k s' (<[n := take (length s - length s') s]> caps'))
  end.

Fixpoint PNumSubexp (r : pattern) : nat :=
  match r with
  | Plain r0 => Regexp.NumSubexp r0
  | Lazy _ => 0
  | Seq r1 r2 => PNumSubexp r1 `max` PNumSubexp r2
  | Group n r1 => n `max` PNumSubexp r1
  end.

Definition pmatch_here (r : pattern) (s : gostring)
    : option (list gostring * gostring) :=
  pexec r s (replicate (S (PNumSubexp r)) [])
    (fun rest caps => Some (<[0 := take (length s - length rest) s]> caps, rest)).

(** A replacement template: text and references [$n] to submatches. *)
Inductive piece : Type :=
| Text (s : gostring)
| Sub (n : nat).

(** [Regexp.Expand]. *)
Definition Expand (template : list piece) (caps : list gostring) : gostring :=
  concat (map (fun p => match p with Text s => s | Sub n => nth n caps [] end) template).

(** [ReplaceAllString] with a template; as in the first fragment, [skip]
    counts the characters of the current match still to be passed, and none
    of the patterns below matches the empty string. *)
Fixpoint preplace_all (r : pattern) (template : list piece) (skip : nat)
    (s : gostring) : gostring :=
  match s with
  | [] => []
  | c :: s' =>
      match skip with
      | S n => preplace_all r template n s'
      | 0 =>
          match pmatch_here r s with
          | Some (caps, rest) =>
              match length s - length rest with
              | S n => Expand template caps ++ preplace_all r template n s'
              | 0 => Expand template caps ++ c :: preplace_all r template 0 s'
              end
          | None => c :: preplace_all r template 0 s'
          end
      end
  end.

Definition ReplaceAllString (r : pattern) (src : gostring) (template : list piece)
    : gostring :=
  preplace_all r template 0 src.

(** [.] under the flag [s], and the two negated classes of the link
    pattern (a negated class takes newlines too). *)
Definition any (c : rune) : bool := true.
Definition not_rbracket (c : rune) : bool := negb (c =? 93)%N.
Definition not_rparen (c : rune) : bool := negb (c =? 41)%N.

(** The link pattern: an opening bracket, a group of one or more
    characters other than a closing bracket, a closing bracket, and the same
    between parentheses with a group of characters other than a closing
    parenthesis. *)
Definition linkRe : pattern :=
  Plain (cat [Lit 91; Grp 1 (Cat (Cls not_rbracket) (Star not_rbracket));
              lits (str "]("); Grp 2 (Cat (Cls not_rparen) (Star not_rparen));
              Lit 41]).

(** The four emphasis patterns have one shape: a delimiter, a group holding
    a lazy [.+?], the delimiter again. *)
Definition span_re (delimiter : gostring) : pattern :=
  Seq (Plain (lits delimiter))
    (Seq (Group 1 (Seq (Plain (Cls any)) (Lazy any))) (Plain (lits delimiter))).

Definition boldRe1 : pattern := span_re (str "**").
Definition boldRe2 : pattern := span_re (str "__").
Definition italicRe1 : pattern := span_re (str "*").
Definition italicRe2 : pattern := span_re (str "_").

(** The templates: the first group and the second in parentheses for a
    link; the first group between [ESC[1m] (or [ESC[3m]) and [ESC[0m]. *)
Definition link_template : list piece := [Sub 1; Text (str " ("); Sub 2; Text (str ")")].

Definition sgr (code : rune) : gostring := [27; 91; code; 109]%N.

Definition style_template (code : rune) : list piece :=
  [Text (sgr code); Sub 1; Text (sgr 48)].

(** [FormatMarkdown(s)]. *)
Definition FormatMarkdown (s : gostring) : gostring :=
  let s := ReplaceAllString linkRe s link_template in
  let s := ReplaceAllString boldRe1 s (style_template 49) in
  let s := ReplaceAllString boldRe2 s (style_template 49) in
  let s := ReplaceAllString italicRe1 s (style_template 51) in
  let s := ReplaceAllString italicRe2 s (style_template 51) in
  s.

End Markdown.

(* ================================================================== *)
(** * The program: [WrapLines] ([utils.go]) *)
(* ================================================================== *)

Module Wrap.
Import Regexp Flashcards.

(** [len(s)] of a string: the number of bytes of its UTF-8 encoding. *)
Definition rune_len (c : rune) : nat :=
  if (c <? 128)%N then 1
  else if (c <? 2048)%N then 2
  else if (c <? 65536)%N then 3
  else 4.

Definition len (s : gostring) : nat := foldr (fun c n => rune_len c + n) 0 s.

(** The line feed pattern: an optional carriage return and a newline. *)
Definition lineFeedRegex : regex := Cat (Opt (Lit 13)) (Lit 10).

(** The class of the indent pattern: [-], [+], [*], a digit, [.] or a
    blank of the pattern language. *)
Definition indent_char (c : rune) : bool :=
  ((c =? 45) || (c =? 43) || (c =? 42) || digit c || (c =? 46) || space c)%N.

(** The indent pattern, without its anchor: one or more characters of the
    class. *)
Definition indentRegex : regex := Cat (Cls indent_char) (Star indent_char).

(** [r{0,n}]: as the library compiles it, nested options. *)
Fixpoint at_most (n : nat) (r : regex) : regex :=
  match n with
  | 0 => Eps
  | S n' => Opt (Cat r (at_most n' r))
  end.

(** The line break pattern for a line length [n], without its anchor:
    [.{1,n}\s]. *)
Definition lineBreakRegex (n : nat) : regex :=
  Cat (Cat (Cls dot) (at_most (n - 1) (Cls dot))) (Cls space).

(** The leftmost match of [r] that starts at the beginning of a line, which
    is what the anchor [^] under the flag [m] asks for: the text before the
    match, the submatches, the text after.  [bol] tells whether [s] starts a
    line. *)
Fixpoint find_bol (r : regex) (bol : bool) (s : gostring)
    : option (gostring * list gostring * gostring) :=
  match (if bol then match_here r s else None) with
  | Some (caps, rest) => Some ([], caps, rest)
  | None =>
      match s with
      | [] => None
      | c :: s' =>
          match find_bol r (c =? 10)%N s' with
          | Some (pre, caps, rest) => Some (c :: pre, caps, rest)
          | None => None
          end
      end
  end.

(** [FindString] of an anchored pattern: the match, or [""]. *)
Definition FindString (r : regex) (s : gostring) : gostring :=
  match find_bol r true s with
  | Some (_, caps, _) => nth 0 caps []
  | None => []
  end.

(** [FindStringIndex] of an anchored pattern, as far as [WrapLines] uses
    it: the text up to the end of the match ([line[:idxs[1]]]) and the text
    after it. *)
Definition FindStringIndex (r : regex) (s : gostring) : option (gostring * gostring) :=
  match find_bol r true s with
  | Some (pre, caps, rest) => Some (pre ++ nth 0 caps [], rest)
  | None => None
  end.

(** [Split(s, -1)] for a pattern that matches no empty string: [cur] is the
    piece being read, [skip] counts the characters of the current match still
    to be passed. *)
Fixpoint split (r : regex) (skip : nat) (cur s : gostring) : list gostring :=
  match s with
  | [] => [cur]
  | c :: s' =>
      match skip with
      | S n => split r n cur s'
      | 0 =>
          match match_here r s with
          | Some (_, rest) =>
              match length s - length rest with
              | S n => cur :: split r n [] s'
              | 0 => split r 0 (cur ++ [c]) s'
              end
          | None => split r 0 (cur ++ [c]) s'
          end
      end
  end.

Definition Split (r : regex) (s : gostring) : list gostring := split r 0 [] s.

(** [fmt.Sprintf("%Ns", s)] for a width [N] up to a million: blanks on the
    left up to [N] characters. *)
Definition pad_left (width : nat) (s : gostring) : gostring :=
  replicate (width - length s) 32%N ++ s.

(** How a call of [WrapLines] ends: with a text; with a panic; not yet,
    when the inner loop has not ended after [fuel] iterations; or, in the
    model only, with a padding width over a million, where [fmt] behaves
    otherwise. *)
Inductive wrapped : Type :=
| Done (text : gostring)
| Panics
| Running
| Beyond.

(** The inner loop: [line] is wrapped and added to [result]. *)
Fixpoint wrap_line (fuel lineLength lineIndent : nat) (line result : gostring)
    : wrapped :=
  match fuel with
  | 0 => Running
  | S fuel' =>
      if len line =? 0 then Done result
      else if len line <=? lineLength then Done (result ++ line ++ [10%N])
      else
        let '(head, tail) :=
          match FindStringIndex (lineBreakRegex lineLength) line with
          | Some (head, tail) => (head, tail)
          | None => (line, [])
          end in
        let result := result ++ head ++ [10%N] in
        let remainder := GoStrings.TrimSpace tail in
        let remainderLen := length remainder in
        if (1000000 <? Z.of_nat (lineIndent + remainderLen))%Z then Beyond
        else
          wrap_line fuel' lineLength lineIndent
            (pad_left (lineIndent + remainderLen) remainder) result
  end.

(** The outer loop, over the lines of the text; each line has [fuel]
    iterations of the inner loop. *)
Fixpoint wrap_lines (fuel lineLength : nat) (lines : list gostring)
    (result : gostring) : wrapped :=
  match lines with
  | [] => Done result
  | line :: rest =>
      let result := if len line =? 0 then result ++ [10%N] else result in
      let linePrefix := FindString indentRegex line in
      let lineIndent := len linePrefix in
      match wrap_line fuel lineLength lineIndent line result with
      | Done result' => wrap_lines fuel lineLength rest result'
      | other => other
      end
  end.

(** [WrapLines(s, lineLength)].  [termWidth] is the width [term.GetSize]
    reports, [None] when it fails.  [regexp.MustCompile] panics on the line
    break pattern unless the line length is between 1 and 1000. *)
Definition WrapLines (termWidth : option Z) (fuel : nat) (s : gostring)
    (lineLength : Z) : wrapped :=
  match (if (lineLength =? 0)%Z
         then (fun width => width mod 2 ^ 64)%Z <$> termWidth
         else Some lineLength) with
  | None => Panics
  | Some n =>
      if ((1 <=? n) && (n <=? 1000))%Z
      then wrap_lines fuel (Z.to_nat n) (Split lineFeedRegex s) []
      else Panics
  end.

End Wrap.

(* ================================================================== *)
(** * Vocabulary of the statements *)
(* ================================================================== *)

Import Regexp Flashcards.

Definition runs (r : regex) (w : gostring) : Prop :=
  forall (A : Type) (s : gostring) (c : list gostring)
         (K : gostring -> list gostring -> option A),
    exec r (w ++ s) c K = K s c.

Definition is_alnum (c : rune) : bool :=
  ((48 <=? c) && (c <=? 57) || (65 <=? c) && (c <=? 90) || (97 <=? c) && (c <=? 122))%N.

Definition is_date (d : gostring) : bool :=
  match d with
  | [y1; y2; y3; y4; h1; m1; m2; h2; d1; d2] =>
      forallb digit [y1; y2; y3; y4; m1; m2; d1; d2] && (h1 =? 45)%N && (h2 =? 45)%N
  | _ => false
  end.

Definition flag_suffix (en : gostring) : gostring :=
  if bool_decide (en = []) then [] else 59%N :: en.

Definition comment_text (ws id box due en ws' : gostring) : gostring :=
  str "<!--" ++ ws ++ id ++ [59%N] ++ box ++ [59%N] ++ due ++ flag_suffix en ++ ws' ++ str "-->".

Definition metadata_word (w id box due en : gostring) : Prop :=
  exists ws ws',
    w = comment_text ws id box due en ws'
    /\ forallb space ws = true /\ forallb space ws' = true
    /\ length id = 4 /\ forallb dot id = true
    /\ (exists b, box = [b] /\ digit b = true)
    /\ is_date due = true
    /\ (en = [] \/ en = str "true" \/ en = str "false").

Definition canonical_caps (id box due en : gostring) (c : list gostring)
    : list gostring :=
  let c3 := <[3 := due]> (<[2 := box]> (<[1 := id]> c)) in
  if bool_decide (en = []) then c3 else <[4 := en]> c3.

(** The value of the optional fourth field. *)
Definition flag_value (en : gostring) : bool :=
  if bool_decide (en = []) then true else bool_decide (en = str "true").

(** [s] contains the text [pat]. *)
Definition contains (pat s : gostring) : Prop :=
  exists a c, s = a ++ pat ++ c.

(** [s] contains a [<!--] with a [-->] after it. *)
Definition has_comment (s : gostring) : Prop :=
  exists a b c, s = a ++ str "<!--" ++ b ++ str "-->" ++ c.

(** No newline: what every line of the scanner is. *)
Definition newline_free (s : gostring) : Prop := forallb dot s = true.

(** A clock reading the program can format as [YYYY-MM-DD]: a four-digit
    year and a real month and day. *)
Definition clock_ok (t : GoTime.Time) : bool :=
  ((0 <=? GoTime.year t) && (GoTime.year t <=? 9999)
   && (1 <=? GoTime.month t) && (GoTime.month t <=? 12)
   && (1 <=? GoTime.day t) && (GoTime.day t <=? 31))%Z.

Definition fixed_width (n : nat) (s : gostring) : bool :=
  (length s =? n) && forallb digit s.

(** The identifier [getMetadata] reads on a line ([""] when there is none). *)
Definition id_of (line : gostring) : gostring :=
  let '(id, _, _, _) := getMetadata line in id.

(** The identifiers of the card headers among [lines], in order. *)
Definition header_ids (lines : list gostring) : list gostring :=
  map id_of (filter (fun l => is_card_header l = true) lines).

(** The line carries a metadata block, and the leftmost one reads
    [id], [box], [due], [en]. *)
Definition carries (line id box due en : gostring) : Prop :=
  exists pre w post, find metadata_re line = Some (pre, [w; id; box; due; en], post).

(** What the first loop of [OpenFile] may do to a line [l], giving [l']: a
    card header comes out carrying metadata, with the fields it had if it had
    any; any other line is untouched. *)
Definition normalized (l l' : gostring) : Prop :=
  if is_card_header l then
    (exists box due en, carries l' (id_of l') box due en)
    /\ (forall id box due en, carries l id box due en ->
          carries l' (id_of l') box due en)
  else l' = l.

(** The card [c] was built from the header line [l]: it is what
    [getCardFromLine] returns on [l], with some text as its back. *)
Definition from_header (c : Card) (l : gostring) : Prop :=
  exists category c0 back,
    getCardFromLine l category = Some c0 /\ c = with_back c0 back.

Definition header_lines (lines : list gostring) : list gostring :=
  filter (fun l => is_card_header l = true) lines.

(** The invariant of the second loop of [OpenFile], [hl] being the card
    headers read so far: while a body is being read the card under
    construction comes from the last header and is not yet in the list;
    otherwise the card left in [currentCard] is one that will never be
    appended. *)
Definition extractor_inv (st : extractor) (hl : list gostring) : Prop :=
  if readBack st then
    exists hl0 l,
      hl = hl0 ++ [l] /\ from_header (currentCard st) l
      /\ exists hs, hs `sublist_of` hl0 /\ Forall2 from_header (collected st) hs
  else
    pending st = false
    /\ exists hs, hs `sublist_of` hl /\ Forall2 from_header (collected st) hs.

(** ** Sample inputs *)

Definition LFs : string := String (ascii_of_N 10) EmptyString.

(** A clock: 31 October 2026, 09:00. *)
Definition sample_now : GoTime.Time := GoTime.mkTime 2026 10 31 32400000000000.

Definition sample_path : gostring := str "/decks/go.md".

Definition empty_session : Session := mkSession (mkFile [] [] []) [].

(** A deck in which a header was duplicated by hand, metadata included. *)
Definition deck_dupl : gostring :=
  str ("# Go" ++ LFs ++
       "## What is a rune? <!--dupl;1;2030-01-01-->" ++ LFs ++
       "A code point." ++ LFs ++
       "## What is a slice? <!--dupl;1;2030-01-01-->" ++ LFs ++
       "A view of an array." ++ LFs).

Definition fs_dupl : gmap gostring gostring := {[ sample_path := deck_dupl ]}.

(** The session a call of [OpenFile] leaves, when it returns. *)
Definition session_after (r : gmap gostring gostring * outcome (Session * option error))
    : Session :=
  match r.2 with
  | Returned (s, _) => s
  | _ => empty_session
  end.

(** The three-field (legacy) block [<!--id;box;due-->]. *)
Definition block3 (id box due : gostring) : gostring :=
  str "<!--" ++ id ++ [59%N] ++ box ++ [59%N] ++ due ++ str "-->".

Definition legacy_line : gostring := str "## What is a rune? <!--abcd;2;2025-01-01-->".


(** The cards left by loading [deck_dupl] with the random draws 7, 8, 9. *)
Definition cards_dupl : list Card :=
  Cards (SFile (session_after
    (OpenFile id [] sample_now [7; 8; 9]%N fs_dupl empty_session sample_path))).

(** [today] of [FindClosestDate]: the date of the clock, at midnight. *)
Definition today_of (now : GoTime.Time) : GoTime.Time :=
  GoTime.Date (GoTime.year now) (GoTime.month now) (GoTime.day now).

(** [c] is due today or earlier. *)
Definition overdue (today : GoTime.Time) (c : Card) : bool :=
  GoTime.Before (Due c) today || GoTime.Equal (Due c) today.

Definition card_due (t : GoTime.Time) : Card := mkCard (str "abcd") [] (str "Q") (str "A") 0 t true.




(** The file system, then the outcome, of loading [deck_dupl]. *)
Definition loaded_dupl : gmap gostring gostring * outcome (Session * option error) :=
  OpenFile id [] sample_now [7; 8; 9]%N fs_dupl empty_session sample_path.



(** What [initializeMetadata] keeps of a line: all of it when it has no
    comment, and otherwise the line without the stretch that goes from the
    blanks before a [<!--] to the last [-->]. *)
Definition stripped (l kept : gostring) : Prop :=
  (~ has_comment l /\ kept = l)
  \/ exists pre ws b rest,
       l = pre ++ ws ++ str "<!--" ++ b ++ str "-->" ++ rest
       /\ kept = pre ++ rest
       /\ forallb space ws = true
       /\ ~ contains (str "-->") rest.

(** The line [l'] that the share copy has for the card header [l], [r]
    being the random draw: what is kept of [l], a blank, and a fresh block
    with box 0, due today, enabled. *)
Definition share_line (now : GoTime.Time) (r : N) (l l' : gostring) : Prop :=
  exists kept,
    stripped l kept /\ ~ has_comment kept
    /\ l' = kept ++ str " " ++ block4 (Nanoid.MustGenerate r) (str "0") (GoTime.Format now) true
    /\ getMetadata l' = (Nanoid.MustGenerate r, str "0", GoTime.Format now, true).

(** The text of the share copy: every line followed by a newline. *)
Definition write_lines (lines : list gostring) : gostring :=
  concat (map (fun l => l ++ [Bufio.LF]) lines).

(** A deck with progress on its card, and junk in a comment. *)
Definition deck_progress : gostring :=
  str ("# Go" ++ LFs ++
       "## What is a rune? <!--abcd;4;2020-01-01;false-->" ++ LFs ++
       "A code point." ++ LFs ++
       "### And a byte?   <!-- my note -->" ++ LFs ++
       "Eight bits." ++ LFs).



(** The canonical block [updateCardInFile] writes for a card. *)
Definition card_block (c : Card) : gostring :=
  block4 (Id c) (Strconv.FormatUint (Box c)) (GoTime.Format (Due c)) (Enabled c).

Definition sample_card : Card :=
  mkCard (str "dupl") (str "Go") (str "What is a rune?") (str "A code point.") 3
    (GoTime.Date 2026 11 7) true.




(** A clock reading that is a date of the calendar, with a four-digit
    year: what [time.Now()] returns. *)
Definition real_date (t : GoTime.Time) : bool :=
  ((0 <=? GoTime.year t) && (GoTime.year t <=? 9999)
   && (1 <=? GoTime.month t) && (GoTime.month t <=? 12)
   && (1 <=? GoTime.day t)
   && (GoTime.day t <=? GoTime.daysIn (GoTime.month t) (GoTime.year t)))%Z.

(** What the first loop of [OpenFile] makes of a line [l], in full: a line
    that is no card header is kept; a card header that carries metadata is
    still a card header and carries the same box, due date and flag; a card
    header without metadata comes out with a fresh block (box 0, due
    today, enabled). *)
Definition rewritten (now : GoTime.Time) (l l' : gostring) : Prop :=
  if is_card_header l then
    (forall id box due en, carries l id box due en ->
       is_card_header l' = true /\ carries l' (id_of l') box due en)
    /\ (find metadata_re l = None ->
        carries l' (id_of l') (str "0") (GoTime.Format now) (str "true"))
  else l' = l.



(** The file system after [deck_progress] has been copied for sharing. *)
Definition fs_shared : gmap gostring gostring :=
  (CreateCopyToShare id sample_now [7; 8; 9]%N {[ sample_path := deck_progress ]}
     sample_path).1.

(** The outcome of loading that copy, some days later. *)
Definition loaded_share : gmap gostring gostring * outcome (Session * option error) :=
  OpenFile id [] (GoTime.mkTime 2026 11 5 0) [] fs_shared empty_session
    (str "/decks/go.share.md").

(** ** The blocks of a deck *)

(** A line of a card's body: neither a category line nor a card header. *)
Definition plain (l : gostring) : bool :=
  negb (GoStrings.HasPrefix l (str "# ")) && negb (is_card_header l).

(** The category in force after [lines]: the trimmed text of the last
    category line, [""] when there is none. *)
Definition category_step (category l : gostring) : gostring :=
  if GoStrings.HasPrefix l (str "# ") then GoStrings.TrimSpace (drop 2 l) else category.

Definition category_of (lines : list gostring) : gostring :=
  foldl category_step [] lines.

(** The card of the block made of the header [h], found after the lines
    [pre], and of the body lines [body]. *)
Definition block_card (pre : list gostring) (h : gostring) (body : list gostring)
    (c : Card) : Prop :=
  is_card_header h = true
  /\ Forall (fun l => plain l = true) body
  /\ exists c0,
       getCardFromLine h (category_of pre) = Some c0
       /\ c = with_back c0 (GoStrings.TrimSpace (write_lines body)).

(** [c] is the card of a block of [lines] that the second loop of
    [OpenFile] keeps: the last block, or one with a front and a body that is
    followed by a header or category line. *)
Definition card_at (lines : list gostring) (c : Card) : Prop :=
  exists pre h body post,
    lines = pre ++ h :: body ++ post
    /\ block_card pre h body c
    /\ match post with
       | [] => True
       | l :: _ => plain l = false /\ Front c <> [] /\ body <> []
       end.



(** The invariant of the second loop of [OpenFile] that tells what the
    cards are, [done] being the lines read so far. *)
Definition blocks_inv (done : list gostring) (st : extractor) : Prop :=
  currentCategory st = category_of done
  /\ Forall (fun c => exists pre h body l post,
               done = pre ++ h :: body ++ l :: post /\ block_card pre h body c
               /\ plain l = false /\ Front c <> [] /\ body <> [])
       (collected st)
  /\ if readBack st then
       exists pre h body c0,
         done = pre ++ h :: body /\ is_card_header h = true
         /\ Forall (fun l => plain l = true) body
         /\ getCardFromLine h (category_of pre) = Some c0
         /\ currentCard st = with_back c0 (write_lines body)
     else pending st = false.

Import Interaction.

(** ** Vocabulary of [FormatMarkdown] *)

(** A pattern that begins with the character [c]. *)
Definition begins_with (r : Markdown.pattern) (c : rune) : Prop :=
  (forall x s, x <> c -> Markdown.pmatch_here r (x :: s) = None)
  /\ Markdown.pmatch_here r [] = None.

(** The characters that start markup: [[], [*] and [_]. *)
Definition is_markup (c : rune) : bool := ((c =? 91) || (c =? 42) || (c =? 95))%N.

(** A text without markup characters. *)
Definition unmarked (s : gostring) : Prop := forallb (fun c => negb (is_markup c)) s = true.

(** [x] in bold and in italics on the console. *)
Definition bold (x : gostring) : gostring := Markdown.sgr 49 ++ x ++ Markdown.sgr 48.
Definition italic (x : gostring) : gostring := Markdown.sgr 51 ++ x ++ Markdown.sgr 48.

(** ** A deck as the program leaves it *)

(** A line as the program writes it: no newline in it, no carriage return
    at its end; a card header is its hashes, a blank and a text without
    [<], followed by one block in canonical form (identifier of the allocator, a digit, a date,
    maybe a flag, no blanks); any other line is without [<]. *)
Definition tidy (l : gostring) : Prop :=
  newline_free l /\ last l <> Some Bufio.CR
  /\ if is_card_header l then
       exists hashes q id b due en,
         l = hashes ++ 32%N :: q ++ comment_text [] id [b] due en []
         /\ hashes ∈ [str "##"; str "###"; str "####"]
         /\ Forall (fun c => c <> 60%N) q
         /\ length id = 4 /\ forallb is_alnum id = true /\ digit b = true
         /\ is_date due = true /\ (en = [] \/ en = str "true" \/ en = str "false")
     else Forall (fun c => c <> 60%N) l.

(** The text of a line before its first [<]. *)
Fixpoint before_opener (l : gostring) : gostring :=
  match l with
  | [] => []
  | c :: l' => if (c =? 60)%N then [] else c :: before_opener l'
  end.

(** What [updateCardInFile] makes of a tidy line for the card [c]: the
    header that carries the identifier of [c] gets the block of [c]. *)
Definition update_line (c : Card) (l : gostring) : gostring :=
  if is_card_header l && bool_decide (id_of l = Id c)
  then before_opener l ++ card_block c
  else l.

(** The card [x] with the schedule of [c] if it is the card of that
    identifier: box, due day, enabled flag. *)
Definition reschedule (c x : Card) : Card :=
  if bool_decide (Id x = Id c) then
    {| Id := Id x; Category := Category x; Front := Front x; Back := Back x;
       Box := Box c; Due := today_of (Due c); Enabled := Enabled c |}
  else x.

(** The state of the second loop of [OpenFile] with every card
    rescheduled. *)
Definition reschedule_state (c : Card) (st : extractor) : extractor :=
  {| currentCard := reschedule c (currentCard st);
     currentCategory := currentCategory st;
     readBack := readBack st;
     collected := map (reschedule c) (collected st) |}.

(** A tidy deck with a card learnt on, and the card after a right answer. *)
Definition deck_tidy : list gostring :=
  [str "# Go";
   str "## What is a rune? <!--dupl;1;2030-01-01-->";
   str "A code point.";
   str "## What is a slice? <!--0007;1;2030-01-01;true-->";
   str "A view of an array."].

Definition fs_tidy : gmap gostring gostring :=
  {[ sample_path := GoStrings.Join deck_tidy [Bufio.LF] ]}.

Definition promoted_card : Card :=
  mkCard (str "0007") (str "Go") (str "What is a slice?") (str "A view of an array.") 2
    (GoTime.Date 2026 11 3) true.

Definition loaded_tidy : gmap gostring gostring * outcome (Session * option error) :=
  OpenFile id [] sample_now [] fs_tidy empty_session sample_path.

(* end of the vocabulary *)

(* ================================================================== *)
(** * Properties of the matching engine *)
(* ================================================================== *)

Section Engine.
Import Regexp.

Lemma take_app_rest (w t : gostring) :
  take (length (w ++ t) - length t) (w ++ t) = w.
Proof.
  rewrite length_app. replace (length w + length t - length t) with (length w) by lia.
  rewrite take_app_length. reflexivity.
Qed.

Lemma star_sound {A : Type} (p : rune -> bool) (k : gostring -> option A) :
  forall s a, star p k s = Some a ->
    exists w t, s = w ++ t /\ forallb p w = true /\ k t = Some a.
Proof.
  induction s as [|x s IH]; intros a H; simpl in H.
  - exists [], []. auto.
  - destruct (p x) eqn:Hp.
    + destruct (star p k s) as [b|] eqn:Hs.
      * inversion H; subst b. destruct (IH a eq_refl) as (w & t & -> & Hw & Hk).
        exists (x :: w), t. simpl. rewrite Hp, Hw. auto.
      * exists [], (x :: s). auto.
    + exists [], (x :: s). auto.
Qed.

Lemma star_complete {A : Type} (p : rune -> bool) (k : gostring -> option A) :
  forall w t, star p k (w ++ t) = None -> forallb p w = true -> k t = None.
Proof.
  induction w as [|x w IH]; intros t H Hw; simpl in *.
  - destruct t as [|y t]; simpl in H; [assumption|].
    destruct (p y); [|assumption].
    destruct (star p k t); [discriminate|assumption].
  - apply andb_true_iff in Hw as [Hx Hw]. rewrite Hx in H.
    destruct (star p k (w ++ t)) eqn:Hs; [discriminate|]. eauto.
Qed.

(** Whatever the engine returns comes from a word of the pattern. *)
Lemma exec_sound {A : Type} (r : regex) :
  forall s caps (k : gostring -> list gostring -> option A) a,
    exec r s caps k = Some a ->
    exists w t caps', s = w ++ t /\ matches r w caps caps' /\ k t caps' = Some a.
Proof.
  induction r as [|c|p|r1 IH1 r2 IH2|r1 IH1 r2 IH2|r1 IH1|p|n r1 IH1];
    intros s caps k a H; simpl in H.
  - exists [], s, caps. simpl. auto.
  - destruct s as [|x s]; [discriminate|].
    destruct (N.eqb_spec x c); [subst x|discriminate].
    exists [c], s, caps. simpl. auto.
  - destruct s as [|x s]; [discriminate|].
    destruct (p x) eqn:Hp; [|discriminate].
    exists [x], s, caps. simpl. eauto 10.
  - apply IH1 in H as (w1 & t1 & c1 & -> & M1 & H).
    apply IH2 in H as (w2 & t2 & c2 & -> & M2 & H).
    exists (w1 ++ w2), t2, c2. rewrite <- app_assoc. simpl. eauto 10.
  - destruct (exec r1 s caps k) as [b|] eqn:E1.
    + inversion H; subst b. apply IH1 in E1 as (w & t & c' & ? & ? & ?).
      exists w, t, c'. simpl. auto.
    + apply IH2 in H as (w & t & c' & ? & ? & ?). exists w, t, c'. simpl. auto.
  - destruct (exec r1 s caps k) as [b|] eqn:E1.
    + inversion H; subst b. apply IH1 in E1 as (w & t & c' & ? & ? & ?).
      exists w, t, c'. simpl. auto.
    + exists [], s, caps. simpl. auto.
  - apply star_sound in H as (w & t & -> & Hw & H). exists w, t, caps. simpl. auto.
  - apply IH1 in H as (w & t & c' & -> & M1 & H).
    rewrite take_app_rest in H. exists w, t, (<[n := w]> c'). simpl. eauto.
Qed.

(** When the engine fails, no word of the pattern leads to success. *)
Lemma exec_complete {A : Type} (r : regex) :
  forall s caps (k : gostring -> list gostring -> option A),
    exec r s caps k = None ->
    forall w t caps', s = w ++ t -> matches r w caps caps' -> k t caps' = None.
Proof.
  induction r as [|c|p|r1 IH1 r2 IH2|r1 IH1 r2 IH2|r1 IH1|p|n r1 IH1];
    intros s caps k H w t caps' Hs M; simpl in H, M.
  - destruct M as [-> ->]. simpl in Hs. subst. assumption.
  - destruct M as [-> ->]. subst s. simpl in H. rewrite N.eqb_refl in H. assumption.
  - destruct M as (x & -> & Hp & ->). subst s. simpl in H. rewrite Hp in H. assumption.
  - destruct M as (w1 & w2 & c1 & -> & M1 & M2). subst s.
    rewrite <- app_assoc in H.
    specialize (IH1 _ _ _ H w1 (w2 ++ t) c1 eq_refl M1). simpl in IH1.
    exact (IH2 _ _ _ IH1 w2 t caps' eq_refl M2).
  - destruct (exec r1 s caps k) eqn:E1; [discriminate|].
    destruct M as [M|M]; eauto.
  - destruct (exec r1 s caps k) eqn:E1; [discriminate|].
    destruct M as [M|[-> ->]]; [eauto|]. simpl in Hs. subst. assumption.
  - destruct M as [Hw ->]. subst s.
    exact (star_complete p (fun t => k t caps) w t H Hw).
  - destruct M as (c1 & M1 & ->). subst s.
    specialize (IH1 _ _ _ H w t c1 eq_refl M1). simpl in IH1.
    rewrite take_app_rest in IH1. assumption.
Qed.

Lemma match_here_sound (r : regex) (s : gostring) caps rest :
  match_here r s = Some (caps, rest) ->
  exists w c', s = w ++ rest /\ matches r w (replicate (S (NumSubexp r)) []) c'
               /\ caps = <[0 := w]> c'.
Proof.
  unfold match_here. intros H.
  apply exec_sound in H as (w & t & c' & -> & M & H).
  rewrite take_app_rest in H. inversion H; subst. eauto.
Qed.

Lemma match_here_complete (r : regex) (w t : gostring) c' :
  matches r w (replicate (S (NumSubexp r)) []) c' ->
  match_here r (w ++ t) <> None.
Proof.
  intros M H. unfold match_here in H.
  pose proof (exec_complete r _ _ _ H w t c' eq_refl M). discriminate.
Qed.

(** [find] returns the leftmost position at which the pattern matches. *)
Lemma find_Some (r : regex) :
  forall s pre caps rest,
    find r s = Some (pre, caps, rest) ->
    exists w, s = pre ++ w ++ rest
              /\ match_here r (w ++ rest) = Some (caps, rest)
              /\ forall i, i < length pre -> match_here r (drop i s) = None.
Proof.
  induction s as [|x s IH]; intros pre caps rest H; simpl in H.
  - destruct (match_here r []) as [[c t]|] eqn:E; [|discriminate].
    inversion H; subst. destruct (match_here_sound _ _ _ _ E) as (w & c' & Hs & _).
    exists w. simpl. split; [assumption|]. split; [rewrite <- Hs; assumption|].
    intros i Hi. simpl in Hi. lia.
  - destruct (match_here r (x :: s)) as [[c t]|] eqn:E.
    + inversion H; subst. destruct (match_here_sound _ _ _ _ E) as (w & c' & Hs & _).
      exists w. simpl. split; [assumption|]. split; [rewrite <- Hs; assumption|].
      intros i Hi. simpl in Hi. lia.
    + destruct (find r s) as [[[p c] t]|] eqn:F; [|discriminate].
      inversion H; subst. destruct (IH _ _ _ eq_refl) as (w & -> & Hm & Hpre).
      exists w. split; [reflexivity|]. split; [assumption|].
      intros [|i] Hi; simpl; [assumption|]. apply Hpre. simpl in Hi. lia.
Qed.

Lemma find_None (r : regex) :
  forall s, find r s = None -> forall i, match_here r (drop i s) = None.
Proof.
  induction s as [|x s IH]; intros H i; simpl in H.
  - destruct (match_here r []) as [[c t]|] eqn:E; [discriminate|].
    destruct i; assumption.
  - destruct (match_here r (x :: s)) as [[c t]|] eqn:E; [discriminate|].
    destruct (find r s) as [[[p c] t]|] eqn:F; [discriminate|].
    destruct i; simpl; [assumption|]. apply IH. reflexivity.
Qed.

(** Conversely, a position that matches and has none before it is the one
    [find] returns. *)
Lemma find_at (r : regex) :
  forall pre s caps rest,
    (forall i, i < length pre -> match_here r (drop i (pre ++ s)) = None) ->
    match_here r s = Some (caps, rest) ->
    find r (pre ++ s) = Some (pre, caps, rest).
Proof.
  induction pre as [|x pre IH]; intros s caps rest Hpre Hm; simpl.
  - destruct s; simpl; rewrite Hm; reflexivity.
  - pose proof (Hpre 0 ltac:(simpl; lia)) as H0. simpl in H0. rewrite H0.
    rewrite (IH s caps rest); [reflexivity| |assumption].
    intros i Hi. apply (Hpre (S i)). simpl. lia.
Qed.

Lemma replace_all_skip (r : regex) (repl : gostring) :
  forall w s, replace_all r repl (length w) (w ++ s) = replace_all r repl 0 s.
Proof.
  induction w as [|x w IH]; intros s; simpl.
  - destruct s; reflexivity.
  - apply IH.
Qed.

(** Text before the first match is copied. *)
Lemma replace_all_prefix (r : regex) (repl : gostring) :
  forall pre s,
    (forall i, i < length pre -> match_here r (drop i (pre ++ s)) = None) ->
    replace_all r repl 0 (pre ++ s) = pre ++ replace_all r repl 0 s.
Proof.
  induction pre as [|x pre IH]; intros s Hpre; simpl; [reflexivity|].
  pose proof (Hpre 0 ltac:(simpl; lia)) as H0. simpl in H0. rewrite H0.
  f_equal. apply IH.
  intros i Hi. apply (Hpre (S i)). simpl. lia.
Qed.

(** A non-empty match is replaced and the scan resumes after it. *)
Lemma replace_all_match (r : regex) (repl : gostring) (w rest : gostring) caps :
  w <> [] ->
  match_here r (w ++ rest) = Some (caps, rest) ->
  replace_all r repl 0 (w ++ rest) = repl ++ replace_all r repl 0 rest.
Proof.
  intros Hw Hm. destruct w as [|x w]; [congruence|].
  change ((x :: w) ++ rest) with (x :: (w ++ rest)) in *.
  cbn [replace_all]. rewrite Hm.
  replace (length (x :: w ++ rest) - length rest) with (S (length w))
    by (simpl; rewrite length_app; lia).
  rewrite replace_all_skip. reflexivity.
Qed.

Lemma replace_all_none (r : regex) (repl : gostring) :
  forall s, (forall i, match_here r (drop i s) = None) ->
            replace_all r repl 0 s = s.
Proof.
  intros s H. rewrite <- (app_nil_r s) at 1.
  rewrite replace_all_prefix; [simpl; apply app_nil_r|].
  intros i _. rewrite app_nil_r. apply H.
Qed.
End Engine.

(* ================================================================== *)
(** * The metadata grammar *)
(* ================================================================== *)

Ltac break :=
  repeat match goal with
  | H : exists _, _ |- _ => destruct H
  | H : _ /\ _ |- _ => destruct H
  end.

Ltac use_bool_hyps :=
  repeat match goal with H : _ = true |- _ => rewrite H; clear H end.

Lemma metadata_re_shape (w : gostring) (c' : list gostring) :
  matches metadata_re w (replicate 5 []) c' ->
  exists id box due en, metadata_word w id box due en /\ c' = [[]; id; box; due; en].
Proof.
  intros M. cbn in M. break. subst.
  match goal with H : _ \/ _ |- _ => destruct H as [H|H] end.
  - break. subst.
    match goal with H : _ \/ _ |- _ => destruct H as [H|H] end; break; subst.
    + eexists _, _, _, (str "true"). split; [|reflexivity].
      eexists _, _. split; [reflexivity|].
      do 2 (split; [assumption|]). cbn. use_bool_hyps. eauto 10.
    + eexists _, _, _, (str "false"). split; [|reflexivity].
      eexists _, _. split; [reflexivity|].
      do 2 (split; [assumption|]). cbn. use_bool_hyps. eauto 10.
  - break. subst.
    eexists _, _, _, []. split; [|reflexivity].
    eexists _, _. split; [reflexivity|].
    do 2 (split; [assumption|]). cbn. use_bool_hyps. eauto 10.
Qed.

Lemma match_here_metadata (s : gostring) caps rest :
  match_here metadata_re s = Some (caps, rest) ->
  exists w id box due en,
    s = w ++ rest /\ metadata_word w id box due en /\ caps = [w; id; box; due; en].
Proof.
  intros H. apply match_here_sound in H as (w & c' & -> & M & ->).
  apply metadata_re_shape in M as (id & box & due & en & Hw & ->).
  exists w, id, box, due, en. auto.
Qed.

Lemma alnum_facts (c : rune) :
  is_alnum c = true ->
  space c = false /\ dot c = true /\ c <> 59%N /\ c <> 60%N /\ c <> 36%N.
Proof. unfold is_alnum, space, dot. lia. Qed.

Lemma is_date_inv (d : gostring) :
  is_date d = true ->
  exists y1 y2 y3 y4 m1 m2 d1 d2,
    d = [y1; y2; y3; y4; 45; m1; m2; 45; d1; d2]%N
    /\ digit y1 = true /\ digit y2 = true /\ digit y3 = true /\ digit y4 = true
    /\ digit m1 = true /\ digit m2 = true /\ digit d1 = true /\ digit d2 = true.
Proof.
  intros H. do 10 (destruct d as [|? d]; [discriminate H|]).
  destruct d; [|discriminate H]. cbn in H.
  repeat match goal with H : _ && _ = true |- _ => apply andb_true_iff in H as [? ?] end.
  repeat match goal with H : (_ =? _)%N = true |- _ => apply N.eqb_eq in H; subst end.
  do 8 eexists. repeat split; first [reflexivity | eassumption].
Qed.


Lemma runs_Eps : runs Eps [].
Proof. intros A s c K. reflexivity. Qed.

Lemma runs_Lit (x : rune) : runs (Lit x) [x].
Proof. intros A s c K. simpl. rewrite N.eqb_refl. reflexivity. Qed.

Lemma runs_Cls (p : rune -> bool) (x : rune) : p x = true -> runs (Cls p) [x].
Proof. intros Hp A s c K. simpl. rewrite Hp. reflexivity. Qed.

Lemma runs_Cat (r1 r2 : regex) (w1 w2 : gostring) :
  runs r1 w1 -> runs r2 w2 -> runs (Cat r1 r2) (w1 ++ w2).
Proof.
  intros H1 H2 A s c K. simpl. rewrite <- app_assoc, H1, H2. reflexivity.
Qed.

Lemma runs_lits (l : gostring) : runs (lits l) l.
Proof.
  induction l as [|x l IH]; [apply runs_Eps|].
  destruct l as [|y l]; [apply runs_Lit|].
  change (runs (Cat (Lit x) (lits (y :: l))) ([x] ++ y :: l)).
  apply runs_Cat; [apply runs_Lit|exact IH].
Qed.

Lemma runs_rep_Cls (p : rune -> bool) (w : gostring) :
  forallb p w = true -> runs (rep (length w) (Cls p)) w.
Proof.
  induction w as [|x w IH]; intros Hw; [apply runs_Eps|].
  simpl in Hw. apply andb_true_iff in Hw as [Hx Hw].
  destruct w as [|y w]; [apply runs_Cls; assumption|].
  change (runs (Cat (Cls p) (rep (length (y :: w)) (Cls p))) ([x] ++ y :: w)).
  apply runs_Cat; [apply runs_Cls; assumption|apply IH; assumption].
Qed.

Lemma exec_Grp_runs {A : Type} (n : nat) (r : regex) (w s : gostring) c
    (K : gostring -> list gostring -> option A) :
  runs r w -> exec (Grp n r) (w ++ s) c K = K s (<[n := w]> c).
Proof. intros H. simpl. rewrite H, take_app_rest. reflexivity. Qed.

Lemma exec_Star_stop {A : Type} (p : rune -> bool) (x : rune) (s : gostring) c
    (K : gostring -> list gostring -> option A) :
  p x = false -> exec (Star p) (x :: s) c K = K (x :: s) c.
Proof. intros Hp. simpl. rewrite Hp. reflexivity. Qed.

Lemma exec_cat_cons {A : Type} (r : regex) (rs : list regex) (s : gostring) c
    (K : gostring -> list gostring -> option A) :
  exec (cat (r :: rs)) s c K = exec r s c (fun s' c' => exec (cat rs) s' c' K).
Proof. reflexivity. Qed.

Lemma exec_Lit_miss {A : Type} (x y : rune) (s : gostring) c
    (K : gostring -> list gostring -> option A) :
  y <> x -> exec (Lit x) (y :: s) c K = None.
Proof. intros H. simpl. destruct (N.eqb_spec y x); [contradiction|reflexivity]. Qed.

Lemma runs_date_re (d : gostring) : is_date d = true -> runs date_re d.
Proof.
  intros H. apply is_date_inv in H as (y1 & y2 & y3 & y4 & m1 & m2 & d1 & d2 & -> & H).
  break.
  change (runs (Cat (rep (length [y1; y2; y3; y4]) (Cls digit))
            (Cat (Lit 45) (Cat (rep (length [m1; m2]) (Cls digit))
              (Cat (Lit 45) (Cat (rep (length [d1; d2]) (Cls digit)) Eps)))))
            ([y1; y2; y3; y4] ++ [45%N] ++ [m1; m2] ++ [45%N] ++ [d1; d2] ++ [])).
  repeat first [apply runs_Cat | apply runs_Lit | apply runs_Eps
               | apply runs_rep_Cls; cbn [forallb]; use_bool_hyps; reflexivity].
Qed.

Lemma exec_Star_stop_app {A : Type} (p : rune -> bool) (x : rune) (w s : gostring) c
    (K : gostring -> list gostring -> option A) :
  p x = false -> exec (Star p) ((x :: w) ++ s) c K = K ((x :: w) ++ s) c.
Proof. intros Hp. simpl. rewrite Hp. reflexivity. Qed.

Lemma exec_Opt {A : Type} (r : regex) (s : gostring) c
    (K : gostring -> list gostring -> option A) :
  exec (Opt r) s c K =
  match exec r s c K with Some a => Some a | None => K s c end.
Proof. reflexivity. Qed.

Lemma exec_Cat {A : Type} (r1 r2 : regex) (s : gostring) c
    (K : gostring -> list gostring -> option A) :
  exec (Cat r1 r2) s c K = exec r1 s c (fun s' c' => exec r2 s' c' K).
Proof. reflexivity. Qed.

Lemma exec_cat_nil {A : Type} (s : gostring) c
    (K : gostring -> list gostring -> option A) :
  exec (cat []) s c K = K s c.
Proof. reflexivity. Qed.

Lemma exec_flag_true {A : Type} (s : gostring) c
    (K : gostring -> list gostring -> option A) :
  exec (Grp 4 true_or_false) (str "true" ++ s) c K = K s (<[4 := str "true"]> c).
Proof.
  unfold true_or_false. cbn [exec].
  rewrite (runs_lits (str "true")), take_app_rest.
  destruct (K s _); reflexivity.
Qed.

Lemma exec_flag_false {A : Type} (s : gostring) c
    (K : gostring -> list gostring -> option A) :
  exec (Grp 4 true_or_false) (str "false" ++ s) c K = K s (<[4 := str "false"]> c).
Proof.
  unfold true_or_false. cbn [exec].
  rewrite (runs_lits (str "false")), take_app_rest.
  reflexivity.
Qed.

(** The tail of a canonical block: the optional flag, no blanks, [-->]. *)
Lemma exec_metadata_tail {A : Type} (en rest : gostring) c
    (K : gostring -> list gostring -> option A) :
  en = [] \/ en = str "true" \/ en = str "false" ->
  exec (cat [Opt (Cat (Lit 59) (Grp 4 true_or_false)); Star space; lits (str "-->")])
    (flag_suffix en ++ str "-->" ++ rest) c K
  = K rest (if bool_decide (en = []) then c else <[4 := en]> c).
Proof.
  intros Hen.
  assert (Htail : forall c', exec (cat [Star space; lits (str "-->")])
                    (str "-->" ++ rest) c' K = K rest c').
  { intros c'. change (str "-->") with [45; 45; 62]%N.
    rewrite exec_cat_cons, exec_Star_stop_app by reflexivity.
    rewrite exec_cat_cons, (runs_lits [45; 45; 62]%N). reflexivity. }
  rewrite exec_cat_cons, exec_Opt.
  destruct Hen as [->|[->| ->]].
  - change (flag_suffix [] ++ str "-->" ++ rest) with (str "-->" ++ rest).
    rewrite Htail. reflexivity.
  - change (flag_suffix (str "true") ++ str "-->" ++ rest)
      with ([59%N] ++ str "true" ++ str "-->" ++ rest).
    rewrite exec_Cat, (runs_Lit 59), exec_flag_true, Htail.
    destruct (K rest _) eqn:E; [reflexivity|].
    change (str "true") with [116; 114; 117; 101]%N.
    rewrite exec_cat_cons, exec_Star_stop_app by reflexivity. reflexivity.
  - change (flag_suffix (str "false") ++ str "-->" ++ rest)
      with ([59%N] ++ str "false" ++ str "-->" ++ rest).
    rewrite exec_Cat, (runs_Lit 59), exec_flag_false, Htail.
    destruct (K rest _) eqn:E; [reflexivity|].
    change (str "false") with [102; 97; 108; 115; 101]%N.
    rewrite exec_cat_cons, exec_Star_stop_app by reflexivity. reflexivity.
Qed.

Lemma exec_metadata_canonical {A : Type} (x : rune) (id' : gostring) (b : rune)
    (due en rest : gostring) c (K : gostring -> list gostring -> option A) :
  length (x :: id') = 4 -> forallb dot (x :: id') = true -> space x = false ->
  digit b = true -> is_date due = true ->
  en = [] \/ en = str "true" \/ en = str "false" ->
  exec metadata_re
    (str "<!--" ++ (x :: id') ++ [59%N] ++ [b] ++ [59%N] ++ due
       ++ flag_suffix en ++ str "-->" ++ rest) c K
  = K rest (canonical_caps (x :: id') [b] due en c).
Proof.
  intros Hlen Hdot Hx Hb Hdue Hen. unfold metadata_re.
  rewrite exec_cat_cons, (runs_lits (str "<!--")).
  rewrite exec_cat_cons, exec_Star_stop_app by assumption.
  rewrite exec_cat_cons, exec_Grp_runs
    by (change 4 with (length (x :: id')) at 1 || rewrite <- Hlen; apply runs_rep_Cls; assumption).
  rewrite exec_cat_cons, (runs_Lit 59).
  rewrite exec_cat_cons, exec_Grp_runs by (apply runs_Cls; assumption).
  rewrite exec_cat_cons, (runs_Lit 59).
  rewrite exec_cat_cons, exec_Grp_runs by (apply runs_date_re; assumption).
  rewrite exec_metadata_tail by assumption.
  unfold canonical_caps. reflexivity.
Qed.

Lemma match_here_canonical (x : rune) (id' : gostring) (b : rune)
    (due en rest : gostring) :
  length (x :: id') = 4 -> forallb dot (x :: id') = true -> space x = false ->
  digit b = true -> is_date due = true ->
  en = [] \/ en = str "true" \/ en = str "false" ->
  match_here metadata_re (comment_text [] (x :: id') [b] due en [] ++ rest)
  = Some ([comment_text [] (x :: id') [b] due en []; x :: id'; [b]; due; en], rest).
Proof.
  intros Hlen Hdot Hx Hb Hdue Hen. unfold match_here.
  set (w := comment_text [] (x :: id') [b] due en []).
  set (K := fun rest0 caps => Some (<[0 := take (length (w ++ rest) - length rest0) (w ++ rest)]> caps, rest0)).
  assert (Hw : w ++ rest = str "<!--" ++ (x :: id') ++ [59%N] ++ [b] ++ [59%N] ++ due
       ++ flag_suffix en ++ str "-->" ++ rest).
  { unfold w, comment_text. rewrite <- !app_assoc. reflexivity. }
  rewrite Hw at 1. rewrite exec_metadata_canonical by assumption.
  unfold K. rewrite take_app_rest. unfold canonical_caps.
  destruct Hen as [->|[->| ->]]; reflexivity.
Qed.
Lemma space_not_lt (c : rune) : space c = true -> c <> 60%N.
Proof. unfold space. lia. Qed.

Lemma digit_not_lt (c : rune) : digit c = true -> c <> 60%N.
Proof. unfold digit. lia. Qed.

Lemma forallb_Forall_ne (p : rune -> bool) (x : rune) (l : gostring) :
  (forall c, p c = true -> c <> x) -> forallb p l = true -> Forall (fun c => c <> x) l.
Proof.
  intros Hp H. rewrite forallb_forall in H. apply List.Forall_forall.
  intros c Hc. apply Hp, H, Hc.
Qed.

Lemma is_date_no_lt (d : gostring) : is_date d = true -> Forall (fun c => c <> 60%N) d.
Proof.
  intros H. apply is_date_inv in H as (y1 & y2 & y3 & y4 & m1 & m2 & d1 & d2 & -> & H).
  break. repeat constructor; try (apply digit_not_lt; assumption); lia.
Qed.

(** After the identifier, a word of the metadata grammar has no [<]. *)
Lemma metadata_word_tail (w id box due en : gostring) :
  metadata_word w id box due en ->
  exists ws R, w = str "<!--" ++ ws ++ id ++ 59%N :: R
               /\ forallb space ws = true /\ length id = 4
               /\ Forall (fun c => c <> 60%N) R.
Proof.
  intros (ws & ws' & -> & Hws & Hws' & Hlen & Hdot & (b & -> & Hb) & Hdue & Hen).
  exists ws, ([b] ++ [59%N] ++ due ++ flag_suffix en ++ ws' ++ str "-->").
  split; [reflexivity|]. do 2 (split; [assumption|]).
  repeat apply Forall_app_2.
  - repeat constructor. apply digit_not_lt; assumption.
  - repeat constructor. lia.
  - apply is_date_no_lt; assumption.
  - destruct Hen as [->|[->| ->]]; cbn; repeat constructor; lia.
  - eapply forallb_Forall_ne; [apply space_not_lt|assumption].
  - cbn. repeat constructor; lia.
Qed.

(** A word of the metadata grammar that contains [<!--] again, further in,
    has a semicolon right after it. *)
Lemma metadata_word_inner (w id box due en u v : gostring) (c0 : rune) :
  metadata_word w id box due en ->
  w = u ++ str "<!--" ++ c0 :: v -> u <> [] -> c0 = 59%N.
Proof.
  intros Hw Heq Hu.
  apply metadata_word_tail in Hw as (ws & R & Hw & Hws & Hlen & HR).
  assert (L : forall i, w !! (length u + i) = (str "<!--" ++ c0 :: v) !! i).
  { intros i. rewrite Heq, lookup_app_r by lia. f_equal. lia. }
  assert (Hu' : length u > 0) by (destruct u; [congruence|simpl; lia]).
  set (k := length ws).
  assert (P : forall i, i < 4 -> w !! i = str "<!--" !! i).
  { intros i Hi. rewrite Hw, lookup_app_l by (simpl; lia). reflexivity. }
  assert (S : forall i, 4 <= i < 4 + k -> exists c, w !! i = Some c /\ space c = true).
  { intros i Hi. rewrite Hw, lookup_app_r by (simpl; lia). simpl length.
    rewrite lookup_app_l by (fold k; lia).
    destruct (ws !! (i - 4)) as [c|] eqn:E.
    - exists c. split; [reflexivity|]. rewrite forallb_forall in Hws.
      apply Hws. apply list_elem_of_In. eapply list_elem_of_lookup_2; eassumption.
    - apply lookup_ge_None in E. fold k in E. lia. }
  assert (T0 : w !! (8 + k) = Some 59%N).
  { rewrite Hw, lookup_app_r by (simpl; lia). simpl length.
    rewrite lookup_app_r by (fold k; lia). fold k.
    rewrite lookup_app_r by lia. rewrite Hlen.
    replace (8 + k - 4 - k - 4) with 0 by lia. reflexivity. }
  assert (T : forall i c, 8 + k < i -> w !! i = Some c -> c <> 60%N).
  { intros i c Hi. rewrite Hw, lookup_app_r by (simpl; lia). simpl length.
    rewrite lookup_app_r by (fold k; lia). fold k.
    rewrite lookup_app_r by lia. rewrite Hlen.
    destruct (i - 4 - k - 4) as [|j] eqn:Ej; [lia|]. simpl. intros Hc.
    rewrite List.Forall_forall in HR. apply HR. apply list_elem_of_In.
    eapply list_elem_of_lookup_2; eassumption. }
  pose proof (L 0) as L0. pose proof (L 1) as L1. pose proof (L 2) as L2.
  pose proof (L 3) as L3. pose proof (L 4) as L4.
  change ((str "<!--" ++ c0 :: v) !! 0) with (Some 60%N) in L0.
  change ((str "<!--" ++ c0 :: v) !! 1) with (Some 33%N) in L1.
  change ((str "<!--" ++ c0 :: v) !! 2) with (Some 45%N) in L2.
  change ((str "<!--" ++ c0 :: v) !! 3) with (Some 45%N) in L3.
  change ((str "<!--" ++ c0 :: v) !! 4) with (Some c0) in L4.
  set (n := length u) in *.
  (* where can the inner [<] be? *)
  assert (Hn : n = 4 + k).
  { destruct (decide (n < 4)) as [Hlt|Hge].
    { rewrite Nat.add_0_r, P in L0 by lia.
      destruct n as [|[|[|[|?]]]]; try lia; discriminate L0. }
    destruct (decide (n < 4 + k)) as [Hlt|Hge2].
    { destruct (S n ltac:(lia)) as (c & Hc & Hsp). rewrite Nat.add_0_r, Hc in L0.
      inversion L0; subst c. apply space_not_lt in Hsp. congruence. }
    destruct (decide (8 + k < n)) as [Hgt|Hle].
    { rewrite Nat.add_0_r in L0. exfalso. exact (T n _ Hgt L0 eq_refl). }
    destruct (decide (n = 8 + k)) as [->|Hne].
    { rewrite Nat.add_0_r, T0 in L0. discriminate L0. }
    destruct (decide (n = 7 + k)) as [->|Hne7].
    { replace (7 + k + 1) with (8 + k) in L1 by lia. rewrite T0 in L1. discriminate L1. }
    destruct (decide (n = 6 + k)) as [->|Hne6].
    { replace (6 + k + 2) with (8 + k) in L2 by lia. rewrite T0 in L2. discriminate L2. }
    destruct (decide (n = 5 + k)) as [->|Hne5].
    { replace (5 + k + 3) with (8 + k) in L3 by lia. rewrite T0 in L3. discriminate L3. }
    lia. }
  rewrite Hn in L4. replace (4 + k + 4) with (8 + k) in L4 by lia.
  rewrite T0 in L4. congruence.
Qed.
(** Rewriting what follows a [<!--] so that no semicolon comes right after
    it creates no match further to the left. *)
Lemma no_earlier_match (pre w2 post v : gostring) (c0 : rune) (i : nat) :
  match_here metadata_re (drop i (pre ++ (str "<!--" ++ w2) ++ post)) = None ->
  c0 <> 59%N -> i < length pre ->
  match_here metadata_re (drop i (pre ++ str "<!--" ++ c0 :: v)) = None.
Proof.
  intros Hold Hc Hi.
  destruct (match_here metadata_re (drop i (pre ++ str "<!--" ++ c0 :: v)))
    as [[caps rest]|] eqn:E; [exfalso|reflexivity].
  apply match_here_sound in E as (w' & c' & Hs & M & _).
  pose proof M as M'. apply metadata_re_shape in M' as (id & box & due & en & Hw' & _).
  rewrite drop_app_le in Hs, Hold by lia.
  set (u := drop i pre) in *.
  assert (Hu : u <> []).
  { intros Hnil. apply (f_equal length) in Hnil. unfold u in Hnil.
    rewrite length_drop in Hnil. simpl in Hnil. lia. }
  rewrite (app_assoc u (str "<!--")) in Hs.
  apply List.app_eq_app in Hs as [l [[H1 H2]|[H1 H2]]].
  - apply (match_here_complete _ w' (l ++ w2 ++ post) _ M).
    rewrite app_assoc, <- H1, <- !app_assoc. exact Hold.
  - destruct l as [|x l].
    + rewrite app_nil_r in H1. subst w'.
      apply (match_here_complete _ (u ++ str "<!--") (w2 ++ post) _ M).
      rewrite <- !app_assoc. rewrite <- !app_assoc in Hold. exact Hold.
    + simpl in H2. inversion H2; subst x v.
      rewrite <- app_assoc in H1.
      apply Hc. eapply metadata_word_inner; [exact Hw'|exact H1|exact Hu].
Qed.

Lemma symbol_alnum (i : N) : is_alnum (Nanoid.symbol i) = true.
Proof.
  unfold Nanoid.symbol.
  assert (H : Forall (fun c => is_alnum c = true) Nanoid.alphabet)
    by (apply List.Forall_forall, forallb_forall; vm_compute; reflexivity).
  rewrite List.Forall_forall in H. apply H. apply nth_In.
  change (length Nanoid.alphabet) with 62.
  pose proof (N.mod_upper_bound i 62 ltac:(lia)). lia.
Qed.

Lemma MustGenerate_shape (r : N) :
  exists x id', Nanoid.MustGenerate r = x :: id'
    /\ length (x :: id') = 4 /\ forallb is_alnum (x :: id') = true.
Proof.
  unfold Nanoid.MustGenerate. eexists _, _. split; [reflexivity|].
  split; [reflexivity|]. cbn [forallb]. rewrite !symbol_alnum. reflexivity.
Qed.

Lemma alnum_dot (l : gostring) : forallb is_alnum l = true -> forallb dot l = true.
Proof.
  intros H. rewrite forallb_forall in *. intros c Hc.
  apply alnum_facts, H, Hc.
Qed.

Lemma metadata_word_prefix (w id box due en : gostring) :
  metadata_word w id box due en -> exists w2, w = str "<!--" ++ w2.
Proof. intros (ws & ws' & -> & _). unfold comment_text. eauto. Qed.

Lemma metadata_word_fields (w id box due en : gostring) :
  metadata_word w id box due en ->
  length id = 4 /\ forallb dot id = true /\ (exists b, box = [b] /\ digit b = true)
  /\ is_date due = true /\ (en = [] \/ en = str "true" \/ en = str "false").
Proof. intros (ws & ws' & _ & _ & _ & ? & ? & ? & ? & ?). auto. Qed.

Lemma find_metadata (line pre post : gostring) (caps : list gostring) :
  find metadata_re line = Some (pre, caps, post) ->
  exists w id box due en,
    line = pre ++ w ++ post /\ metadata_word w id box due en
    /\ caps = [w; id; box; due; en]
    /\ forall i, i < length pre -> match_here metadata_re (drop i line) = None.
Proof.
  intros H. apply find_Some in H as (w & -> & Hm & Hpre).
  apply match_here_metadata in Hm as (w' & id & box & due & en & Heq & Hw & ->).
  apply app_inv_tail in Heq. subst w'. exists w, id, box, due, en. auto.
Qed.

Lemma getMetadata_found (line pre post w id box due en : gostring) :
  find metadata_re line = Some (pre, [w; id; box; due; en], post) ->
  getMetadata line = (id, box, due, flag_value en).
Proof.
  intros H. unfold getMetadata, FindStringSubmatch. rewrite H.
  cbn [length Nat.leb nth]. unfold flag_value.
  destruct (bool_decide (en = [])); reflexivity.
Qed.

Lemma getMetadata_not_found (line : gostring) :
  find metadata_re line = None -> getMetadata line = ([], [], [], true).
Proof. intros H. unfold getMetadata, FindStringSubmatch. rewrite H. reflexivity. Qed.

(** [generateNewId] on a line that carries metadata: the leftmost block is
    rewritten with the new identifier and the same other fields, and it is
    again the leftmost block of the new line. *)
Lemma generateNewId_found now r (line pre post w id box due en : gostring) :
  find metadata_re line = Some (pre, [w; id; box; due; en], post) ->
  let newid := Nanoid.MustGenerate r in
  let upd := comment_text [] newid box due en [] in
  let post' := replace_all metadata_re upd 0 post in
  generateNewId now r line = (pre ++ upd ++ post', newid)
  /\ find metadata_re (pre ++ upd ++ post')
     = Some (pre, [upd; newid; box; due; en], post').
Proof.
  intros H newid upd post'.
  pose proof H as H'. apply find_metadata in H' as (w0 & id0 & box0 & due0 & en0 & Hline & Hw & Hc & Hpre).
  inversion Hc; subst w0 id0 box0 due0 en0. clear Hc.
  destruct (metadata_word_fields _ _ _ _ _ Hw) as (Hlen & Hdot & (b & -> & Hb) & Hdue & Hen).
  destruct (MustGenerate_shape r) as (x & id' & Hid & Hl & Hal). fold newid in Hid.
  assert (Hx : space x = false /\ x <> 59%N).
  { cbn [forallb] in Hal. apply andb_true_iff in Hal as [Hx _].
    apply alnum_facts in Hx. tauto. }
  assert (Hm : match_here metadata_re (upd ++ post') = Some ([upd; newid; [b]; due; en], post')).
  { unfold upd. rewrite Hid. apply match_here_canonical; try assumption; try tauto.
    apply alnum_dot; assumption. }
  destruct (metadata_word_prefix _ _ _ _ _ Hw) as (w2 & Hw2).
  assert (Hno : forall i, i < length pre ->
                 match_here metadata_re (drop i (pre ++ upd ++ post')) = None).
  { intros i Hi. specialize (Hpre i Hi). rewrite Hline, Hw2 in Hpre.
    unfold upd, comment_text. rewrite Hid. cbn [app]. rewrite <- !app_assoc.
    change (str "<!--" ++ x :: ?t) with (str "<!--" ++ x :: t).
    apply (no_earlier_match pre w2 post); [exact Hpre|tauto|exact Hi]. }
  split.
  - unfold generateNewId, FindStringSubmatch. rewrite H.
    cbn [length Nat.leb nth]. fold newid.
    assert (Hupd : (if true && negb (bool_decide (en = []))
                    then (str "<!--" ++ newid ++ [59%N] ++ [b] ++ [59%N] ++ due) ++ [59%N] ++ en
                    else str "<!--" ++ newid ++ [59%N] ++ [b] ++ [59%N] ++ due) ++ str "-->"
                   = upd).
    { unfold upd, comment_text, flag_suffix.
      destruct (bool_decide (en = [])); cbn [andb negb]; rewrite <- ?app_assoc; reflexivity. }
    rewrite Hupd. f_equal. unfold ReplaceAllString.
    rewrite Hline at 1. rewrite replace_all_prefix.
    + f_equal. apply (replace_all_match _ _ w post [w; id; [b]; due; en]).
      * rewrite Hw2. discriminate.
      * apply find_Some in H as (w1 & Hl1 & Hm1 & _). rewrite Hline in Hl1.
        apply app_inv_head, app_inv_tail in Hl1. subst w1. exact Hm1.
    + intros i Hi. rewrite <- Hline. apply Hpre, Hi.
  - apply find_at; assumption.
Qed.

(** The greedy repetition returns the success of the longest run that has
    one. *)
Lemma star_first {A : Type} (p : rune -> bool) (k : gostring -> option A) :
  forall s a, star p k s = Some a ->
    exists w t, s = w ++ t /\ forallb p w = true /\ k t = Some a
      /\ forall w' t', s = w' ++ t' -> forallb p w' = true ->
                       length w < length w' -> k t' = None.
Proof.
  induction s as [|x s IH]; intros a H; simpl in H.
  - exists [], []. repeat split; [assumption|].
    intros w' t' Heq _ Hl. destruct w'; [simpl in Hl; lia|discriminate].
  - destruct (p x) eqn:Hp.
    + destruct (star p k s) as [b|] eqn:Hs.
      * inversion H; subst b. destruct (IH a eq_refl) as (w & t & -> & Hw & Hk & Hmax).
        exists (x :: w), t. simpl. rewrite Hp, Hw. repeat split; [assumption|].
        intros w' t' Heq Hw' Hl. destruct w' as [|y w']; [simpl in Hl; lia|].
        simpl in Heq. inversion Heq; subst y. simpl in Hw', Hl.
        apply andb_true_iff in Hw' as [_ Hw']. eapply Hmax; [eassumption|assumption|lia].
      * exists [], (x :: s). repeat split; [assumption|].
        intros w' t' Heq Hw' Hl. destruct w' as [|y w']; [simpl in Hl; lia|].
        simpl in Heq. inversion Heq; subst y s. simpl in Hw'.
        apply andb_true_iff in Hw' as [_ Hw'].
        eapply star_complete; eassumption.
    + exists [], (x :: s). repeat split; [assumption|].
      intros w' t' Heq Hw' Hl. destruct w' as [|y w']; [simpl in Hl; lia|].
      simpl in Heq. inversion Heq; subst y. simpl in Hw'. rewrite Hp in Hw'. discriminate.
Qed.

Lemma matches_lits (l w : gostring) c c' : matches (lits l) w c c' -> w = l /\ c' = c.
Proof.
  revert w. induction l as [|x l IH]; intros w M; [exact M|].
  destruct l as [|y l]; [exact M|].
  change (lits (x :: y :: l)) with (Cat (Lit x) (lits (y :: l))) in M.
  destruct M as (w1 & w2 & c1 & -> & [-> ->] & M2).
  apply IH in M2 as [-> ->]. auto.
Qed.

Lemma matches_lits_intro (l : gostring) c : matches (lits l) l c c.
Proof.
  induction l as [|x l IH]; [simpl; auto|].
  destruct l as [|y l]; [simpl; auto|].
  change (lits (x :: y :: l)) with (Cat (Lit x) (lits (y :: l))).
  exists [x], (y :: l), c. simpl app. repeat split. exact IH.
Qed.

Lemma comment_re_shape (w : gostring) c c' :
  matches comment_re w c c' ->
  exists ws b, w = ws ++ str "<!--" ++ b ++ str "-->"
               /\ forallb space ws = true /\ forallb dot b = true.
Proof.
  unfold comment_re. cbn [cat foldr]. intros M.
  destruct M as (ws & w1 & c1 & -> & [Hws ->] & M).
  destruct M as (w2 & w3 & c2 & -> & M2 & M).
  apply matches_lits in M2 as [-> ->].
  destruct M as (b & w4 & c3 & -> & [Hb ->] & M).
  destruct M as (w5 & w6 & c4 & -> & M5 & [-> ->]).
  apply matches_lits in M5 as [-> ->].
  exists ws, b. rewrite app_nil_r. auto.
Qed.

Lemma comment_re_intro (ws b : gostring) c :
  forallb space ws = true -> forallb dot b = true ->
  matches comment_re (ws ++ str "<!--" ++ b ++ str "-->") c c.
Proof.
  intros Hws Hb. unfold comment_re. cbn [cat foldr].
  exists ws, (str "<!--" ++ b ++ str "-->"), c. split; [reflexivity|].
  split; [simpl; auto|].
  exists (str "<!--"), (b ++ str "-->"), c. split; [reflexivity|].
  split; [apply matches_lits_intro|].
  exists b, (str "-->"), c. split; [reflexivity|]. split; [simpl; auto|].
  exists (str "-->"), [], c. split; [rewrite app_nil_r; reflexivity|].
  split; [apply matches_lits_intro|simpl; auto].
Qed.

Lemma newline_free_app (s t : gostring) :
  newline_free (s ++ t) <-> newline_free s /\ newline_free t.
Proof. unfold newline_free. rewrite forallb_app, andb_true_iff. reflexivity. Qed.

Lemma comment_match_at (a b c : gostring) :
  newline_free b ->
  match_here comment_re (str "<!--" ++ b ++ str "-->" ++ c) <> None.
Proof.
  intros Hb.
  replace (str "<!--" ++ b ++ str "-->" ++ c)
    with (([] ++ str "<!--" ++ b ++ str "-->") ++ c)
    by (simpl; rewrite <- !app_assoc; reflexivity).
  eapply match_here_complete. apply comment_re_intro; [reflexivity|exact Hb].
Qed.

(** Greedy [.*]: after a match of [comment_re] on a line, no [-->] is left. *)
Lemma comment_match_rest (s rest : gostring) caps :
  newline_free s ->
  match_here comment_re s = Some (caps, rest) -> ~ contains (str "-->") rest.
Proof.
  intros Hs Hm (r1 & r2 & Hrest).
  unfold match_here, comment_re in Hm. cbn [cat foldr] in Hm.
  rewrite exec_Cat in Hm. cbn [exec] in Hm.
  apply star_sound in Hm as (ws & t & Heq & Hws & Hm).
  apply exec_sound in Hm as (w1 & t2 & c1 & -> & M1 & Hm).
  apply matches_lits in M1 as [-> ->].
  cbn [exec] in Hm.
  apply star_first in Hm as (b & t3 & -> & Hb & Hm & Hmax).
  apply exec_sound in Hm as (w3 & t4 & c3 & -> & M3 & Hm).
  apply matches_lits in M3 as [-> ->].
  cbn [exec] in Hm. inversion Hm; subst rest t4. clear Hm.
  subst s.
  apply newline_free_app in Hs as [_ Hs]. apply newline_free_app in Hs as [_ Hs].
  apply newline_free_app in Hs as [_ Hs]. apply newline_free_app in Hs as [H3 Hs].
  apply newline_free_app in Hs as [Hr1 _].
  specialize (Hmax (b ++ str "-->" ++ r1) (str "-->" ++ r2)).
  rewrite (runs_lits (str "-->")) in Hmax. cbn [exec] in Hmax.
  discriminate Hmax.
  - rewrite <- !app_assoc. reflexivity.
  - rewrite !forallb_app, Hb. unfold newline_free in H3, Hr1. rewrite H3, Hr1. reflexivity.
  - rewrite !length_app. simpl. lia.
Qed.
Ltac solve_newline_free :=
  unfold newline_free in *;
  repeat rewrite forallb_app in *;
  repeat match goal with
         | H : _ && _ = true |- _ => apply andb_true_iff in H as [? ?]
         end;
  repeat (apply andb_true_iff; split); try assumption; try reflexivity.

Lemma no_arrow_no_comment_match (rest : gostring) :
  ~ contains (str "-->") rest ->
  forall i, match_here comment_re (drop i rest) = None.
Proof.
  intros Hno i.
  destruct (match_here comment_re (drop i rest)) as [[caps t]|] eqn:E; [|reflexivity].
  exfalso. apply Hno.
  apply match_here_sound in E as (w & c' & Hs & M & _).
  apply comment_re_shape in M as (ws & b & -> & _).
  exists (take i rest ++ ws ++ str "<!--" ++ b), t.
  rewrite <- (take_drop i rest) at 1. rewrite Hs, <- !app_assoc. reflexivity.
Qed.

(** What [initializeMetadata] keeps of a line has no comment in it. *)
Lemma strip_no_comment (line : gostring) :
  newline_free line -> ~ has_comment (ReplaceAllString comment_re line []).
Proof.
  intros Hline. unfold ReplaceAllString.
  destruct (find comment_re line) as [[[pre caps] rest]|] eqn:F.
  - pose proof F as F'. apply find_Some in F' as (w & Heq & Hm & Hpre).
    pose proof Hm as Hm'. apply match_here_sound in Hm' as (w' & c' & Hw' & M & _).
    apply app_inv_tail in Hw'. subst w'.
    apply comment_re_shape in M as (ws & b2 & Hw & Hws & Hb2).
    assert (Hrest : ~ contains (str "-->") rest).
    { eapply comment_match_rest; [|exact Hm]. rewrite Heq in Hline.
      apply newline_free_app in Hline as [_ Hline]. exact Hline. }
    rewrite Heq at 1. rewrite replace_all_prefix by (intros i Hi; rewrite <- Heq; auto).
    rewrite (replace_all_match _ _ w rest caps);
      [|subst w; destruct ws; discriminate|exact Hm].
    rewrite (replace_all_none _ _ rest) by (apply no_arrow_no_comment_match; exact Hrest).
    simpl. intros (a & b & c & Hc).
    rewrite (app_assoc a), (app_assoc (a ++ _)) in Hc. symmetry in Hc.
    apply List.app_eq_app in Hc as [l [[H1 H2]|[H1 H2]]].
    + apply Hrest. exists l, c. exact H2.
    + assert (Hi : length a < length pre).
      { rewrite H1, !length_app. simpl. lia. }
      apply (comment_match_at a (b ++ l ++ ws ++ str "<!--" ++ b2) rest).
      * rewrite Heq, H1, Hw in Hline. clear - Hline. solve_newline_free.
      * specialize (Hpre _ Hi). rewrite Heq, H1, Hw in Hpre.
        rewrite <- !app_assoc in Hpre. rewrite drop_app_length in Hpre.
        rewrite <- !app_assoc. exact Hpre.
  - rewrite replace_all_none by (apply find_None; exact F).
    intros (a & b & c & Hc).
    apply (comment_match_at a b c).
    + rewrite Hc in Hline. apply newline_free_app in Hline as [_ Hline].
      apply newline_free_app in Hline as [_ Hline].
      apply newline_free_app in Hline as [Hline _]. exact Hline.
    + pose proof (find_None _ _ F (length a)) as Hn.
      rewrite Hc, drop_app_length in Hn. exact Hn.
Qed.
Lemma appendInt_width (width : nat) (bound : Z) (x : Z) :
  forallb (fun n => fixed_width width (GoTime.appendInt (Z.of_nat n) width))
    (seq 0 (Z.to_nat bound)) = true ->
  (0 <= x < bound)%Z ->
  fixed_width width (GoTime.appendInt x width) = true.
Proof.
  intros Hall Hx. rewrite forallb_forall in Hall.
  specialize (Hall (Z.to_nat x)). rewrite Z2Nat.id in Hall by lia.
  apply Hall. apply in_seq. lia.
Qed.

Lemma appendInt_year (y : Z) :
  (0 <= y <= 9999)%Z -> fixed_width 4 (GoTime.appendInt y 4) = true.
Proof.
  intros H. apply (appendInt_width 4 10000%Z); [vm_compute; reflexivity|lia].
Qed.

Lemma appendInt_two (x : Z) :
  (0 <= x <= 99)%Z -> fixed_width 2 (GoTime.appendInt x 2) = true.
Proof.
  intros H. apply (appendInt_width 2 100%Z); [vm_compute; reflexivity|lia].
Qed.

Lemma Format_is_date (t : GoTime.Time) :
  clock_ok t = true -> is_date (GoTime.Format t) = true.
Proof.
  unfold clock_ok. intros H.
  assert (Hy : (0 <= GoTime.year t <= 9999)%Z) by lia.
  assert (Hm : (0 <= GoTime.month t <= 99)%Z) by lia.
  assert (Hd : (0 <= GoTime.day t <= 99)%Z) by lia.
  apply appendInt_year in Hy. apply appendInt_two in Hm. apply appendInt_two in Hd.
  unfold GoTime.Format.
  destruct (GoTime.appendInt (GoTime.year t) 4) as [|y1 [|y2 [|y3 [|y4 [|? ?]]]]];
    try discriminate Hy.
  destruct (GoTime.appendInt (GoTime.month t) 2) as [|m1 [|m2 [|? ?]]];
    try discriminate Hm.
  destruct (GoTime.appendInt (GoTime.day t) 2) as [|d1 [|d2 [|? ?]]];
    try discriminate Hd.
  unfold fixed_width in *. cbn in Hy, Hm, Hd |- *.
  repeat match goal with H : _ && _ = true |- _ => apply andb_true_iff in H as [? ?] end.
  use_bool_hyps. reflexivity.
Qed.
Lemma metadata_word_ends (w id box due en : gostring) :
  metadata_word w id box due en -> exists m, w = str "<!--" ++ m ++ str "-->".
Proof.
  intros (ws & ws' & -> & _). unfold comment_text.
  exists (ws ++ id ++ [59%N] ++ box ++ [59%N] ++ due ++ flag_suffix en ++ ws').
  rewrite <- !app_assoc. reflexivity.
Qed.

Lemma arrow_before_opener (X Y l : gostring) :
  X ++ str " <!--" = Y ++ str "-->" ++ l -> exists l', X = Y ++ str "-->" ++ l'.
Proof.
  change (str " <!--") with [32; 60; 33; 45; 45]%N.
  change (str "-->") with [45; 45; 62]%N.
  intros H. apply (f_equal (@rev N)) in H.
  rewrite !rev_app_distr in H. simpl in H.
  destruct (rev l) as [|a [|b [|c [|d [|e l2]]]]] eqn:El; simpl in H; try discriminate H.
  inversion H as [[Ha Hb Hc Hd He H']].
  exists (rev l2). rewrite <- (rev_involutive X), H'.
  rewrite !rev_app_distr. simpl. rewrite rev_involutive. reflexivity.
Qed.

Lemma block4_canonical (id box due : gostring) (enabled : bool) :
  block4 id box due enabled
  = comment_text [] id box due (Strconv.FormatBool enabled) [].
Proof.
  unfold block4, comment_text, flag_suffix. destruct enabled; reflexivity.
Qed.

(** [initializeMetadata]: the block it appends is the leftmost metadata
    block of the line it returns. *)
Lemma initializeMetadata_found now r (line : gostring) :
  clock_ok now = true -> newline_free line ->
  let id := Nanoid.MustGenerate r in
  let kept := ReplaceAllString comment_re line [] in
  let blk := block4 id (str "0") (GoTime.Format now) true in
  initializeMetadata now r line
    = (kept ++ str " " ++ blk, id, str "0", GoTime.Format now, true)
  /\ find metadata_re (kept ++ str " " ++ blk)
     = Some (kept ++ str " ", [blk; id; str "0"; GoTime.Format now; str "true"], []).
Proof.
  intros Hnow Hline id kept blk. split; [reflexivity|].
  destruct (MustGenerate_shape r) as (x & id' & Hid & Hl & Hal). fold id in Hid.
  assert (Hx : space x = false /\ x <> 59%N).
  { cbn [forallb] in Hal. apply andb_true_iff in Hal as [Hx _].
    apply alnum_facts in Hx. tauto. }
  assert (Hm : match_here metadata_re blk
               = Some ([blk; id; str "0"; GoTime.Format now; str "true"], [])).
  { unfold blk. rewrite block4_canonical. cbn [Strconv.FormatBool].
    rewrite <- (app_nil_r (comment_text _ _ _ _ _ _)) at 1. rewrite Hid.
    apply match_here_canonical;
      first [ assumption | apply alnum_dot; assumption | apply Format_is_date; assumption
            | reflexivity | tauto | (right; left; reflexivity) ]. }
  rewrite app_assoc. apply find_at; [|exact Hm].
  intros i Hi.
  destruct (match_here metadata_re (drop i ((kept ++ str " ") ++ blk)))
    as [[caps rest]|] eqn:E; [exfalso|reflexivity].
  apply match_here_sound in E as (w' & c' & Hs & M & _).
  apply metadata_re_shape in M as (id1 & box1 & due1 & en1 & Hw' & _).
  rewrite drop_app_le in Hs by lia.
  assert (Hblk : exists v, blk = str "<!--" ++ x :: v).
  { unfold blk, block4. rewrite Hid. eexists. reflexivity. }
  destruct Hblk as (v & Hblk). rewrite Hblk in Hs.
  set (u := drop i (kept ++ str " ")) in *.
  assert (Hu : u <> []).
  { intros Hnil. apply (f_equal length) in Hnil. unfold u in Hnil.
    rewrite length_drop in Hnil. simpl in Hnil. lia. }
  assert (Hcase : forall l, u ++ str "<!--" = w' ++ l -> False).
  { intros l Hl'. destruct (metadata_word_ends _ _ _ _ _ Hw') as (m & Hm').
    rewrite length_app in Hi. simpl in Hi.
    destruct (decide (i < length kept)) as [Hlt|Hge].
    - unfold u in Hl'. rewrite drop_app_le in Hl' by lia.
      rewrite <- app_assoc in Hl'. change (str " " ++ str "<!--") with (str " <!--") in Hl'.
      rewrite Hm', <- !app_assoc in Hl'.
      rewrite (app_assoc (str "<!--")) in Hl'.
      apply arrow_before_opener in Hl' as (l' & Hk).
      apply (strip_no_comment line Hline). fold kept.
      exists (take i kept), m, l'. rewrite <- (take_drop i kept) at 1.
      rewrite Hk, <- !app_assoc. reflexivity.
    - assert (i = length kept) by lia. subst i. unfold u in Hl'.
      rewrite drop_app_length in Hl'. rewrite Hm' in Hl'. discriminate Hl'. }
  rewrite (app_assoc u) in Hs.
  apply List.app_eq_app in Hs as [l [[H1 H2]|[H1 H2]]].
  - exact (Hcase l H1).
  - destruct l as [|y l].
    + rewrite app_nil_r in H1. apply (Hcase []). rewrite app_nil_r. symmetry. exact H1.
    + simpl in H2. inversion H2; subst y v. rewrite <- app_assoc in H1.
      apply (proj2 Hx). eapply metadata_word_inner; [exact Hw'|exact H1|exact Hu].
Qed.

Lemma replace_all_newline_free (r : regex) (repl : gostring) :
  newline_free repl ->
  forall s n, newline_free s -> newline_free (replace_all r repl n s).
Proof.
  intros Hrepl. induction s as [|x s IH]; intros n Hs; [reflexivity|].
  assert (Hx : dot x = true /\ newline_free s).
  { unfold newline_free in Hs. simpl in Hs. apply andb_true_iff in Hs. exact Hs. }
  destruct Hx as [Hx Hs'].
  assert (Hcons : forall t, newline_free t -> newline_free (x :: t)).
  { intros t Ht. unfold newline_free. simpl. rewrite Hx. exact Ht. }
  cbn [replace_all]. destruct n as [|n]; [|apply IH; exact Hs'].
  destruct (match_here r (x :: s)) as [[caps rest]|].
  - destruct (length (x :: s) - length rest) as [|m].
    + apply newline_free_app. split; [exact Hrepl|]. apply Hcons, IH, Hs'.
    + apply newline_free_app. split; [exact Hrepl|]. apply IH, Hs'.
  - apply Hcons, IH, Hs'.
Qed.

Lemma carries_id_of (line id box due en : gostring) :
  carries line id box due en -> id_of line = id.
Proof.
  intros (pre & w & post & H). unfold id_of.
  rewrite (getMetadata_found _ _ _ _ _ _ _ _ H). reflexivity.
Qed.

Lemma carries_getMetadata (line id box due en : gostring) :
  carries line id box due en -> getMetadata line = (id, box, due, flag_value en).
Proof. intros (pre & w & post & H). eapply getMetadata_found; eassumption. Qed.

Lemma carries_fields (line id box due en : gostring) :
  carries line id box due en ->
  length id = 4 /\ forallb dot id = true /\ (exists b, box = [b] /\ digit b = true)
  /\ is_date due = true /\ (en = [] \/ en = str "true" \/ en = str "false").
Proof.
  intros (pre & w & post & H).
  apply find_metadata in H as (w0 & id0 & box0 & due0 & en0 & _ & Hw & Hc & _).
  inversion Hc; subst. eapply metadata_word_fields; eassumption.
Qed.

Lemma alnum_newline_free (l : gostring) : forallb is_alnum l = true -> newline_free l.
Proof. apply alnum_dot. Qed.

Lemma is_date_newline_free (d : gostring) : is_date d = true -> newline_free d.
Proof.
  intros H. apply is_date_inv in H as (y1 & y2 & y3 & y4 & m1 & m2 & d1 & d2 & -> & H).
  break. unfold newline_free. cbn [forallb].
  repeat match goal with H : digit _ = true |- _ =>
    apply (fun c (h : digit c = true) => proj1 (proj2 (alnum_facts c
      ltac:(unfold is_alnum, digit in *; lia)))) in H end.
  use_bool_hyps. reflexivity.
Qed.
Lemma canonical_newline_free (id box due en : gostring) :
  forallb dot id = true -> (exists b, box = [b] /\ digit b = true) ->
  is_date due = true -> (en = [] \/ en = str "true" \/ en = str "false") ->
  newline_free (comment_text [] id box due en []).
Proof.
  intros Hid (b & -> & Hb) Hdue Hen. apply is_date_newline_free in Hdue.
  assert (Hb' : dot b = true) by (unfold digit, dot in *; lia).
  unfold comment_text. unfold newline_free in *. rewrite !forallb_app, Hid, Hdue.
  cbn [forallb]. rewrite Hb'.
  destruct Hen as [->|[->| ->]]; reflexivity.
Qed.

Lemma generateNewId_carries now r (line id box due en : gostring) :
  carries line id box due en -> newline_free line ->
  let '(line', id') := generateNewId now r line in
  id' = Nanoid.MustGenerate r /\ carries line' id' box due en /\ newline_free line'.
Proof.
  intros Hc Hline. pose proof (carries_fields _ _ _ _ _ Hc) as (Hlen & Hdot & Hbox & Hdue & Hen).
  destruct Hc as (pre & w & post & H).
  destruct (generateNewId_found now r _ _ _ _ _ _ _ _ H) as [Hg Hf].
  rewrite Hg. split; [reflexivity|]. split; [do 3 eexists; exact Hf|].
  destruct (MustGenerate_shape r) as (x & id' & Hid & Hl & Hal).
  assert (Hupd : newline_free (comment_text [] (Nanoid.MustGenerate r) box due en [])).
  { apply canonical_newline_free; try assumption. rewrite Hid. apply alnum_dot, Hal. }
  apply find_Some in H as (w1 & Hl1 & _). rewrite Hl1 in Hline.
  apply newline_free_app in Hline as [Hpre Hrest].
  apply newline_free_app in Hrest as [_ Hpost].
  apply newline_free_app. split; [exact Hpre|].
  apply newline_free_app. split; [exact Hupd|].
  apply replace_all_newline_free; assumption.
Qed.

Lemma fresh_id_spec (now : GoTime.Time) (ids : gmap gostring bool) :
  forall tape line id box due en line' id' tape',
    carries line id box due en -> newline_free line ->
    fresh_id now tape ids line id = Some (line', id', tape') ->
    seen ids id' = false /\ carries line' id' box due en /\ newline_free line'
    /\ (seen ids id = false -> line' = line /\ id' = id /\ tape' = tape).
Proof.
  induction tape as [|r tape IH]; intros line id box due en line' id' tape' Hc Hline H;
    cbn [fresh_id] in H; destruct (seen ids id) eqn:Hs.
  - discriminate H.
  - inversion H; subst. repeat split; auto.
  - pose proof (generateNewId_carries now r _ _ _ _ _ Hc Hline) as Hg.
    destruct (generateNewId now r line) as [l1 i1]. destruct Hg as (_ & Hc1 & Hl1).
    destruct (IH _ _ _ _ _ _ _ _ Hc1 Hl1 H) as (? & ? & ? & _).
    repeat split; auto; discriminate.
  - inversion H; subst. repeat split; auto.
Qed.

Lemma find_metadata_cases (line : gostring) :
  (exists id box due en, carries line id box due en)
  \/ find metadata_re line = None.
Proof.
  destruct (find metadata_re line) as [[[pre caps] post]|] eqn:F; [left|right; reflexivity].
  pose proof F as F'. apply find_metadata in F' as (w & id & box & due & en & _ & _ & -> & _).
  exists id, box, due, en, pre, w, post. exact F.
Qed.

Lemma normalize_header_spec (now : GoTime.Time) (tape : list N) (ids : gmap gostring bool)
    (line line' id' : gostring) (tape' : list N) :
  clock_ok now = true -> newline_free line ->
  normalize_header now tape ids line = Some (line', id', tape') ->
  seen ids id' = false
  /\ (exists box due en, carries line' id' box due en)
  /\ newline_free line'
  /\ (forall id box due en, carries line id box due en ->
        carries line' id' box due en
        /\ (seen ids id = false -> line' = line /\ id' = id /\ tape' = tape)).
Proof.
  intros Hnow Hline H. unfold normalize_header in H.
  destruct (find_metadata_cases line) as [(id & box & due & en & Hc)|Hnone].
  - rewrite (carries_getMetadata _ _ _ _ _ Hc) in H.
    destruct (carries_fields _ _ _ _ _ Hc) as (Hlen & _).
    rewrite bool_decide_eq_false_2 in H by (destruct id; [discriminate Hlen|discriminate]).
    cbn in H.
    destruct (fresh_id_spec now ids _ _ _ _ _ _ _ _ _ Hc Hline H) as (Hs & Hc' & Hl' & Hsame).
    split; [exact Hs|]. split; [eauto|]. split; [exact Hl'|].
    intros id0 box0 due0 en0 Hc0.
    destruct Hc as (p1 & w1 & q1 & F1), Hc0 as (p0 & w0 & q0 & F0).
    rewrite F1 in F0. inversion F0; subst. split; [exact Hc'|exact Hsame].
  - rewrite (getMetadata_not_found _ Hnone) in H.
    rewrite bool_decide_eq_true_2 in H by reflexivity.
    destruct tape as [|r tape]; [discriminate H|].
    destruct (initializeMetadata_found now r line Hnow Hline) as [Hi Hf].
    rewrite Hi in H. cbn in H.
    assert (Hc : carries (ReplaceAllString comment_re line [] ++ str " "
                           ++ block4 (Nanoid.MustGenerate r) (str "0") (GoTime.Format now) true)
                   (Nanoid.MustGenerate r) (str "0") (GoTime.Format now) (str "true"))
      by (do 3 eexists; exact Hf).
    assert (Hl1 : newline_free (ReplaceAllString comment_re line [] ++ str " "
                           ++ block4 (Nanoid.MustGenerate r) (str "0") (GoTime.Format now) true)).
    { apply newline_free_app. split.
      - apply replace_all_newline_free; [reflexivity|exact Hline].
      - apply newline_free_app. split; [reflexivity|].
        rewrite block4_canonical.
        destruct (MustGenerate_shape r) as (x & id1 & Hid & _ & Hal).
        apply canonical_newline_free.
        + rewrite Hid. apply alnum_dot, Hal.
        + exists 48%N. split; reflexivity.
        + apply Format_is_date, Hnow.
        + right; left; reflexivity. }
    destruct (fresh_id_spec now ids _ _ _ _ _ _ _ _ _ Hc Hl1 H) as (Hs & Hc' & Hl' & _).
    split; [exact Hs|]. split; [eauto|]. split; [exact Hl'|].
    intros id0 box0 due0 en0 (p0 & w0 & q0 & F0). rewrite Hnone in F0. discriminate F0.
Qed.
Lemma seen_insert (ids : gmap gostring bool) (id x : gostring) :
  seen (<[id := true]> ids) x = false -> x <> id /\ seen ids x = false.
Proof.
  unfold seen. intros H. destruct (decide (x = id)) as [->|Hne].
  - rewrite lookup_insert_eq in H. discriminate H.
  - rewrite lookup_insert_ne in H by congruence. auto.
Qed.

Lemma header_ids_cons (l : gostring) (ls : list gostring) :
  header_ids (l :: ls)
  = (if is_card_header l then [id_of l] else []) ++ header_ids ls.
Proof.
  unfold header_ids. rewrite filter_cons.
  destruct (is_card_header l) eqn:E.
  - rewrite decide_True by reflexivity. reflexivity.
  - rewrite decide_False by discriminate. reflexivity.
Qed.

(** The first loop of [OpenFile]. *)
Lemma normalize_spec (now : GoTime.Time) :
  clock_ok now = true ->
  forall (lines : list gostring) (tape : list N) (ids : gmap gostring bool)
         (out : list gostring),
    Forall newline_free lines ->
    normalize now tape ids lines = Some out ->
    Forall2 normalized lines out
    /\ Forall newline_free out
    /\ NoDup (header_ids out)
    /\ (forall id, id ∈ header_ids out -> seen ids id = false).
Proof.
  intros Hnow. induction lines as [|l lines IH]; intros tape ids out Hnf H; cbn [normalize] in H.
  - inversion H; subst. repeat split; try constructor. intros id Hid. inversion Hid.
  - inversion Hnf as [|? ? Hl Hls]; subst.
    destruct (is_card_header l) eqn:Hh.
    + destruct (normalize_header now tape ids l) as [[[l' id'] tape']|] eqn:Hn; [|discriminate H].
      destruct (normalize now tape' (<[id' := true]> ids) lines) as [out'|] eqn:Ho;
        [|discriminate H].
      inversion H; subst out. clear H.
      destruct (normalize_header_spec _ _ _ _ _ _ _ Hnow Hl Hn) as (Hs & (b & d & e & Hc) & Hl' & Hkeep).
      destruct (IH _ _ _ Hls Ho) as (HF & HN & HD & HU).
      pose proof (carries_id_of _ _ _ _ _ Hc) as Hid.
      split; [|split; [|split]].
      * constructor; [|exact HF]. unfold normalized. rewrite Hh, Hid. split; [eauto|].
        intros id0 b0 d0 e0 Hc0. apply (Hkeep _ _ _ _ Hc0).
      * constructor; assumption.
      * rewrite header_ids_cons. destruct (is_card_header l'); [|exact HD].
        simpl. constructor; [|exact HD]. rewrite Hid. intros Hin.
        apply HU, seen_insert in Hin. tauto.
      * intros id. rewrite header_ids_cons. intros Hin.
        apply elem_of_app in Hin as [Hin|Hin].
        -- destruct (is_card_header l'); [|inversion Hin].
           apply list_elem_of_singleton in Hin. subst id. rewrite Hid. exact Hs.
        -- apply HU, seen_insert in Hin. tauto.
    + destruct (normalize now tape ids lines) as [out'|] eqn:Ho; [|discriminate H].
      inversion H; subst out. clear H.
      destruct (IH _ _ _ Hls Ho) as (HF & HN & HD & HU).
      split; [|split; [|split]].
      * constructor; [|exact HF]. unfold normalized. rewrite Hh. reflexivity.
      * constructor; assumption.
      * rewrite header_ids_cons, Hh. exact HD.
      * intros id. rewrite header_ids_cons, Hh. apply HU.
Qed.

Lemma dropCR_newline_free (s : gostring) :
  newline_free s -> newline_free (Bufio.dropCR s).
Proof.
  intros H. unfold Bufio.dropCR. destruct (rev s) as [|c r] eqn:E; [exact H|].
  destruct (c =? Bufio.CR)%N; [|exact H].
  assert (Hs : s = rev r ++ [c]).
  { rewrite <- (rev_involutive s), E. reflexivity. }
  rewrite Hs in H. apply newline_free_app in H. tauto.
Qed.

Lemma split_lines_newline_free :
  forall s cur, newline_free cur -> Forall newline_free (Bufio.split_lines cur s).
Proof.
  induction s as [|c s IH]; intros cur Hcur; cbn [Bufio.split_lines].
  - destruct cur; repeat constructor. exact Hcur.
  - destruct (N.eqb_spec c Bufio.LF) as [->|Hne].
    + constructor; [exact Hcur|]. apply IH. reflexivity.
    + apply IH. apply newline_free_app. split; [exact Hcur|].
      unfold newline_free, dot. cbn [forallb]. unfold Bufio.LF in Hne.
      destruct (N.eqb_spec c 10); [contradiction|reflexivity].
Qed.

Lemma ScanLines_newline_free (content : gostring) :
  Forall newline_free (Bufio.ScanLines content).
Proof.
  unfold Bufio.ScanLines. apply Forall_fmap.
  eapply Forall_impl; [apply split_lines_newline_free; reflexivity|].
  intros l Hl. apply dropCR_newline_free, Hl.
Qed.
Lemma category_not_header (l : gostring) :
  GoStrings.HasPrefix l (str "# ") = true -> is_card_header l = false.
Proof.
  change (str "# ") with [35; 32]%N. unfold is_card_header.
  change (str "## ") with [35; 35; 32]%N. change (str "### ") with [35; 35; 35; 32]%N.
  change (str "#### ") with [35; 35; 35; 35; 32]%N.
  intros H. destruct l as [|a [|b l]]; cbn [GoStrings.HasPrefix] in *;
    try discriminate H; try (rewrite andb_false_r in H; discriminate H).
  apply andb_true_iff in H as [_ H]. apply andb_true_iff in H as [H _].
  apply N.eqb_eq in H. subst b. cbn. rewrite !andb_false_r. reflexivity.
Qed.

Lemma getCardFromLine_Id (l category : gostring) (card : Card) :
  getCardFromLine l category = Some card -> Id card = id_of l.
Proof.
  unfold getCardFromLine, id_of. destruct (getMetadata l) as [[[id box] due] en].
  destruct (Strconv.Atoi box); [|discriminate].
  destruct (GoTime.Parse due); [|discriminate].
  cbn. intros H. inversion H. reflexivity.
Qed.

Lemma from_header_with_back (c : Card) (l back : gostring) :
  from_header c l -> from_header (with_back c back) l.
Proof.
  intros (category & c0 & b0 & Hc & ->). exists category, c0, back.
  split; [exact Hc|]. reflexivity.
Qed.

Lemma from_header_Id (c : Card) (l : gostring) : from_header c l -> Id c = id_of l.
Proof.
  intros (category & c0 & b0 & Hc & ->). cbn. eapply getCardFromLine_Id, Hc.
Qed.

Lemma header_lines_cons (l : gostring) (ls : list gostring) :
  header_lines (l :: ls) = (if is_card_header l then [l] else []) ++ header_lines ls.
Proof.
  unfold header_lines. rewrite filter_cons.
  destruct (is_card_header l) eqn:E.
  - rewrite decide_True by reflexivity. reflexivity.
  - rewrite decide_False by discriminate. reflexivity.
Qed.

Lemma header_ids_lines (lines : list gostring) :
  header_ids lines = map id_of (header_lines lines).
Proof. reflexivity. Qed.

Lemma flush_pending_inv (st : extractor) (hl : list gostring) :
  extractor_inv st hl ->
  (exists hs, hs `sublist_of` hl /\ Forall2 from_header (collected (flush_pending st)) hs)
  /\ pending (flush_pending st) = false
  /\ currentCategory (flush_pending st) = currentCategory st.
Proof.
  unfold extractor_inv, flush_pending. intros H.
  destruct (pending st) eqn:Hp.
  - cbn [appendCard collected currentCategory]. split; [|split; reflexivity].
    destruct (readBack st).
    + destruct H as (hl0 & l & -> & Hl & hs & Hsub & HF).
      exists (hs ++ [l]). split; [apply sublist_app; [exact Hsub|reflexivity]|].
      apply Forall2_app; [exact HF|]. constructor; [|constructor].
      apply from_header_with_back, Hl.
    + destruct H as [H _]. discriminate H.
  - split; [|split; [exact Hp|reflexivity]].
    destruct (readBack st).
    + destruct H as (hl0 & l & -> & Hl & hs & Hsub & HF).
      exists hs. split; [apply sublist_inserts_r; exact Hsub|exact HF].
    + tauto.
Qed.

Lemma extract_line_inv (st st' : extractor) (l : gostring) (hl : list gostring) :
  extractor_inv st hl -> extract_line st l = Some st' ->
  extractor_inv st' (hl ++ header_lines [l]).
Proof.
  intros Hinv H. unfold extract_line in H.
  destruct (GoStrings.HasPrefix l (str "# ")) eqn:Hcat.
  - rewrite header_lines_cons, (category_not_header _ Hcat). cbn [app header_lines filter].
    rewrite app_nil_r. inversion H; subst st'. clear H.
    destruct (flush_pending_inv _ _ Hinv) as (Hsub & Hp & _).
    unfold extractor_inv. cbn [readBack collected]. split; [|exact Hsub].
    unfold pending in *. exact Hp.
  - destruct (is_card_header l) eqn:Hh.
    + rewrite header_lines_cons, Hh. cbn [app header_lines filter].
      destruct (flush_pending_inv _ _ Hinv) as (Hsub & Hp & _).
      destruct (getCardFromLine l (currentCategory (flush_pending st))) as [card|] eqn:Hc;
        [|discriminate H].
      cbn in H. inversion H; subst st'. clear H.
      unfold extractor_inv. cbn [readBack collected currentCard].
      exists hl, l. split; [reflexivity|]. split; [|exact Hsub].
      exists (currentCategory (flush_pending st)), card, (Back card).
      split; [exact Hc|]. destruct card; reflexivity.
    + rewrite header_lines_cons, Hh. cbn [app header_lines filter]. rewrite app_nil_r.
      destruct (readBack st) eqn:Hr.
      * inversion H; subst st'. clear H. unfold extractor_inv in *.
        rewrite Hr in Hinv. cbn [readBack collected currentCard].
        destruct Hinv as (hl0 & l1 & -> & Hl & Hrest).
        exists hl0, l1. split; [reflexivity|]. split; [|exact Hrest].
        apply from_header_with_back, Hl.
      * inversion H; subst st'. exact Hinv.
Qed.

Lemma extract_lines_inv :
  forall (lines : list gostring) (st st' : extractor) (hl : list gostring),
    extractor_inv st hl -> extract_lines st lines = Some st' ->
    extractor_inv st' (hl ++ header_lines lines).
Proof.
  induction lines as [|l lines IH]; intros st st' hl Hinv H; cbn [extract_lines] in H.
  - inversion H; subst. unfold header_lines. cbn. rewrite app_nil_r. exact Hinv.
  - destruct (extract_line st l) as [st1|] eqn:E; [|discriminate H].
    pose proof (extract_line_inv _ _ _ _ Hinv E) as H1.
    pose proof (IH _ _ _ H1 H) as H2.
    rewrite header_lines_cons. rewrite header_lines_cons in H2.
    cbn [header_lines filter] in H2. rewrite app_nil_r in H2.
    rewrite app_assoc. exact H2.
Qed.

(** Every card of the second loop was built from a card header of the
    lines, and the cards come in the order of their headers. *)
Lemma extract_from_headers (lines : list gostring) (cards : list Card) :
  extract lines = Some cards ->
  exists hs, hs `sublist_of` header_lines lines /\ Forall2 from_header cards hs.
Proof.
  unfold extract. intros H.
  destruct (extract_lines (mkExtractor emptyCard [] false []) lines) as [st|] eqn:E;
    [|discriminate H].
  cbn in H. inversion H; subst cards. clear H.
  assert (H0 : extractor_inv (mkExtractor emptyCard [] false []) []).
  { unfold extractor_inv. cbn. split; [reflexivity|].
    exists []. split; constructor. }
  pose proof (extract_lines_inv _ _ _ _ H0 E) as Hinv. cbn [app] in Hinv.
  unfold extractor_inv in Hinv. destruct (readBack st).
  - destruct Hinv as (hl0 & l & -> & Hl & hs & Hsub & HF). cbn [appendCard collected].
    exists (hs ++ [l]). split; [apply sublist_app; [exact Hsub|reflexivity]|].
    apply Forall2_app; [exact HF|]. constructor; [|constructor].
    apply from_header_with_back, Hl.
  - tauto.
Qed.

Lemma sublist_map {A B : Type} (f : A -> B) (l k : list A) :
  l `sublist_of` k -> map f l `sublist_of` map f k.
Proof. induction 1; cbn; constructor; assumption. Qed.

Lemma extract_sublist (lines : list gostring) (cards : list Card) :
  extract lines = Some cards -> map Id cards `sublist_of` header_ids lines.
Proof.
  intros H. apply extract_from_headers in H as (hs & Hsub & HF).
  replace (map Id cards) with (map id_of hs).
  - rewrite header_ids_lines. apply sublist_map, Hsub.
  - clear Hsub. induction HF as [|c l cs ls Hcl _ IH]; [reflexivity|].
    cbn. rewrite IH, (from_header_Id _ _ Hcl). reflexivity.
Qed.

(** A successful load: the file was read, rewritten and parsed. *)
Lemma OpenFile_success (Abs : gostring -> gostring) (boxIntervals : list Z)
    (now : GoTime.Time) (tape : list N) (fs : gmap gostring gostring)
    (s s' : Session) (path : gostring) :
  (OpenFile Abs boxIntervals now tape fs s path).2 = Returned (s', None) ->
  exists content lines,
    fs !! Abs path = Some content
    /\ normalize now tape ∅ (Bufio.ScanLines content) = Some lines
    /\ (OpenFile Abs boxIntervals now tape fs s path).1
       = <[Abs path := GoStrings.Join lines [Bufio.LF]]> fs
    /\ extract lines = Some (Cards (SFile s'))
    /\ Cards (SFile s') <> [].
Proof.
  unfold OpenFile. intros H.
  destruct (bool_decide (path = [])); [discriminate H|].
  destruct (bool_decide (Abs path = [])); [discriminate H|].
  destruct (fs !! Abs path) as [content|] eqn:Hfs; [|discriminate H].
  destruct (normalize now tape ∅ (Bufio.ScanLines content)) as [lines|] eqn:Hn;
    [|discriminate H].
  destruct (extract lines) as [cards|] eqn:He; [|discriminate H].
  cbn in H. destruct cards as [|c cards]; [discriminate H|].
  inversion H; subst. exists content, lines. cbn. auto 10.
Qed.

(** C1. After [OpenFile] returns successfully, the identifiers of the cards
    of the session are pairwise distinct, whatever metadata the file held
    (duplicated or hand-edited blocks included).  The clock is one the
    program can format as [YYYY-MM-DD]. *)
Theorem C1_card_ids_distinct (Abs : gostring -> gostring) (boxIntervals : list Z)
    (now : GoTime.Time) (tape : list N) (fs : gmap gostring gostring)
    (s s' : Session) (path : gostring) :
  clock_ok now = true ->
  (OpenFile Abs boxIntervals now tape fs s path).2 = Returned (s', None) ->
  NoDup (map Id (Cards (SFile s'))).
Proof.
  intros Hnow H. apply OpenFile_success in H as (content & lines & _ & Hn & _ & He & _).
  destruct (normalize_spec now Hnow _ _ _ _ (ScanLines_newline_free content) Hn)
    as (_ & _ & Hnd & _).
  eapply sublist_NoDup; [exact Hnd|]. apply extract_sublist, He.
Qed.

Lemma C1_card_ids_distinct_witness :
  NoDup (map Id (Cards (SFile (session_after
    (OpenFile id [] sample_now [7; 8; 9]%N fs_dupl empty_session sample_path))))).
Proof.
  apply (C1_card_ids_distinct id [] sample_now [7; 8; 9]%N fs_dupl empty_session _
           sample_path).
  - reflexivity.
  - vm_compute. reflexivity.
Defined.

Lemma block3_canonical (id box due : gostring) :
  comment_text [] id box due [] [] = block3 id box due.
Proof. reflexivity. Qed.

Lemma getMetadata_carries (line id box due : gostring) (enabled : bool) :
  getMetadata line = (id, box, due, enabled) -> id <> [] ->
  exists en, carries line id box due en /\ flag_value en = enabled.
Proof.
  intros H Hid. destruct (find_metadata_cases line) as [(i & b & d & e & Hc)|Hnone].
  - rewrite (carries_getMetadata _ _ _ _ _ Hc) in H. inversion H; subst. eauto.
  - rewrite (getMetadata_not_found _ Hnone) in H. inversion H; subst. congruence.
Qed.

(** C4. A line whose metadata block is the three-field legacy form decodes
    with enabled = true; [generateNewId] replaces the block by the
    three-field block with the new identifier and the same box and due texts
    (no enabled field is added), and when the block is written without blanks
    and is the only one of the line, nothing but the identifier changes.
    On any line that already carries metadata, [generateNewId] leaves box,
    due and enabled as they were. *)
Theorem C4_reassignment_keeps_schedule (now : GoTime.Time) (r : N) :
  (forall line pre w id box due post,
     find metadata_re line = Some (pre, [w; id; box; due; []], post) ->
     getMetadata line = (id, box, due, true)
     /\ exists post',
          generateNewId now r line
            = (pre ++ block3 (Nanoid.MustGenerate r) box due ++ post', Nanoid.MustGenerate r)
          /\ getMetadata (pre ++ block3 (Nanoid.MustGenerate r) box due ++ post')
             = (Nanoid.MustGenerate r, box, due, true)
          /\ (w = block3 id box due ->
              (forall i, match_here metadata_re (drop i post) = None) ->
              line = pre ++ block3 id box due ++ post /\ post' = post))
  /\ (forall line id box due enabled,
        getMetadata line = (id, box, due, enabled) -> id <> [] ->
        getMetadata (generateNewId now r line).1
        = (Nanoid.MustGenerate r, box, due, enabled)).
Proof.
  split.
  - intros line pre w id box due post H.
    split; [exact (getMetadata_found _ _ _ _ _ _ _ _ H)|].
    destruct (generateNewId_found now r _ _ _ _ _ _ _ _ H) as [Hg Hf].
    rewrite block3_canonical in Hg, Hf.
    eexists. split; [exact Hg|]. split.
    + exact (getMetadata_found _ _ _ _ _ _ _ _ Hf).
    + intros Hw Hpost. split.
      * apply find_metadata in H as (w0 & ? & ? & ? & ? & Hl & _ & Hc & _).
        inversion Hc; subst; first [reflexivity | assumption].
      * apply replace_all_none, Hpost.
  - intros line id box due enabled H Hid.
    apply getMetadata_carries in H as (en & (pre & w & post & H) & <-); [|exact Hid].
    destruct (generateNewId_found now r _ _ _ _ _ _ _ _ H) as [Hg Hf].
    rewrite Hg. cbn [fst]. exact (getMetadata_found _ _ _ _ _ _ _ _ Hf).
Qed.

Lemma C4_reassignment_keeps_schedule_witness :
  getMetadata legacy_line = (str "abcd", str "2", str "2025-01-01", true)
  /\ generateNewId sample_now 7 legacy_line
     = (str "## What is a rune? <!--0007;2;2025-01-01-->", str "0007")
  /\ getMetadata (generateNewId sample_now 7 legacy_line).1
     = (str "0007", str "2", str "2025-01-01", true).
Proof.
  destruct (C4_reassignment_keeps_schedule sample_now 7) as [H1 H2].
  destruct (H1 legacy_line (str "## What is a rune? ") (str "<!--abcd;2;2025-01-01-->")
              (str "abcd") (str "2") (str "2025-01-01") [] ltac:(vm_compute; reflexivity))
    as (Hd & post' & Hg & _ & _).
  split; [exact Hd|]. split; [vm_compute; reflexivity|].
  apply (H2 legacy_line (str "abcd") (str "2") (str "2025-01-01") true Hd).
  discriminate.
Defined.
Lemma fresh_id_unseen (now : GoTime.Time) (tape : list N) (ids : gmap gostring bool)
    (line id : gostring) :
  seen ids id = false -> fresh_id now tape ids line id = Some (line, id, tape).
Proof. intros H. destruct tape; cbn [fresh_id]; rewrite H; reflexivity. Qed.





Lemma from_header_fields (c : Card) (l id box due en : gostring) (n : Z) (t : GoTime.Time) :
  from_header c l -> carries l id box due en ->
  Strconv.Atoi box = Some n -> GoTime.Parse due = Some t ->
  Id c = id /\ Box c = uint_of_int n /\ Due c = t /\ Enabled c = flag_value en.
Proof.
  intros (category & c0 & back & Hc & ->) Hcar Hn Ht.
  unfold getCardFromLine in Hc. rewrite (carries_getMetadata _ _ _ _ _ Hcar) in Hc.
  rewrite Hn, Ht in Hc. cbn in Hc. inversion Hc; subst c0. cbn. auto.
Qed.



(** C7, as stated, fails: a block whose identifier has characters outside
    [0-9A-Za-z] is decoded all the same. *)
Lemma C7_counterexample :
  ~ (forall line id box due enabled,
       getMetadata line = (id, box, due, enabled) -> id <> [] ->
       length id = 4 /\ forallb is_alnum id = true
       /\ exists b, box = [b] /\ digit b = true).
Proof.
  intros H.
  destruct (H (str "## Q <!--a-b_;1;2030-01-01-->") (str "a-b_") (str "1")
              (str "2030-01-01") true ltac:(vm_compute; reflexivity) ltac:(discriminate))
    as (_ & Hal & _).
  vm_compute in Hal. discriminate Hal.
Qed.

Lemma no_lt_no_match (s : gostring) :
  Forall (fun c => c <> 60%N) s -> forall i, match_here metadata_re (drop i s) = None.
Proof.
  intros Hs i.
  destruct (match_here metadata_re (drop i s)) as [[caps rest]|] eqn:E; [exfalso|reflexivity].
  apply match_here_metadata in E as (w & id & box & due & en & Heq & Hw & _).
  apply metadata_word_prefix in Hw as (w2 & ->).
  assert (Hin : 60%N ∈ s).
  { rewrite <- (take_drop i s), Heq. apply elem_of_app. right.
    change (str "<!--") with [60; 33; 45; 45]%N. cbn. left. }
  rewrite List.Forall_forall in Hs. apply (Hs 60%N); [|reflexivity].
  apply list_elem_of_In, Hin.
Qed.

(** C7, amended. [getMetadata] returns an identifier only for a line that
    contains a block [<!--], blanks, four characters other than a newline,
    [;], one digit, [;], a date, an optional [;true] or [;false], blanks,
    [-->]; the identifier and the box it returns are those four characters
    and that digit.  A block with an alphanumeric identifier and a box of two
    or more digits is not decoded. *)
Theorem C7_decoder_grammar :
  (forall line id box due enabled,
     getMetadata line = (id, box, due, enabled) -> id <> [] ->
     length id = 4 /\ forallb dot id = true
     /\ (exists b, box = [b] /\ digit b = true)
     /\ exists pre w en post,
          line = pre ++ w ++ post /\ metadata_word w id box due en
          /\ enabled = flag_value en)
  /\ (forall id box due en,
        length id = 4 -> forallb is_alnum id = true ->
        forallb digit box = true -> 2 <= length box ->
        is_date due = true -> (en = [] \/ en = str "true" \/ en = str "false") ->
        getMetadata (str "<!--" ++ id ++ [59%N] ++ box ++ [59%N] ++ due
                       ++ flag_suffix en ++ str "-->")
        = ([], [], [], true)).
Proof.
  split.
  - intros line id box due enabled H Hid.
    apply getMetadata_carries in H as (en & Hc & <-); [|exact Hid].
    destruct (carries_fields _ _ _ _ _ Hc) as (Hlen & Hdot & Hbox & _).
    do 3 (split; [assumption|]).
    destruct Hc as (pre & w & post & F).
    apply find_metadata in F as (w0 & ? & ? & ? & ? & Hl & Hw & Hcaps & _).
    inversion Hcaps; subst. do 4 eexists.
    split; [reflexivity|]. split; [eassumption|reflexivity].
  - intros id box due en Hlen Hal Hbox Hlb Hdue Hen.
    apply getMetadata_not_found.
    set (tail := id ++ [59%N] ++ box ++ [59%N] ++ due ++ flag_suffix en ++ str "-->").
    assert (Htail : Forall (fun c => c <> 60%N) ([33; 45; 45]%N ++ tail)).
    { unfold tail. repeat apply Forall_app_2.
      - repeat constructor; lia.
      - eapply forallb_Forall_ne; [|exact Hal]. intros c Hc. apply alnum_facts in Hc. tauto.
      - repeat constructor; lia.
      - eapply forallb_Forall_ne; [apply digit_not_lt|exact Hbox].
      - repeat constructor; lia.
      - apply is_date_no_lt, Hdue.
      - destruct Hen as [->|[->| ->]]; cbn; repeat constructor; lia.
      - cbn. repeat constructor; lia. }
    destruct (find metadata_re (str "<!--" ++ tail)) as [[[pre caps] post]|] eqn:F;
      [exfalso|reflexivity].
    apply find_Some in F as (w & Heq & Hm & _).
    destruct pre as [|x pre].
    + apply match_here_metadata in Hm as (w' & id' & box' & due' & en' & Hw & Hword & _).
      apply app_inv_tail in Hw. subst w'. cbn [app] in Heq.
      destruct Hword as (ws & ws' & -> & Hws & _ & Hlen' & _ & (b & -> & Hb) & _).
      unfold comment_text, tail in Heq. rewrite <- !app_assoc in Heq.
      apply app_inv_head in Heq.
      do 4 (destruct id as [|? id]; [discriminate Hlen|]).
      destruct id; [|discriminate Hlen].
      destruct ws as [|y ws].
      * do 4 (destruct id' as [|? id']; [discriminate Hlen'|]).
        destruct id'; [|discriminate Hlen'].
        destruct box as [|b1 [|b2 box]]; cbn in Hlb; try lia.
        cbn in Heq. inversion Heq; subst.
        cbn in Hbox. unfold digit in Hbox. lia.
      * cbn in Heq. inversion Heq; subst. cbn in Hws, Hal.
        apply andb_true_iff in Hws as [Hy _]. apply andb_true_iff in Hal as [Hy' _].
        apply alnum_facts in Hy'. destruct Hy' as [Hy' _]. congruence.
    + change (str "<!--" ++ tail) with (60%N :: [33; 45; 45]%N ++ tail) in Heq.
      inversion Heq as [[Hx Heq']].
      pose proof (no_lt_no_match _ Htail (length pre)) as Hno.
      cbn [app] in Hno. rewrite Heq', drop_app_length in Hno.
      rewrite Hno in Hm. discriminate Hm.
Qed.

Lemma C7_decoder_grammar_witness :
  (length (str "a-b_") = 4 /\ forallb dot (str "a-b_") = true)
  /\ getMetadata (str "<!--abcd;12;2030-01-01-->") = ([], [], [], true).
Proof.
  destruct C7_decoder_grammar as [H1 H2]. split.
  - destruct (H1 (str "## Q <!--a-b_;1;2030-01-01-->") (str "a-b_") (str "1")
                (str "2030-01-01") true ltac:(vm_compute; reflexivity) ltac:(discriminate))
      as (Hl & Hd & _).
    split; assumption.
  - apply (H2 (str "abcd") (str "12") (str "2030-01-01") []);
      first [reflexivity | (cbn; lia) | (left; reflexivity)].
Defined.

Lemma Equal_eq (t u : GoTime.Time) : GoTime.Equal t u = true <-> t = u.
Proof.
  destruct t as [y m d n], u as [y' m' d' n']. unfold GoTime.Equal. cbn. split.
  - intros H. assert (y = y' /\ m = m' /\ d = d' /\ n = n') as (-> & -> & -> & ->) by lia.
    reflexivity.
  - intros H. inversion H; subst. lia.
Qed.

Lemma Before_total (t u : GoTime.Time) :
  GoTime.Before t u = false -> GoTime.Equal t u = false -> GoTime.Before u t = true.
Proof.
  destruct t as [y m d n], u as [y' m' d' n']. unfold GoTime.Before, GoTime.Equal. cbn. lia.
Qed.

Lemma Before_asym (t u : GoTime.Time) :
  GoTime.Before t u = true -> GoTime.Before u t = false /\ GoTime.Equal u t = false.
Proof.
  destruct t as [y m d n], u as [y' m' d' n']. unfold GoTime.Before, GoTime.Equal. cbn. lia.
Qed.

Lemma Before_trans_le (t u v : GoTime.Time) :
  GoTime.Before t u = false -> GoTime.Before u v = false -> GoTime.Before t v = false.
Proof.
  destruct t as [y m d n], u as [y' m' d' n'], v as [y2 m2 d2 n2].
  unfold GoTime.Before. cbn. lia.
Qed.

Lemma Before_irrefl (t : GoTime.Time) : GoTime.Before t t = false.
Proof. destruct t. unfold GoTime.Before. cbn. lia. Qed.

Lemma closest_fold_None (today : GoTime.Time) (cards : list Card) :
  foldl (closest_step today) None cards = None.
Proof. induction cards as [|c cards IH]; [reflexivity|exact IH]. Qed.

Lemma closest_fold_overdue (today : GoTime.Time) (cards : list Card) :
  Exists (fun c => overdue today c = true) cards ->
  forall acc, foldl (closest_step today) acc cards = None.
Proof.
  induction 1 as [c cards Hc|c cards _ IH]; intros acc; cbn [foldl].
  - destruct acc as [m|]; cbn; [|apply closest_fold_None].
    unfold overdue in Hc. rewrite Hc. apply closest_fold_None.
  - apply IH.
Qed.

(** The loop of [FindClosestDate] over cards that are all due after today:
    the accumulator is the earliest due date so far. *)
Lemma closest_fold_min (today : GoTime.Time) :
  GoTime.Before today GoTime.zero = false ->
  forall (cards : list Card) (m : GoTime.Time),
    Forall (fun c => overdue today c = false) cards ->
    m = GoTime.zero \/ GoTime.Before today m = true ->
    exists t, foldl (closest_step today) (Some m) cards = Some t
      /\ (t = m \/ t ∈ map Due cards)
      /\ (m = GoTime.zero -> cards <> [] -> t ∈ map Due cards)
      /\ Forall (fun c => GoTime.Before (Due c) t = false) cards
      /\ (m <> GoTime.zero -> GoTime.Before m t = false).
Proof.
  intros Hz. induction cards as [|c cards IH]; intros m Hall Hm; cbn [foldl].
  - exists m. split; [reflexivity|]. split; [left; reflexivity|].
    split; [intros _ H; congruence|]. split; [constructor|].
    intros _. apply Before_irrefl.
  - inversion Hall as [|? ? Hc Hrest]; subst. unfold closest_step at 2. cbn.
    unfold overdue in Hc. rewrite Hc.
    apply orb_false_iff in Hc as [Hc1 Hc2].
    pose proof (Before_total _ _ Hc1 Hc2) as Hlate.
    assert (Hcz : Due c <> GoTime.zero).
    { intros E. rewrite E in Hlate. congruence. }
    destruct (GoTime.IsZero m || GoTime.Before (Due c) m) eqn:Hpick.
    + destruct (IH (Due c) Hrest (or_intror Hlate)) as (t & Hf & Hin & _ & Hmin & Hle).
      exists t. split; [exact Hf|]. specialize (Hle Hcz).
      assert (Hint : t ∈ map Due (c :: cards)).
      { destruct Hin as [->|Hin]; [left|right; exact Hin]. }
      split; [right; exact Hint|]. split; [intros _ _; exact Hint|].
      split; [constructor; assumption|].
      intros Hmz. apply orb_true_iff in Hpick as [Hpick|Hpick].
      * apply Equal_eq in Hpick. contradiction.
      * apply Before_asym in Hpick as [Hpick _].
        eapply Before_trans_le; eassumption.
    + apply orb_false_iff in Hpick as [Hnz Hge].
      assert (Hmz : m <> GoTime.zero).
      { intros E. subst m. unfold GoTime.IsZero in Hnz.
        assert (GoTime.Equal GoTime.zero GoTime.zero = true) by (apply Equal_eq; reflexivity).
        congruence. }
      assert (Hm' : GoTime.Before today m = true) by tauto.
      destruct (IH m Hrest (or_intror Hm')) as (t & Hf & Hin & _ & Hmin & Hle).
      exists t. split; [exact Hf|]. specialize (Hle Hmz).
      split; [destruct Hin as [->|Hin]; [left; reflexivity|right; right; exact Hin]|].
      split; [intros E; contradiction|].
      split; [|intros _; exact Hle].
      constructor; [|exact Hmin]. eapply Before_trans_le; eassumption.
Qed.

(** C5. [FindClosestDate], today being the date of the clock at midnight
    (and not earlier than the zero time): if some card is due today or
    before, the result is the zero time with the error; otherwise it is the
    earliest due date of the list, without error, and the zero time when the
    list is empty.  One card due today gives the error; one card due later
    gives its date. *)
Theorem C5_FindClosestDate (now : GoTime.Time) (cards : list Card) :
  GoTime.Before (today_of now) GoTime.zero = false ->
  (Exists (fun c => overdue (today_of now) c = true) cards ->
   FindClosestDate now cards = (GoTime.zero, Some OverdueFound))
  /\ (Forall (fun c => overdue (today_of now) c = false) cards ->
      exists t, FindClosestDate now cards = (t, None)
        /\ (cards = [] -> t = GoTime.zero)
        /\ (cards <> [] -> t ∈ map Due cards)
        /\ Forall (fun c => GoTime.Before (Due c) t = false) cards)
  /\ (forall c, Due c = today_of now ->
        FindClosestDate now [c] = (GoTime.zero, Some OverdueFound))
  /\ (forall c, GoTime.Before (today_of now) (Due c) = true ->
        FindClosestDate now [c] = (Due c, None)).
Proof.
  intros Hz. unfold FindClosestDate. fold (today_of now).
  assert (Hover : forall cs, Exists (fun c => overdue (today_of now) c = true) cs ->
            match foldl (closest_step (today_of now)) (Some GoTime.zero) cs with
            | Some closestDate => (closestDate, None)
            | None => (GoTime.zero, Some OverdueFound)
            end = (GoTime.zero, Some OverdueFound)).
  { intros cs H. rewrite (closest_fold_overdue _ _ H). reflexivity. }
  assert (Hfine : forall cs, Forall (fun c => overdue (today_of now) c = false) cs ->
            exists t, match foldl (closest_step (today_of now)) (Some GoTime.zero) cs with
                      | Some closestDate => (closestDate, None)
                      | None => (GoTime.zero, Some OverdueFound)
                      end = (t, @None error)
              /\ (cs = [] -> t = GoTime.zero)
              /\ (cs <> [] -> t ∈ map Due cs)
              /\ Forall (fun c => GoTime.Before (Due c) t = false) cs).
  { intros cs H.
    destruct (closest_fold_min _ Hz cs GoTime.zero H (or_introl eq_refl))
      as (t & Hf & Hin & Hne & Hmin & _).
    exists t. rewrite Hf. split; [reflexivity|]. split; [|split; [auto|exact Hmin]].
    intros ->. cbn in Hf. inversion Hf. reflexivity. }
  split; [apply Hover|]. split; [apply Hfine|]. split.
  - intros c Hc. apply Hover. constructor. unfold overdue. rewrite Hc.
    assert (GoTime.Equal (today_of now) (today_of now) = true) as -> by (apply Equal_eq; reflexivity).
    apply orb_true_r.
  - intros c Hc.
    assert (Hall : Forall (fun c => overdue (today_of now) c = false) [c]).
    { constructor; [|constructor]. unfold overdue. apply Before_asym in Hc as [-> ->]. reflexivity. }
    destruct (Hfine [c] Hall) as (t & Hf & _ & Hin & _).
    rewrite Hf. specialize (Hin ltac:(discriminate)). cbn in Hin.
    apply list_elem_of_singleton in Hin. subst t. reflexivity.
Qed.

Lemma C5_FindClosestDate_witness :
  FindClosestDate sample_now [card_due (GoTime.Date 2026 10 31)]
    = (GoTime.zero, Some OverdueFound)
  /\ FindClosestDate sample_now [card_due (GoTime.Date 2026 11 1)]
     = (GoTime.Date 2026 11 1, None)
  /\ FindClosestDate sample_now
       [card_due (GoTime.Date 2026 12 24); card_due (GoTime.Date 2026 11 1)]
     = (GoTime.Date 2026 11 1, None).
Proof.
  split; [|split].
  - apply (C5_FindClosestDate sample_now [] eq_refl). reflexivity.
  - apply (C5_FindClosestDate sample_now [] eq_refl). reflexivity.
  - destruct (C5_FindClosestDate sample_now
                [card_due (GoTime.Date 2026 12 24); card_due (GoTime.Date 2026 11 1)]
                eq_refl) as (_ & H & _).
    destruct (H ltac:(repeat constructor)) as (t & Hf & _). vm_compute. reflexivity.
Defined.
Lemma extract_lines_app :
  forall (a b : list gostring) (st : extractor),
    extract_lines st (a ++ b)
    = match extract_lines st a with
      | Some st1 => extract_lines st1 b
      | None => None
      end.
Proof.
  induction a as [|l a IH]; intros b st; cbn [app extract_lines]; [reflexivity|].
  destruct (extract_line st l); [apply IH|reflexivity].
Qed.


Lemma OpenFile_written (Abs : gostring -> gostring) (boxIntervals : list Z)
    (now : GoTime.Time) (tape : list N) (fs : gmap gostring gostring)
    (s : Session) (path content : gostring) :
  path <> [] -> Abs path <> [] -> fs !! Abs path = Some content ->
  match normalize now tape ∅ (Bufio.ScanLines content) with
  | Some out =>
      (OpenFile Abs boxIntervals now tape fs s path).1
        = <[Abs path := GoStrings.Join out [Bufio.LF]]> fs
      /\ (OpenFile Abs boxIntervals now tape fs s path).2
         = match extract out with
           | Some cards =>
               Returned (mkSession (mkFile (Abs path) boxIntervals cards) (SCategory s),
                         if bool_decide (length cards = 0) then Some NoCardsFound else None)
           | None => Panicked
           end
  | None => OpenFile Abs boxIntervals now tape fs s path = (fs, Starved)
  end.
Proof.
  intros Hp Ha Hfs. unfold OpenFile.
  rewrite (bool_decide_eq_false_2 _ Hp), (bool_decide_eq_false_2 _ Ha), Hfs.
  destruct (normalize now tape ∅ (Bufio.ScanLines content)) as [out|]; [|reflexivity].
  destruct (extract out); split; reflexivity.
Qed.







Lemma split_lines_line (e : gostring) :
  newline_free e ->
  forall cur,
    Bufio.split_lines cur e = match cur ++ e with [] => [] | _ => [cur ++ e] end.
Proof.
  induction e as [|x e IH]; intros He cur; cbn [Bufio.split_lines].
  - rewrite app_nil_r. reflexivity.
  - unfold newline_free in He. cbn [forallb] in He. apply andb_true_iff in He as [Hx He].
    assert (Hne : (x =? Bufio.LF)%N = false).
    { unfold dot in Hx. unfold Bufio.LF. destruct (x =? 10)%N; [discriminate Hx|reflexivity]. }
    rewrite Hne, (IH He), <- app_assoc. reflexivity.
Qed.

Lemma split_lines_break (e X : gostring) :
  newline_free e ->
  forall cur,
    Bufio.split_lines cur (e ++ Bufio.LF :: X) = (cur ++ e) :: Bufio.split_lines [] X.
Proof.
  induction e as [|x e IH]; intros He cur; cbn [app Bufio.split_lines].
  - rewrite N.eqb_refl, app_nil_r. reflexivity.
  - unfold newline_free in He. cbn [forallb] in He. apply andb_true_iff in He as [Hx He].
    assert (Hne : (x =? Bufio.LF)%N = false).
    { unfold dot in Hx. unfold Bufio.LF. destruct (x =? 10)%N; [discriminate Hx|reflexivity]. }
    rewrite Hne, (IH He), <- app_assoc. reflexivity.
Qed.

(** Splitting a joined text gives the lines back, unless the last is empty. *)
Lemma split_lines_Join (out : list gostring) :
  Forall newline_free out -> last out <> Some [] ->
  Bufio.split_lines [] (GoStrings.Join out [Bufio.LF]) = out.
Proof.
  induction out as [|e out IH]; intros Hnf Hlast; [reflexivity|].
  inversion Hnf as [|? ? He Hout]; subst.
  destruct out as [|e2 out].
  - cbn [GoStrings.Join]. rewrite (split_lines_line e He). cbn [app].
    destruct e; [exfalso; apply Hlast; reflexivity|reflexivity].
  - change (GoStrings.Join (e :: e2 :: out) [Bufio.LF])
      with (e ++ Bufio.LF :: GoStrings.Join (e2 :: out) [Bufio.LF]).
    rewrite (split_lines_break _ _ He). cbn [app]. f_equal. apply IH; [exact Hout|].
    exact Hlast.
Qed.

Lemma dropCR_id (l : gostring) : last l <> Some Bufio.CR -> Bufio.dropCR l = l.
Proof.
  intros H. unfold Bufio.dropCR. destruct (rev l) as [|c r] eqn:E; [reflexivity|].
  destruct (N.eqb_spec c Bufio.CR) as [->|]; [|reflexivity].
  exfalso. apply H. rewrite <- (rev_involutive l), E. cbn. apply last_snoc.
Qed.

Lemma map_dropCR_id (ls : list gostring) :
  Forall (fun l => last l <> Some Bufio.CR) ls -> map Bufio.dropCR ls = ls.
Proof.
  induction 1 as [|l ls Hl _ IH]; [reflexivity|]. cbn. rewrite IH, dropCR_id by exact Hl.
  reflexivity.
Qed.


(** A list of lines whose card headers carry metadata with distinct, unseen
    identifiers is left as it is by the first loop, and no identifier is
    drawn. *)
Lemma normalize_fixed (now : GoTime.Time) :
  forall (out : list gostring) (tape : list N) (ids : gmap gostring bool),
    Forall (fun l => is_card_header l = true ->
                     exists box due en, carries l (id_of l) box due en) out ->
    NoDup (header_ids out) ->
    (forall id, id ∈ header_ids out -> seen ids id = false) ->
    normalize now tape ids out = Some out.
Proof.
  induction out as [|l out IH]; intros tape ids Hc Hnd Hun; [reflexivity|].
  inversion Hc as [|? ? Hl Hout]; subst. cbn [normalize].
  rewrite header_ids_cons in Hnd, Hun.
  destruct (is_card_header l) eqn:Hh.
  - destruct (Hl eq_refl) as (box & due & en & Hcar).
    cbn [app] in Hnd, Hun. inversion Hnd as [|? ? Hnotin Hnd']; subst.
    assert (Hnh : normalize_header now tape ids l = Some (l, id_of l, tape)).
    { unfold normalize_header. rewrite (carries_getMetadata _ _ _ _ _ Hcar).
      destruct (carries_fields _ _ _ _ _ Hcar) as (Hlen & _).
      rewrite bool_decide_eq_false_2 by (destruct (id_of l); [discriminate Hlen|discriminate]).
      cbn [mbind option_bind]. apply fresh_id_unseen. apply Hun. left. }
    rewrite Hnh, IH; [reflexivity|exact Hout|exact Hnd'|].
    intros id Hin. unfold seen. rewrite lookup_insert_ne.
    + apply (Hun id). right. exact Hin.
    + intros E. subst id. contradiction.
  - cbn [app] in Hnd, Hun. rewrite IH; [reflexivity|exact Hout|exact Hnd|exact Hun].
Qed.




Lemma strip_shape (line : gostring) :
  newline_free line -> stripped line (ReplaceAllString comment_re line []).
Proof.
  intros Hline. unfold ReplaceAllString.
  destruct (find comment_re line) as [[[pre caps] rest]|] eqn:F.
  - right. pose proof F as F'. apply find_Some in F' as (w & Heq & Hm & Hpre).
    pose proof Hm as Hm'. apply match_here_sound in Hm' as (w' & c' & Hw' & M & _).
    apply app_inv_tail in Hw'. subst w'.
    apply comment_re_shape in M as (ws & b2 & Hw & Hws & Hb2).
    assert (Hrest : ~ contains (str "-->") rest).
    { eapply comment_match_rest; [|exact Hm]. rewrite Heq in Hline.
      apply newline_free_app in Hline as [_ Hline]. exact Hline. }
    exists pre, ws, b2, rest. split; [rewrite Heq, Hw, <- !app_assoc; reflexivity|].
    split; [|split; assumption].
    rewrite Heq at 1. rewrite replace_all_prefix by (intros i Hi; rewrite <- Heq; auto).
    rewrite (replace_all_match _ _ w rest caps);
      [|subst w; destruct ws; discriminate|exact Hm].
    rewrite (replace_all_none _ _ rest) by (apply no_arrow_no_comment_match; exact Hrest).
    reflexivity.
  - left. split; [|apply replace_all_none, find_None; exact F].
    intros (a & b & c & Hc).
    apply (comment_match_at a b c).
    + rewrite Hc in Hline. clear - Hline. solve_newline_free.
    + pose proof (find_None _ _ F (length a)) as Hn.
      rewrite Hc, drop_app_length in Hn. exact Hn.
Qed.

Lemma initializeMetadata_share (now : GoTime.Time) (r : N) (l : gostring) :
  clock_ok now = true -> newline_free l ->
  share_line now r l (initializeMetadata now r l).1.1.1.1.
Proof.
  intros Hnow Hl. destruct (initializeMetadata_found now r l Hnow Hl) as [Hi Hf].
  rewrite Hi. cbn [fst].
  exists (ReplaceAllString comment_re l []).
  split; [apply strip_shape, Hl|]. split; [apply strip_no_comment, Hl|].
  split; [reflexivity|].
  rewrite (getMetadata_found _ _ _ _ _ _ _ _ Hf). reflexivity.
Qed.

Lemma share_lines_spec (now : GoTime.Time) :
  clock_ok now = true ->
  forall (lines : list gostring) (tape : list N),
    Forall newline_free lines ->
    length (header_lines lines) <= length tape ->
    exists lines',
      share_lines now tape lines = Some (write_lines lines')
      /\ Forall2 (fun l l' => if is_card_header l
                              then exists r, r ∈ tape /\ share_line now r l l'
                              else l' = l) lines lines'.
Proof.
  intros Hnow. induction lines as [|l lines IH]; intros tape Hnf Hlen.
  - exists []. split; [reflexivity|constructor].
  - inversion Hnf as [|? ? Hl Hls]; subst. rewrite header_lines_cons in Hlen.
    cbn [share_lines]. destruct (is_card_header l) eqn:Hh.
    + destruct tape as [|r tape]; [cbn in Hlen; lia|].
      cbn [app length] in Hlen.
      destruct (IH tape Hls ltac:(lia)) as (lines' & Hs & HF).
      pose proof (initializeMetadata_share now r l Hnow Hl) as Hshare.
      destruct (initializeMetadata now r l) as [[[[l' ?] ?] ?] ?]. cbn [fst] in Hshare.
      exists (l' :: lines'). rewrite Hs. split.
      * cbn. unfold write_lines. cbn. rewrite <- !app_assoc. reflexivity.
      * constructor.
        -- rewrite Hh. exists r. split; [left|exact Hshare].
        -- eapply Forall2_impl; [exact HF|]. intros x y Hxy. cbn beta in Hxy |- *.
           destruct (is_card_header x); [|exact Hxy].
           destruct Hxy as (r' & Hin & Hsh). exists r'. split; [right; exact Hin|exact Hsh].
    + cbn [app] in Hlen. destruct (IH tape Hls Hlen) as (lines' & Hs & HF).
      exists (l :: lines'). rewrite Hs. split.
      * cbn. unfold write_lines. cbn. rewrite <- !app_assoc. reflexivity.
      * constructor; [rewrite Hh; reflexivity|exact HF].
Qed.

Lemma HasPrefix_app (p s : gostring) : GoStrings.HasPrefix (p ++ s) p = true.
Proof.
  induction p as [|x p IH]; [destruct s; reflexivity|].
  cbn. rewrite N.eqb_refl, IH. reflexivity.
Qed.















(* ================================================================== *)
(** * Further properties: errors, panics and round trips *)
(* ================================================================== *)

Lemma atoi_appendInt (width : nat) (bound : Z) (x : Z) :
  forallb (fun n => (GoTime.atoi_digits (GoTime.appendInt (Z.of_nat n) width) =? Z.of_nat n)%Z)
    (seq 0 (Z.to_nat bound)) = true ->
  (0 <= x < bound)%Z ->
  GoTime.atoi_digits (GoTime.appendInt x width) = x.
Proof.
  intros H Hx. rewrite forallb_forall in H.
  specialize (H (Z.to_nat x)). rewrite Z2Nat.id in H by lia.
  apply Z.eqb_eq, H, in_seq. lia.
Qed.

Lemma real_date_clock_ok (t : GoTime.Time) : real_date t = true -> clock_ok t = true.
Proof.
  unfold real_date, clock_ok, GoTime.daysIn. intros H.
  destruct (GoTime.month t =? 2)%Z, (GoTime.isLeap (GoTime.year t)),
    ((GoTime.month t =? 4) || (GoTime.month t =? 6) || (GoTime.month t =? 9)
     || (GoTime.month t =? 11))%Z; lia.
Qed.

Lemma fixed_width_inv4 (s : gostring) :
  fixed_width 4 s = true ->
  exists a b c d, s = [a; b; c; d] /\ forallb digit [a; b; c; d] = true.
Proof.
  unfold fixed_width. intros H. apply andb_true_iff in H as [Hl Hd].
  apply Nat.eqb_eq in Hl.
  destruct s as [|a [|b [|c [|d [|e s]]]]]; try discriminate Hl.
  exists a, b, c, d. split; [reflexivity|exact Hd].
Qed.

Lemma fixed_width_inv2 (s : gostring) :
  fixed_width 2 s = true ->
  exists a b, s = [a; b] /\ forallb digit [a; b] = true.
Proof.
  unfold fixed_width. intros H. apply andb_true_iff in H as [Hl Hd].
  apply Nat.eqb_eq in Hl.
  destruct s as [|a [|b [|c s]]]; try discriminate Hl.
  exists a, b. split; [reflexivity|exact Hd].
Qed.

Lemma Parse_Format (t : GoTime.Time) :
  real_date t = true -> GoTime.Parse (GoTime.Format t) = Some (today_of t).
Proof.
  intros H. pose proof H as H'. unfold real_date in H'.
  assert (Hd31 : (GoTime.daysIn (GoTime.month t) (GoTime.year t) <= 31)%Z).
  { unfold GoTime.daysIn.
    destruct (GoTime.month t =? 2)%Z, (GoTime.isLeap (GoTime.year t)),
      ((GoTime.month t =? 4) || (GoTime.month t =? 6) || (GoTime.month t =? 9)
       || (GoTime.month t =? 11))%Z; lia. }
  assert (Hy : (0 <= GoTime.year t <= 9999)%Z) by lia.
  assert (Hm : (0 <= GoTime.month t <= 99)%Z) by lia.
  assert (Hdd : (0 <= GoTime.day t <= 99)%Z) by lia.
  pose proof (appendInt_year _ Hy) as Wy. pose proof (appendInt_two _ Hm) as Wm.
  pose proof (appendInt_two _ Hdd) as Wd.
  assert (Ay : GoTime.atoi_digits (GoTime.appendInt (GoTime.year t) 4) = GoTime.year t).
  { apply (atoi_appendInt 4 10000); [vm_compute; reflexivity|lia]. }
  assert (Am : GoTime.atoi_digits (GoTime.appendInt (GoTime.month t) 2) = GoTime.month t).
  { apply (atoi_appendInt 2 100); [vm_compute; reflexivity|lia]. }
  assert (Ad : GoTime.atoi_digits (GoTime.appendInt (GoTime.day t) 2) = GoTime.day t).
  { apply (atoi_appendInt 2 100); [vm_compute; reflexivity|lia]. }
  unfold GoTime.Format.
  destruct (fixed_width_inv4 _ Wy) as (y1 & y2 & y3 & y4 & Ey & Dy).
  destruct (fixed_width_inv2 _ Wm) as (m1 & m2 & Em & Dm).
  destruct (fixed_width_inv2 _ Wd) as (d1 & d2 & Ed & Dd).
  rewrite Ey in Ay |- *. rewrite Em in Am |- *. rewrite Ed in Ad |- *.
  cbn [app GoTime.Parse].
  replace (forallb digit [y1; y2; y3; y4; m1; m2; d1; d2]) with true.
  2:{ symmetry. cbn [forallb] in *. lia. }
  cbn [andb N.eqb Pos.eqb]. change (45 =? 45)%N with true. cbn [andb].
  rewrite Ay, Am, Ad.
  replace ((1 <=? GoTime.month t) && (GoTime.month t <=? 12) && (1 <=? GoTime.day t)
           && (GoTime.day t <=? GoTime.daysIn (GoTime.month t) (GoTime.year t)))%Z
    with true by (symmetry; lia).
  reflexivity.
Qed.
Lemma HasPrefix_nil (s : gostring) : GoStrings.HasPrefix s [] = true.
Proof. destruct s; reflexivity. Qed.

Lemma header_before_block (pre x y : gostring) :
  is_card_header (pre ++ str "<!--" ++ x) = is_card_header (pre ++ str "<!--" ++ y).
Proof.
  unfold is_card_header.
  change (str "## ") with [35; 35; 32]%N. change (str "### ") with [35; 35; 35; 32]%N.
  change (str "#### ") with [35; 35; 35; 35; 32]%N. change (str "<!--") with [60; 33; 45; 45]%N.
  destruct pre as [|a [|b [|c [|d [|e pre]]]]]; cbn; try reflexivity;
    rewrite ?andb_false_r, ?HasPrefix_nil; reflexivity.
Qed.

Lemma find_same_pre_header (l l' pre post post' : gostring) (caps caps' : list gostring) :
  find metadata_re l = Some (pre, caps, post) ->
  find metadata_re l' = Some (pre, caps', post') ->
  is_card_header l' = is_card_header l.
Proof.
  intros F F'.
  apply find_metadata in F as (w & id & box & due & en & -> & Hw & _).
  apply find_metadata in F' as (w' & id' & box' & due' & en' & -> & Hw' & _).
  apply metadata_word_prefix in Hw as [w2 ->]. apply metadata_word_prefix in Hw' as [w2' ->].
  rewrite <- !(assoc_L app (str "<!--")). apply header_before_block.
Qed.

Lemma fresh_id_pre (now : GoTime.Time) (ids : gmap gostring bool) :
  forall tape line pre w id box due en post line' id' tape',
    find metadata_re line = Some (pre, [w; id; box; due; en], post) ->
    fresh_id now tape ids line id = Some (line', id', tape') ->
    exists w' post', find metadata_re line' = Some (pre, [w'; id'; box; due; en], post').
Proof.
  induction tape as [|r tape IH]; intros line pre w id box due en post line' id' tape' F H;
    cbn [fresh_id] in H; destruct (seen ids id) eqn:Hs.
  - discriminate H.
  - inversion H; subst. eauto.
  - destruct (generateNewId_found now r _ _ _ _ _ _ _ _ F) as [Hg Hf].
    cbn zeta in Hg, Hf. rewrite Hg in H. eapply IH; [exact Hf|exact H].
  - inversion H; subst. eauto.
Qed.

Lemma normalize_header_rewritten (now : GoTime.Time) (tape : list N)
    (ids : gmap gostring bool) (line line' id' : gostring) (tape' : list N) :
  clock_ok now = true -> newline_free line -> is_card_header line = true ->
  normalize_header now tape ids line = Some (line', id', tape') ->
  rewritten now line line'.
Proof.
  intros Hnow Hline Hh H. unfold rewritten. rewrite Hh. split.
  - intros id box due en Hc. pose proof Hc as (pre & w & post & F).
    destruct (normalize_header_spec _ _ _ _ _ _ _ Hnow Hline H) as (_ & _ & _ & Hkeep).
    destruct (Hkeep _ _ _ _ Hc) as [Hc' _].
    rewrite (carries_id_of _ _ _ _ _ Hc'). split; [|exact Hc'].
    unfold normalize_header in H. rewrite (carries_getMetadata _ _ _ _ _ Hc) in H.
    destruct (carries_fields _ _ _ _ _ Hc) as (Hlen & _).
    rewrite bool_decide_eq_false_2 in H by (destruct id; [discriminate Hlen|discriminate]).
    cbn in H. destruct (fresh_id_pre now ids _ _ _ _ _ _ _ _ _ _ _ _ F H) as (w' & post' & F').
    rewrite (find_same_pre_header _ _ _ _ _ _ _ F F'). exact Hh.
  - intros Hnone. unfold normalize_header in H.
    rewrite (getMetadata_not_found _ Hnone) in H.
    rewrite bool_decide_eq_true_2 in H by reflexivity.
    destruct tape as [|r tape]; [discriminate H|].
    destruct (initializeMetadata_found now r line Hnow Hline) as [Hi Hf].
    cbn zeta in Hi, Hf. rewrite Hi in H. cbn in H.
    assert (Hc : carries (ReplaceAllString comment_re line [] ++ str " "
                           ++ block4 (Nanoid.MustGenerate r) (str "0") (GoTime.Format now) true)
                   (Nanoid.MustGenerate r) (str "0") (GoTime.Format now) (str "true"))
      by (do 3 eexists; exact Hf).
    assert (Hl1 : newline_free (ReplaceAllString comment_re line [] ++ str " "
                           ++ block4 (Nanoid.MustGenerate r) (str "0") (GoTime.Format now) true)).
    { apply newline_free_app. split.
      - apply replace_all_newline_free; [reflexivity|exact Hline].
      - apply newline_free_app. split; [reflexivity|].
        rewrite block4_canonical.
        destruct (MustGenerate_shape r) as (x & id1 & Hid & _ & Hal).
        apply canonical_newline_free.
        + rewrite Hid. apply alnum_dot, Hal.
        + exists 48%N. split; reflexivity.
        + apply Format_is_date, Hnow.
        + right; left; reflexivity. }
    destruct (fresh_id_spec now ids _ _ _ _ _ _ _ _ _ Hc Hl1 H) as (_ & Hc' & _ & _).
    rewrite (carries_id_of _ _ _ _ _ Hc'). exact Hc'.
Qed.

Lemma normalize_rewritten (now : GoTime.Time) :
  clock_ok now = true ->
  forall (lines : list gostring) (tape : list N) (ids : gmap gostring bool)
         (out : list gostring),
    Forall newline_free lines ->
    normalize now tape ids lines = Some out ->
    Forall2 (rewritten now) lines out.
Proof.
  intros Hnow. induction lines as [|l lines IH]; intros tape ids out Hnf H;
    cbn [normalize] in H.
  - inversion H. constructor.
  - inversion Hnf as [|? ? Hl Hls]; subst.
    destruct (is_card_header l) eqn:Hh.
    + destruct (normalize_header now tape ids l) as [[[l' id'] tape']|] eqn:Hn;
        [|discriminate H].
      destruct (normalize now tape' (<[id' := true]> ids) lines) as [out'|] eqn:Ho;
        [|discriminate H].
      inversion H; subst. constructor; [|eapply IH; eassumption].
      eapply normalize_header_rewritten; eassumption.
    + destruct (normalize now tape ids lines) as [out'|] eqn:Ho; [|discriminate H].
      inversion H; subst. constructor; [|eapply IH; eassumption].
      unfold rewritten. rewrite Hh. reflexivity.
Qed.
Lemma digit_cases (b : rune) :
  digit b = true ->
  (b = 48 \/ b = 49 \/ b = 50 \/ b = 51 \/ b = 52 \/ b = 53 \/ b = 54 \/ b = 55
   \/ b = 56 \/ b = 57)%N.
Proof. unfold digit. lia. Qed.

Lemma Atoi_digit (b : rune) :
  digit b = true -> Strconv.Atoi [b] = Some (GoTime.digit_val b).
Proof.
  intros H. apply digit_cases in H.
  repeat (destruct H as [->|H]; [reflexivity|]). subst b. reflexivity.
Qed.

(** On a line that carries metadata, [getCardFromLine] panics exactly when
    the due date is not a date. *)
Lemma getCardFromLine_carries (l category id box due en : gostring) :
  carries l id box due en ->
  getCardFromLine l category
  = match GoTime.Parse due with
    | Some t =>
        Some {| Id := id; Category := category; Front := extractQuestion l; Back := [];
                Box := uint_of_int (GoTime.atoi_digits box); Due := t;
                Enabled := flag_value en |}
    | None => None
    end.
Proof.
  intros Hc. unfold getCardFromLine. rewrite (carries_getMetadata _ _ _ _ _ Hc).
  destruct (carries_fields _ _ _ _ _ Hc) as (_ & _ & (b & -> & Hb) & _).
  rewrite (Atoi_digit _ Hb). cbn [mbind option_bind].
  destruct (GoTime.Parse due); reflexivity.
Qed.



Lemma carries_fun (l id box due en id' box' due' en' : gostring) :
  carries l id box due en -> carries l id' box' due' en' ->
  id' = id /\ box' = box /\ due' = due /\ en' = en.
Proof.
  intros (p & w & q & F) (p' & w' & q' & F'). rewrite F in F'. inversion F'. auto.
Qed.

Lemma Forall2_elem_of_r {A B : Type} (R : A -> B -> Prop) (l : list A) (k : list B) (y : B) :
  Forall2 R l k -> y ∈ k -> exists x, x ∈ l /\ R x y.
Proof.
  induction 1 as [|a b l k Hab HF IH]; intros Hin; [inversion Hin|].
  apply elem_of_cons in Hin as [->|Hin].
  - exists a. split; [left|exact Hab].
  - destruct (IH Hin) as (x & Hx & HR). exists x. split; [right; exact Hx|exact HR].
Qed.





Lemma star_longest {A : Type} (p : rune -> bool) (k : gostring -> option A)
    (w t : gostring) (a : A) :
  forallb p w = true -> k t = Some a ->
  (forall u v, t = u ++ v -> u <> [] -> forallb p u = true -> k v = None) ->
  star p k (w ++ t) = Some a.
Proof.
  intros Hw Hk Hlong. induction w as [|y w IH].
  - cbn [app]. destruct t as [|x t']; [exact Hk|]. cbn [star].
    destruct (p x) eqn:Hx; [|exact Hk].
    destruct (star p k t') as [a'|] eqn:Hs; [|exact Hk].
    apply star_sound in Hs as (w' & t'' & -> & Hw' & Hk').
    rewrite (Hlong (x :: w') t'') in Hk'; [discriminate Hk'|reflexivity|discriminate|].
    cbn [forallb]. rewrite Hx, Hw'. reflexivity.
  - cbn [forallb] in Hw. apply andb_true_iff in Hw as [Hy Hw].
    cbn [app star]. rewrite Hy, (IH Hw). reflexivity.
Qed.

Lemma trim_left_span (p : rune -> bool) (s : gostring) :
  exists ws, s = ws ++ GoStrings.trim_left p s /\ forallb p ws = true
    /\ match GoStrings.trim_left p s with x :: _ => p x = false | [] => True end.
Proof.
  induction s as [|c s IH]; [exists []; repeat split|].
  cbn [GoStrings.trim_left]. destruct (p c) eqn:Hc.
  - destruct IH as (ws & E & Hws & Hh). exists (c :: ws). cbn [app forallb].
    rewrite Hc, Hws, <- E. repeat split. exact Hh.
  - exists []. repeat split. exact Hc.
Qed.

Lemma match_here_question (sp : rune) (ws T R : gostring) :
  space sp = true -> forallb space ws = true ->
  match T with x :: _ => space x = false | [] => True end ->
  forallb dot T = true -> Forall (fun c => c <> 60%N) R ->
  match_here question_re (str "##" ++ sp :: ws ++ T ++ str "<!--" ++ R)
  = Some ([str "##" ++ sp :: ws ++ T ++ str "<!--"; T], R).
Proof.
  intros Hsp Hws HT Hdot HR. unfold match_here.
  change (replicate (S (NumSubexp question_re)) []) with [[]; [] : gostring].
  unfold question_re. rewrite exec_cat_cons, (runs_lits (str "##")).
  rewrite exec_cat_cons. change (sp :: ws ++ T ++ str "<!--" ++ R)
    with ([sp] ++ ws ++ T ++ str "<!--" ++ R).
  rewrite (runs_Cls space sp Hsp). rewrite exec_cat_cons. cbn [exec].
  apply star_longest; [exact Hws| |].
  2:{ intros u v E Hu Hpu. exfalso. destruct u as [|x u]; [congruence|].
      cbn [forallb] in Hpu. apply andb_true_iff in Hpu as [Hx _].
      destruct T as [|y T]; cbn in E; inversion E; subst; [discriminate Hx|congruence]. }
  rewrite exec_cat_cons. cbn [exec].
  apply star_longest; [exact Hdot| |].
  - rewrite exec_cat_cons, (runs_lits (str "<!--")), exec_cat_nil.
    rewrite take_app_rest. cbn [list_insert].
    f_equal. f_equal. f_equal.
    change (str "##" ++ sp :: ws ++ T ++ str "<!--" ++ R)
      with ((str "##" ++ [sp]) ++ ws ++ T ++ str "<!--" ++ R).
    rewrite !(assoc_L app _ _ R), !(assoc_L app _ _ (str "<!--")), !(assoc_L app _ ws).
    rewrite take_app_rest. rewrite <- !(assoc_L app). reflexivity.
  - intros u v E Hu _. destruct u as [|x u]; [congruence|].
    change (str "<!--") with [60; 33; 45; 45]%N in *. cbn [app] in E. inversion E as [[Ex E']].
    assert (Hv : Forall (fun c => c <> 60%N) v).
    { assert (Hall : Forall (fun c => c <> 60%N) (u ++ v)).
      { rewrite <- E'. repeat (constructor; [discriminate|]). exact HR. }
      apply Forall_app in Hall. tauto. }
    rewrite exec_cat_cons. cbn [lits exec].
    destruct v as [|y v]; [reflexivity|]. inversion Hv; subst.
    destruct (y =? 60)%N eqn:Ey; [apply N.eqb_eq in Ey; congruence|reflexivity].
Qed.
Lemma trim_left_app (p : rune -> bool) (a b : gostring) :
  GoStrings.trim_left p (a ++ b)
  = if forallb p a then GoStrings.trim_left p b else GoStrings.trim_left p a ++ b.
Proof.
  induction a as [|c a IH]; [reflexivity|]. cbn [app GoStrings.trim_left forallb].
  destruct (p c); [exact IH|reflexivity].
Qed.

Lemma trim_left_all (p : rune -> bool) (a : gostring) :
  forallb p a = true -> GoStrings.trim_left p a = [].
Proof.
  induction a as [|c a IH]; [reflexivity|]. cbn [GoStrings.trim_left forallb].
  destruct (p c); [exact IH|discriminate].
Qed.

Lemma trim_left_weaker (p q : rune -> bool) (s : gostring) :
  (forall c, p c = true -> q c = true) ->
  GoStrings.trim_left q (GoStrings.trim_left p s) = GoStrings.trim_left q s.
Proof.
  intros Hpq. induction s as [|c s IH]; [reflexivity|]. cbn [GoStrings.trim_left].
  destruct (p c) eqn:Hp.
  - rewrite (Hpq _ Hp). exact IH.
  - reflexivity.
Qed.

Lemma trim_right_snoc (p : rune -> bool) (s : gostring) (c : rune) :
  p c = true -> GoStrings.trim_right p (s ++ [c]) = GoStrings.trim_right p s.
Proof.
  intros Hc. unfold GoStrings.trim_right. rewrite rev_app_distr. cbn [rev app].
  cbn [GoStrings.trim_left]. rewrite Hc. reflexivity.
Qed.

Lemma space_IsSpace (c : rune) : space c = true -> GoStrings.IsSpace c = true.
Proof. unfold space, GoStrings.IsSpace. lia. Qed.

(** Blanks of the pattern before a text and one blank after it do not
    change what [strings.TrimSpace] makes of it. *)
Lemma TrimSpace_question (q : gostring) :
  GoStrings.TrimSpace (GoStrings.trim_left space (q ++ [32%N])) = GoStrings.TrimSpace q.
Proof.
  unfold GoStrings.TrimSpace. rewrite (trim_left_weaker _ _ _ space_IsSpace).
  rewrite trim_left_app. destruct (forallb GoStrings.IsSpace q) eqn:Hq.
  - rewrite (trim_left_all _ _ Hq). reflexivity.
  - apply trim_right_snoc. reflexivity.
Qed.

Lemma no_opener_no_comment_match (s : gostring) :
  ~ contains (str "<!--") s -> forall i, match_here comment_re (drop i s) = None.
Proof.
  intros Hno i. destruct (match_here comment_re (drop i s)) as [[caps rest]|] eqn:M;
    [|reflexivity].
  exfalso. apply Hno. apply match_here_sound in M as (w & c' & E & Hm & _).
  apply comment_re_shape in Hm as (ws & b & -> & _).
  exists (take i s ++ ws), (b ++ str "-->" ++ rest).
  rewrite <- (take_drop i s) at 1. rewrite E, <- !(assoc_L app). reflexivity.
Qed.

Lemma strip_without_opener (s : gostring) :
  ~ contains (str "<!--") s -> ReplaceAllString comment_re s [] = s.
Proof.
  intros Hno. apply replace_all_none, no_opener_no_comment_match, Hno.
Qed.

Lemma block4_tail (id box due : gostring) (enabled : bool) :
  forallb is_alnum id = true -> forallb digit box = true -> is_date due = true ->
  exists R, block4 id box due enabled = str "<!--" ++ R /\ Forall (fun c => c <> 60%N) R.
Proof.
  intros Hid Hbox Hdue. unfold block4. eexists. split; [reflexivity|].
  apply Forall_app. split.
  { apply (forallb_Forall_ne is_alnum); [|exact Hid]. intros c Hc. apply alnum_facts in Hc. tauto. }
  apply Forall_app. split; [repeat constructor; discriminate|].
  apply Forall_app. split; [apply (forallb_Forall_ne digit); [apply digit_not_lt|exact Hbox]|].
  apply Forall_app. split; [repeat constructor; discriminate|].
  apply Forall_app. split; [apply is_date_no_lt, Hdue|].
  apply Forall_app. split; [repeat constructor; discriminate|].
  apply Forall_app. split; [destruct enabled; repeat constructor; discriminate|].
  repeat constructor; discriminate.
Qed.

Lemma find_here (r : regex) (s : gostring) caps rest :
  match_here r s = Some (caps, rest) -> find r s = Some ([], caps, rest).
Proof. intros M. apply (find_at r [] s); [intros i Hi; inversion Hi|exact M]. Qed.

(** The question of a header line: the text between the hashes and the
    last comment opener, when nothing but the opener of the block follows. *)
Lemma extractQuestion_header (hashes q R : gostring) :
  hashes ∈ [str "##"; str "###"; str "####"] ->
  newline_free q -> Forall (fun c => c <> 60%N) R ->
  extractQuestion (hashes ++ 32%N :: q ++ str " " ++ str "<!--" ++ R)
  = GoStrings.TrimSpace q.
Proof.
  intros Hh Hq HR.
  destruct (trim_left_span space (q ++ [32%N])) as (ws & E & Hws & Hhead).
  assert (Hdot : forallb dot (GoStrings.trim_left space (q ++ [32%N])) = true).
  { assert (Hall : newline_free (q ++ [32%N])) by (apply newline_free_app; split; [exact Hq|reflexivity]).
    rewrite E in Hall. apply newline_free_app in Hall. tauto. }
  pose proof (match_here_question 32 ws _ R eq_refl Hws Hhead Hdot HR) as M.
  rewrite (assoc_L app ws), <- E in M.
  assert (Eline : forall h, h ++ 32%N :: q ++ str " " ++ str "<!--" ++ R
                            = h ++ 32%N :: (q ++ [32%N]) ++ str "<!--" ++ R).
  { intros h. rewrite <- (assoc_L app q). reflexivity. }
  rewrite Eline. rewrite <- TrimSpace_question.
  unfold extractQuestion, FindStringSubmatch.
  repeat (apply elem_of_cons in Hh as [->|Hh]); [| | |inversion Hh].
  - rewrite (find_here _ _ _ _ M). reflexivity.
  - change (str "###") with ([35%N] ++ str "##"). rewrite <- (assoc_L app [35%N]).
    rewrite (fun H => find_at question_re [35%N] _ _ _ H M); [reflexivity|].
    intros [|i] Hi; [reflexivity|cbn in Hi; lia].
  - change (str "####") with ([35%N; 35%N] ++ str "##"). rewrite <- (assoc_L app [35%N; 35%N]).
    rewrite (fun H => find_at question_re [35%N; 35%N] _ _ _ H M); [reflexivity|].
    intros [|[|i]] Hi; [reflexivity|reflexivity|cbn in Hi; lia].
Qed.
Lemma contains_opener_cons (c : rune) (s : gostring) :
  c <> 60%N -> contains (str "<!--") (c :: s) -> contains (str "<!--") s.
Proof.
  intros Hc (a & b & E). destruct a as [|x a].
  - change (str "<!--") with [60; 33; 45; 45]%N in E. cbn in E. inversion E. congruence.
  - cbn in E. inversion E. exists a, b. reflexivity.
Qed.

(** X4. A card header without any comment, once [initializeMetadata] has
    given it its block, is read back by [getCardFromLine] as the card with the
    fresh identifier, box 0, due today at midnight, enabled, and the trimmed
    header text as its front. *)
Theorem X4_fresh_header_round_trip (now : GoTime.Time) (r : N)
    (hashes q category : gostring) :
  real_date now = true ->
  hashes ∈ [str "##"; str "###"; str "####"] ->
  newline_free q -> ~ contains (str "<!--") q ->
  (initializeMetadata now r (hashes ++ 32%N :: q)).1.1.1.1
  = hashes ++ 32%N :: q ++ str " "
      ++ block4 (Nanoid.MustGenerate r) (str "0") (GoTime.Format now) true
  /\ getCardFromLine (initializeMetadata now r (hashes ++ 32%N :: q)).1.1.1.1 category
     = Some {| Id := Nanoid.MustGenerate r; Category := category;
               Front := GoStrings.TrimSpace q; Back := []; Box := 0;
               Due := today_of now; Enabled := true |}.
Proof.
  intros Hreal Hh Hq Hno. pose proof (real_date_clock_ok _ Hreal) as Hnow.
  assert (Hline : newline_free (hashes ++ 32%N :: q)).
  { apply newline_free_app. split; [|apply (newline_free_app [32%N] q); split; [reflexivity|exact Hq]].
    repeat (apply elem_of_cons in Hh as [->|Hh]); try reflexivity. inversion Hh. }
  assert (Hno' : ~ contains (str "<!--") (hashes ++ 32%N :: q)).
  { intros Hc. apply Hno.
    repeat (apply elem_of_cons in Hh as [->|Hh]); [| | |inversion Hh];
      repeat (apply contains_opener_cons in Hc; [|discriminate]); exact Hc. }
  destruct (initializeMetadata_found now r _ Hnow Hline) as [Hi Hf].
  cbn zeta in Hi, Hf. rewrite (strip_without_opener _ Hno') in Hi, Hf.
  rewrite Hi. cbn [fst]. rewrite <- (assoc_L app hashes). split; [reflexivity|].
  assert (Hc : carries ((hashes ++ 32%N :: q) ++ str " "
                 ++ block4 (Nanoid.MustGenerate r) (str "0") (GoTime.Format now) true)
                 (Nanoid.MustGenerate r) (str "0") (GoTime.Format now) (str "true"))
    by (do 3 eexists; exact Hf).
  rewrite <- (assoc_L app hashes) in Hc. cbn [app] in Hc.
  rewrite (getCardFromLine_carries _ _ _ _ _ _ Hc), (Parse_Format _ Hreal).
  destruct (MustGenerate_shape r) as (x & id' & Hid & _ & Hal).
  destruct (block4_tail (Nanoid.MustGenerate r) (str "0") (GoTime.Format now) true)
    as (R & ER & HR); [rewrite Hid; exact Hal|reflexivity|apply Format_is_date, Hnow|].
  rewrite ER, (extractQuestion_header _ _ _ Hh Hq HR). reflexivity.
Qed.

Lemma X4_fresh_header_round_trip_witness :
  (initializeMetadata sample_now 7 (str "###" ++ 32%N :: str " What is a rune?  ")).1.1.1.1
  = str "###" ++ 32%N :: str " What is a rune?  " ++ str " "
      ++ block4 (Nanoid.MustGenerate 7) (str "0") (GoTime.Format sample_now) true
  /\ getCardFromLine
       (initializeMetadata sample_now 7 (str "###" ++ 32%N :: str " What is a rune?  ")).1.1.1.1
       (str "Go")
     = Some {| Id := Nanoid.MustGenerate 7; Category := str "Go";
               Front := GoStrings.TrimSpace (str " What is a rune?  "); Back := [];
               Box := 0; Due := today_of sample_now; Enabled := true |}.
Proof.
  apply (X4_fresh_header_round_trip sample_now 7 (str "###") (str " What is a rune?  ")
           (str "Go")).
  - reflexivity.
  - right; left.
  - reflexivity.
  - intros (a & b & E). apply (f_equal (fun l => existsb (N.eqb 60) l)) in E.
    rewrite existsb_app in E. cbn in E. rewrite orb_true_r in E. discriminate E.
Defined.
Lemma digits_fuel_digit (fuel : nat) :
  forall n acc, forallb digit acc = true ->
                forallb digit (GoTime.digits_fuel fuel n acc) = true.
Proof.
  induction fuel as [|fuel IH]; intros n acc Hacc; cbn [GoTime.digits_fuel]; [exact Hacc|].
  assert (Hd : forallb digit ((48 + n mod 10)%N :: acc) = true).
  { cbn [forallb]. rewrite Hacc, andb_true_r. unfold digit.
    assert (Hm : (n mod 10 < 10)%N) by (apply N.mod_upper_bound; discriminate).
    generalize dependent (n mod 10)%N. intros m Hm. lia. }
  destruct (n <? 10)%N; [exact Hd|apply IH, Hd].
Qed.

Lemma digits_fuel_length (fuel : nat) :
  forall n acc, length acc <= length (GoTime.digits_fuel fuel n acc).
Proof.
  induction fuel as [|fuel IH]; intros n acc; cbn [GoTime.digits_fuel]; [lia|].
  destruct (n <? 10)%N; [cbn; lia|].
  etransitivity; [|apply IH]. cbn. lia.
Qed.

Lemma digits_digit (n : N) : forallb digit (GoTime.digits n) = true.
Proof. apply digits_fuel_digit. reflexivity. Qed.

Lemma digits_long (n : N) : (10 <= n)%N -> 2 <= length (GoTime.digits n).
Proof.
  intros Hn. unfold GoTime.digits.
  assert (Hlog : (3 <= N.log2 n)%N).
  { change 3%N with (N.log2 10). apply N.log2_le_mono, Hn. }
  destruct (N.to_nat (N.log2 n)) as [|f] eqn:Ef; [lia|].
  cbn [GoTime.digits_fuel].
  destruct (n <? 10)%N eqn:E; [lia|].
  destruct (n / 10 <? 10)%N; [cbn; lia|].
  etransitivity; [|apply digits_fuel_length]. cbn. lia.
Qed.

Lemma FormatUint_small (n : Z) :
  (0 <= n <= 9)%Z -> Strconv.FormatUint n = [(48 + Z.to_N n)%N].
Proof.
  intros Hn.
  assert (H : Forall (fun k => Strconv.FormatUint (Z.of_nat k) = [(48 + N.of_nat k)%N])
                (seq 0 10)) by (repeat constructor).
  rewrite Forall_forall in H. specialize (H (Z.to_nat n)).
  rewrite Z2Nat.id, Z_nat_N in H by lia. apply H, elem_of_seq. lia.
Qed.

Lemma match_here_not_opener (c : rune) (s : gostring) :
  c <> 60%N -> match_here metadata_re (c :: s) = None.
Proof.
  intros Hc. unfold match_here, metadata_re. rewrite exec_cat_cons.
  change (str "<!--") with [60; 33; 45; 45]%N. cbn [lits]. rewrite exec_Cat.
  apply exec_Lit_miss, Hc.
Qed.

(** A canonical block after a text without [<] is the leftmost metadata of
    the line. *)
Lemma find_canonical (pre id due en post : gostring) (b : rune) :
  Forall (fun c => c <> 60%N) pre ->
  length id = 4 -> forallb is_alnum id = true -> digit b = true ->
  is_date due = true -> en = [] \/ en = str "true" \/ en = str "false" ->
  find metadata_re (pre ++ comment_text [] id [b] due en [] ++ post)
  = Some (pre, [comment_text [] id [b] due en []; id; [b]; due; en], post).
Proof.
  intros Hpre Hlen Hal Hb Hdue Hen. apply find_at.
  - intros i Hi. rewrite drop_app_le by lia.
    destruct (drop i pre) as [|c p] eqn:E.
    { apply (f_equal length) in E. rewrite length_drop in E. cbn in E. lia. }
    cbn [app]. apply match_here_not_opener.
    assert (Hin : c ∈ pre).
    { rewrite <- (take_drop i pre), E. apply elem_of_app. right. left. }
    rewrite Forall_forall in Hpre. apply Hpre, Hin.
  - destruct id as [|x id']; [discriminate Hlen|].
    apply match_here_canonical; try assumption.
    + apply alnum_dot, Hal.
    + cbn [forallb] in Hal. apply andb_true_iff in Hal as [Hx _].
      apply alnum_facts in Hx. tauto.
Qed.

(** A block with an alphanumeric identifier and a box of two digits or more
    is no metadata. *)
Lemma long_box_not_found (id box due en : gostring) :
  length id = 4 -> forallb is_alnum id = true ->
  forallb digit box = true -> 2 <= length box ->
  is_date due = true -> (en = [] \/ en = str "true" \/ en = str "false") ->
  find metadata_re (str "<!--" ++ id ++ [59%N] ++ box ++ [59%N] ++ due
                      ++ flag_suffix en ++ str "-->") = None.
Proof.
  intros Hlen Hal Hbox Hlb Hdue Hen.
  set (tail := id ++ [59%N] ++ box ++ [59%N] ++ due ++ flag_suffix en ++ str "-->").
  assert (Htail : Forall (fun c => c <> 60%N) ([33; 45; 45]%N ++ tail)).
  { unfold tail. repeat apply Forall_app_2.
    - repeat constructor; lia.
    - eapply forallb_Forall_ne; [|exact Hal]. intros c Hc. apply alnum_facts in Hc. tauto.
    - repeat constructor; lia.
    - eapply forallb_Forall_ne; [apply digit_not_lt|exact Hbox].
    - repeat constructor; lia.
    - apply is_date_no_lt, Hdue.
    - destruct Hen as [->|[->| ->]]; cbn; repeat constructor; lia.
    - cbn. repeat constructor; lia. }
  destruct (find metadata_re (str "<!--" ++ tail)) as [[[pre caps] post]|] eqn:F;
    [exfalso|reflexivity].
  apply find_Some in F as (w & Heq & Hm & _).
  destruct pre as [|x pre].
  + apply match_here_metadata in Hm as (w' & id' & box' & due' & en' & Hw & Hword & _).
    apply app_inv_tail in Hw. subst w'. cbn [app] in Heq.
    destruct Hword as (ws & ws' & -> & Hws & _ & Hlen' & _ & (b & -> & Hb) & _).
    unfold comment_text, tail in Heq. rewrite <- !app_assoc in Heq.
    apply app_inv_head in Heq.
    do 4 (destruct id as [|? id]; [discriminate Hlen|]).
    destruct id; [|discriminate Hlen].
    destruct ws as [|y ws].
    * do 4 (destruct id' as [|? id']; [discriminate Hlen'|]).
      destruct id'; [|discriminate Hlen'].
      destruct box as [|b1 [|b2 box]]; cbn in Hlb; try lia.
      cbn in Heq. inversion Heq; subst.
      cbn in Hbox. unfold digit in Hbox. lia.
    * cbn in Heq. inversion Heq; subst. cbn in Hws, Hal.
      apply andb_true_iff in Hws as [Hy _]. apply andb_true_iff in Hal as [Hy' _].
      apply alnum_facts in Hy'. destruct Hy' as [Hy' _]. congruence.
  + change (str "<!--" ++ tail) with (60%N :: [33; 45; 45]%N ++ tail) in Heq.
    inversion Heq as [[Hx Heq']].
    pose proof (no_lt_no_match _ Htail (length pre)) as Hno.
    cbn [app] in Hno. rewrite Heq', drop_app_length in Hno.
    rewrite Hno in Hm. discriminate Hm.
Qed.

Lemma FormatBool_flag (enabled : bool) :
  (Strconv.FormatBool enabled = str "true" \/ Strconv.FormatBool enabled = str "false")
  /\ flag_value (Strconv.FormatBool enabled) = enabled
  /\ flag_suffix (Strconv.FormatBool enabled) = 59%N :: Strconv.FormatBool enabled.
Proof. destruct enabled; repeat split; auto. Qed.

(** X5. The block [updateCardInFile] writes for a card is read back with
    the card's identifier, box, due day and enabled flag as long as the box
    is at most 9; a box of 10 or more is written with two digits, and the
    block is then no metadata at all for [getMetadata]. *)
Theorem X5_card_block_round_trip (c : Card) (pre post category : gostring) :
  length (Id c) = 4 -> forallb is_alnum (Id c) = true ->
  real_date (Due c) = true -> (0 <= Box c)%Z ->
  Forall (fun x => x <> 60%N) pre ->
  ((Box c <= 9)%Z ->
   getCardFromLine (pre ++ card_block c ++ post) category
   = Some {| Id := Id c; Category := category;
             Front := extractQuestion (pre ++ card_block c ++ post); Back := [];
             Box := Box c; Due := today_of (Due c); Enabled := Enabled c |})
  /\ ((10 <= Box c)%Z -> getMetadata (card_block c) = ([], [], [], true)).
Proof.
  intros Hlen Hal Hreal Hbox Hpre.
  pose proof (Format_is_date _ (real_date_clock_ok _ Hreal)) as Hdue.
  destruct (FormatBool_flag (Enabled c)) as (Hen & Hfv & Hfs).
  split.
  - intros Hle. unfold card_block. rewrite block4_canonical.
    rewrite (FormatUint_small (Box c)) by lia.
    assert (Hb : digit (48 + Z.to_N (Box c))%N = true) by (unfold digit; lia).
    assert (Hc : carries (pre ++ comment_text [] (Id c) [(48 + Z.to_N (Box c))%N]
                            (GoTime.Format (Due c)) (Strconv.FormatBool (Enabled c)) [] ++ post)
                   (Id c) [(48 + Z.to_N (Box c))%N] (GoTime.Format (Due c))
                   (Strconv.FormatBool (Enabled c))).
    { do 3 eexists. apply find_canonical; auto. }
    rewrite (getCardFromLine_carries _ _ _ _ _ _ Hc), (Parse_Format _ Hreal), Hfv.
    f_equal. f_equal. unfold uint_of_int, GoTime.atoi_digits, GoTime.digit_val. cbn [fold_left].
    rewrite Z.mod_small; lia.
  - intros Hge. apply getMetadata_not_found. unfold card_block.
    replace (block4 (Id c) (Strconv.FormatUint (Box c)) (GoTime.Format (Due c)) (Enabled c))
      with (str "<!--" ++ Id c ++ [59%N] ++ Strconv.FormatUint (Box c) ++ [59%N]
              ++ GoTime.Format (Due c) ++ flag_suffix (Strconv.FormatBool (Enabled c))
              ++ str "-->")
      by (rewrite Hfs; reflexivity).
    apply long_box_not_found; auto.
    + apply digits_digit.
    + apply digits_long. lia.
Qed.

Lemma X5_card_block_round_trip_witness :
  getCardFromLine (str "## What is a rune? " ++ card_block sample_card ++ []) (str "Go")
  = Some {| Id := str "dupl"; Category := str "Go";
            Front := extractQuestion (str "## What is a rune? " ++ card_block sample_card ++ []);
            Back := []; Box := 3; Due := GoTime.Date 2026 11 7; Enabled := true |}.
Proof.
  apply (X5_card_block_round_trip sample_card (str "## What is a rune? ") [] (str "Go")).
  - reflexivity.
  - reflexivity.
  - reflexivity.
  - cbn. lia.
  - vm_compute. repeat constructor; discriminate.
  - cbn. lia.
Defined.
Lemma HasPrefix_length :
  forall (p s : gostring), GoStrings.HasPrefix s p = true -> length p <= length s.
Proof.
  induction p as [|c p IH]; intros s H; [cbn; lia|].
  destruct s as [|x s]; [discriminate H|]. cbn in H.
  apply andb_true_iff in H as [_ H]. apply IH in H. cbn. lia.
Qed.

Lemma share_path_length (p : gostring) :
  length (share_path p) = length p + 6 \/ length (share_path p) = length p + 9.
Proof.
  unfold share_path, GoStrings.TrimSuffix.
  destruct (GoStrings.HasSuffix p (str ".md")) eqn:H.
  - left. unfold GoStrings.HasSuffix in H. apply HasPrefix_length in H.
    rewrite !length_rev in H. change (length (str ".md")) with 3 in *.
    rewrite length_app, length_take. change (length (str ".share.md")) with 9. lia.
  - right. rewrite length_app. reflexivity.
Qed.

Lemma share_path_fresh (p : gostring) : share_path p <> p.
Proof.
  intros E. apply (f_equal length) in E. destruct (share_path_length p); lia.
Qed.

(** X6. [CreateCopyToShare] never writes to the file it copies: the copy
    goes to a path that differs from the source path, and every other file
    is left as it was (a file already at the copy's path is overwritten).  On
    its two errors ("no file specified" for an empty path, "file not found"
    when nothing is at the absolute path) nothing is written at all. *)
Theorem X6_share_copy_keeps_source (Abs : gostring -> gostring) (now : GoTime.Time)
    (tape : list N) (fs : gmap gostring gostring) (path : gostring) :
  share_path (Abs path) <> Abs path
  /\ (CreateCopyToShare Abs now tape fs path).1 !! Abs path = fs !! Abs path
  /\ (forall p, p <> share_path (Abs path) ->
        (CreateCopyToShare Abs now tape fs path).1 !! p = fs !! p)
  /\ (forall e, (CreateCopyToShare Abs now tape fs path).2 = Returned (Some e) ->
        (CreateCopyToShare Abs now tape fs path).1 = fs
        /\ (e = NoFileSpecified <-> path = [])
        /\ (e = FileNotFound <-> path <> [] /\ fs !! Abs path = None)).
Proof.
  pose proof (share_path_fresh (Abs path)) as Hne. split; [exact Hne|].
  unfold CreateCopyToShare.
  destruct (bool_decide (path = [])) eqn:Hp.
  { apply bool_decide_eq_true in Hp. cbn.
    repeat split; intros; simplify_eq/=; eauto; try tauto. }
  apply bool_decide_eq_false in Hp.
  destruct (fs !! Abs path) as [content|] eqn:Hfs.
  2:{ cbn. repeat split; intros; simplify_eq/=; eauto; try tauto. }
  destruct (share_lines now tape (Bufio.ScanLines content)) as [out|]; cbn.
  - split; [rewrite lookup_insert_ne by exact Hne; exact Hfs|].
    split; [intros p Hpne; apply lookup_insert_ne; congruence|]. intros e H. discriminate H.
  - split; [rewrite lookup_insert_ne by exact Hne; exact Hfs|].
    split; [intros p Hpne; apply lookup_insert_ne; congruence|]. intros e H. discriminate H.
Qed.

Lemma X6_share_copy_keeps_source_witness :
  (CreateCopyToShare id sample_now [7; 8; 9]%N {[ sample_path := deck_progress ]}
     sample_path).1 !! sample_path = Some deck_progress
  /\ (CreateCopyToShare id sample_now [7; 8; 9]%N {[ sample_path := deck_progress ]}
        (str "/decks/none.md")).1 = {[ sample_path := deck_progress ]}.
Proof.
  destruct (X6_share_copy_keeps_source id sample_now [7; 8; 9]%N
              {[ sample_path := deck_progress ]} sample_path) as (_ & H & _).
  destruct (X6_share_copy_keeps_source id sample_now [7; 8; 9]%N
              {[ sample_path := deck_progress ]} (str "/decks/none.md")) as (_ & _ & _ & H').
  split.
  - etransitivity; [exact H|]. vm_compute. reflexivity.
  - apply (H' FileNotFound). vm_compute. reflexivity.
Defined.

Lemma share_lines_tape (now : GoTime.Time) :
  forall (lines : list gostring) (tape : list N) (out : gostring),
    share_lines now tape lines = Some out ->
    length (header_lines lines) <= length tape.
Proof.
  induction lines as [|l lines IH]; intros tape out H; [cbn; lia|].
  rewrite header_lines_cons. cbn [share_lines] in H.
  destruct (is_card_header l).
  - destruct tape as [|r tape]; [discriminate H|].
    destruct (initializeMetadata now r l) as [[[[l' ?] ?] ?] ?].
    destruct (share_lines now tape lines) as [out'|] eqn:E; [|discriminate H].
    apply IH in E. cbn. lia.
  - destruct (share_lines now tape lines) as [out'|] eqn:E; [|discriminate H].
    apply IH in E. cbn. lia.
Qed.

Lemma split_lines_written (ls : list gostring) :
  Forall newline_free ls -> Bufio.split_lines [] (write_lines ls) = ls.
Proof.
  induction 1 as [|l ls Hl Hls IH]; [reflexivity|].
  unfold write_lines. cbn [map concat]. rewrite <- (assoc_L app l). cbn [app].
  rewrite (split_lines_break l _ Hl []). cbn [app]. f_equal. exact IH.
Qed.

Lemma dropCR_prefix (l : gostring) : exists t, l = Bufio.dropCR l ++ t.
Proof.
  unfold Bufio.dropCR. destruct (rev l) as [|c r] eqn:E; [exists []; rewrite app_nil_r; reflexivity|].
  destruct (c =? Bufio.CR)%N; [|exists []; rewrite app_nil_r; reflexivity].
  exists [c]. rewrite <- (rev_involutive l), E. reflexivity.
Qed.

Lemma HasPrefix_app_l :
  forall (p s t : gostring),
    GoStrings.HasPrefix s p = true -> GoStrings.HasPrefix (s ++ t) p = true.
Proof.
  induction p as [|c p IH]; intros s t H; [apply HasPrefix_nil|].
  destruct s as [|x s]; [discriminate H|]. cbn in H |- *.
  apply andb_true_iff in H as [Hx H]. rewrite Hx, (IH _ _ H). reflexivity.
Qed.

Lemma header_dropCR (l : gostring) :
  is_card_header (Bufio.dropCR l) = true -> is_card_header l = true.
Proof.
  destruct (dropCR_prefix l) as [t E]. unfold is_card_header. intros H.
  rewrite E. apply orb_true_iff in H as [H|H]; [apply orb_true_iff in H as [H|H]|].
  - rewrite (HasPrefix_app_l _ _ _ H). reflexivity.
  - rewrite (HasPrefix_app_l _ _ _ H), orb_true_r. reflexivity.
  - rewrite (HasPrefix_app_l _ _ _ H), !orb_true_r. reflexivity.
Qed.

Lemma share_line_dropCR (now : GoTime.Time) (r : N) (l l' : gostring) :
  share_line now r l l' -> Bufio.dropCR l' = l'.
Proof.
  intros (kept & _ & _ & -> & _). apply dropCR_id.
  rewrite !(assoc_L app). unfold block4. rewrite !(assoc_L app).
  change (str "-->") with ([45; 45]%N ++ [62%N]). rewrite (assoc_L app).
  rewrite last_snoc. discriminate.
Qed.

Lemma share_line_newline_free (now : GoTime.Time) (r : N) (l l' : gostring) :
  clock_ok now = true -> newline_free l -> share_line now r l l' -> newline_free l'.
Proof.
  intros Hnow Hl (kept & Hk & _ & -> & _).
  apply newline_free_app. split.
  - destruct Hk as [[_ ->]|(pre & ws & b & rest & -> & -> & _)]; [exact Hl|].
    apply newline_free_app in Hl as [Hpre Hl]. apply newline_free_app in Hl as [_ Hl].
    apply newline_free_app in Hl as [_ Hl]. apply newline_free_app in Hl as [_ Hl].
    apply newline_free_app in Hl as [_ Hl]. apply newline_free_app. split; assumption.
  - apply newline_free_app. split; [reflexivity|]. rewrite block4_canonical.
    destruct (MustGenerate_shape r) as (x & id1 & Hid & _ & Hal).
    apply canonical_newline_free.
    + rewrite Hid. apply alnum_dot, Hal.
    + exists 48%N. split; reflexivity.
    + apply Format_is_date, Hnow.
    + right; left; reflexivity.
Qed.

(** The lines of a share copy, read again: a card header among them
    carries box 0, the day of the copy, and no [false]. *)
Lemma share_copy_scanned (now : GoTime.Time) (tape : list N) :
  clock_ok now = true ->
  forall (lines lines' : list gostring),
    Forall newline_free lines ->
    Forall2 (fun l l' => if is_card_header l
                         then exists r, r ∈ tape /\ share_line now r l l'
                         else l' = l) lines lines' ->
    Forall (fun l => is_card_header l = true ->
                     exists id en, carries l id (str "0") (GoTime.Format now) en
                                   /\ flag_value en = true)
      (Bufio.ScanLines (write_lines lines')).
Proof.
  intros Hnow lines lines' Hsrc HF.
  assert (Hnf : Forall newline_free lines').
  { revert Hsrc. induction HF as [|l l' ls ls' Hll HF IH]; intros Hsrc; [constructor|].
    inversion Hsrc as [|? ? Hl Hls]; subst. constructor; [|apply IH; assumption].
    destruct (is_card_header l).
    - destruct Hll as (r & _ & Hsl). eapply share_line_newline_free; eassumption.
    - subst l'. exact Hl. }
  unfold Bufio.ScanLines. rewrite (split_lines_written _ Hnf). clear Hnf Hsrc.
  induction HF as [|l l' ls ls' Hll HF IH]; [constructor|].
  cbn [map]. constructor; [|exact IH].
  destruct (is_card_header l) eqn:Hh.
  - destruct Hll as (r & _ & Hsl). rewrite (share_line_dropCR _ _ _ _ Hsl). intros _.
    destruct Hsl as (kept & _ & _ & _ & Hg).
    apply getMetadata_carries in Hg as (en & Hc & Hfv).
    2:{ destruct (MustGenerate_shape r) as (x & i' & -> & _). discriminate. }
    eauto.
  - subst l'. intros Hd. apply header_dropCR in Hd. congruence.
Qed.

(** X7. Loading a share copy: every card [OpenFile] reads from a file
    written by [CreateCopyToShare] is in box 0, due on the day the copy was
    made and enabled, whatever progress the source file recorded and whatever
    identifiers the two calls draw. *)
Theorem X7_share_copy_loads_reset (Abs : gostring -> gostring) (boxIntervals : list Z)
    (now now' : GoTime.Time) (tape tape' : list N) (fs fs1 : gmap gostring gostring)
    (s s' : Session) (path path2 : gostring) (e : option error) :
  real_date now = true -> clock_ok now' = true ->
  CreateCopyToShare Abs now tape fs path = (fs1, Returned None) ->
  path2 <> [] -> Abs path2 = share_path (Abs path) ->
  (OpenFile Abs boxIntervals now' tape' fs1 s path2).2 = Returned (s', e) ->
  Forall (fun c => Box c = 0%Z /\ Due c = today_of now /\ Enabled c = true)
    (Cards (SFile s')).
Proof.
  intros Hreal Hnow' HS Hp2 Ha2 HO.
  pose proof (real_date_clock_ok _ Hreal) as Hnow.
  unfold CreateCopyToShare in HS.
  destruct (bool_decide (path = [])); [discriminate HS|].
  destruct (fs !! Abs path) as [content|] eqn:Hfs; [|discriminate HS].
  destruct (share_lines now tape (Bufio.ScanLines content)) as [out|] eqn:HL;
    [|discriminate HS].
  inversion HS; subst fs1. clear HS.
  pose proof (share_lines_tape now _ _ _ HL) as Htape.
  destruct (share_lines_spec now Hnow _ _ (ScanLines_newline_free content) Htape)
    as (lines' & HL' & HF).
  rewrite HL in HL'. inversion HL'; subst out. clear HL'.
  pose proof (share_copy_scanned now tape Hnow _ _ (ScanLines_newline_free content) HF)
    as Hscan.
  assert (Ha2' : Abs path2 <> []).
  { rewrite Ha2. intros E. apply (f_equal length) in E.
    destruct (share_path_length (Abs path)); cbn in E; lia. }
  assert (Hfs1 : <[share_path (Abs path) := write_lines lines']> fs !! Abs path2
                 = Some (write_lines lines')).
  { rewrite Ha2. apply lookup_insert_eq. }
  pose proof (OpenFile_written Abs boxIntervals now' tape' _ s path2 _ Hp2 Ha2' Hfs1) as HW.
  destruct (normalize now' tape' ∅ (Bufio.ScanLines (write_lines lines'))) as [out|] eqn:Hn.
  2:{ rewrite HW in HO. discriminate HO. }
  destruct HW as [_ HW]. rewrite HW in HO.
  destruct (extract out) as [cards|] eqn:He; [|discriminate HO].
  inversion HO; subst. cbn [SFile Cards]. clear HO HW.
  pose proof (normalize_rewritten now' Hnow' _ _ _ _
                (ScanLines_newline_free (write_lines lines')) Hn) as HR.
  apply extract_from_headers in He as (hs & Hsub & Hfrom).
  assert (Hhs : Forall (fun h => exists id en,
                          carries h id (str "0") (GoTime.Format now) en
                          /\ flag_value en = true) hs).
  { apply Forall_forall. intros h Hh.
    assert (Hin : h ∈ header_lines out) by (eapply elem_of_sublist; eassumption).
    unfold header_lines in Hin. apply list_elem_of_filter in Hin as [Hhd Hin].
    destruct (Forall2_elem_of_r _ _ _ _ HR Hin) as (l & Hl & Hrw).
    unfold rewritten in Hrw. destruct (is_card_header l) eqn:Hhl.
    2:{ subst h. congruence. }
    rewrite Forall_forall in Hscan. destruct (Hscan l Hl Hhl) as (id & en & Hc & Hfv).
    destruct Hrw as [Hkeep _]. destruct (Hkeep _ _ _ _ Hc) as [_ Hc']. eauto. }
  clear - Hfrom Hhs Hreal. induction Hfrom as [|c h cards hs Hch Hfrom IH]; [constructor|].
  inversion Hhs as [|? ? (id & en & Hc & Hfv) Hhs']; subst.
  constructor; [|apply IH, Hhs'].
  destruct (from_header_fields c h _ _ _ _ 0%Z (today_of now) Hch Hc eq_refl
              (Parse_Format _ Hreal)) as (_ & HB & HD & HE).
  rewrite HB, HD, HE, Hfv. repeat split.
Qed.

Lemma X7_share_copy_loads_reset_witness :
  Forall (fun c => Box c = 0%Z /\ Due c = today_of sample_now /\ Enabled c = true)
    (Cards (SFile (session_after loaded_share)))
  /\ length (Cards (SFile (session_after loaded_share))) = 2.
Proof.
  split; [|vm_compute; reflexivity].
  apply (X7_share_copy_loads_reset id [] sample_now (GoTime.mkTime 2026 11 5 0)
           [7; 8; 9]%N [] {[ sample_path := deck_progress ]} fs_shared empty_session
           (session_after loaded_share) sample_path (str "/decks/go.share.md") None).
  - reflexivity.
  - reflexivity.
  - vm_compute. reflexivity.
  - discriminate.
  - vm_compute. reflexivity.
  - vm_compute. reflexivity.
Defined.
Lemma category_of_snoc (lines : list gostring) (l : gostring) :
  category_of (lines ++ [l]) = category_step (category_of lines) l.
Proof. unfold category_of. rewrite foldl_app. reflexivity. Qed.

Lemma write_lines_snoc (body : list gostring) (l : gostring) :
  write_lines (body ++ [l]) = write_lines body ++ l ++ [Bufio.LF].
Proof.
  unfold write_lines. rewrite map_app, concat_app. cbn [map concat].
  rewrite app_nil_r. reflexivity.
Qed.

Lemma write_lines_nil (body : list gostring) : write_lines body = [] -> body = [].
Proof.
  destruct body as [|l body]; [reflexivity|]. unfold write_lines. cbn [map concat].
  intros E. apply (f_equal length) in E. rewrite !length_app in E. cbn in E. lia.
Qed.

Ltac list_assoc :=
  repeat (rewrite <- (assoc_L app) || rewrite <- app_comm_cons); reflexivity.

Lemma with_back_with_back (c : Card) (b b' : gostring) :
  with_back (with_back c b) b' = with_back c b'.
Proof. reflexivity. Qed.

Lemma blocks_inv_flush (done : list gostring) (st : extractor) (l : gostring) :
  blocks_inv done st -> plain l = false ->
  currentCategory (flush_pending st) = category_of done
  /\ Forall (fun c => exists pre h body l' post,
               done ++ [l] = pre ++ h :: body ++ l' :: post /\ block_card pre h body c
               /\ plain l' = false /\ Front c <> [] /\ body <> [])
       (collected (flush_pending st))
  /\ pending (flush_pending st) = false.
Proof.
  intros (Hcat & Hcol & Hcur) Hl.
  assert (Hold : Forall (fun c => exists pre h body l' post,
               done ++ [l] = pre ++ h :: body ++ l' :: post /\ block_card pre h body c
               /\ plain l' = false /\ Front c <> [] /\ body <> []) (collected st)).
  { eapply Forall_impl; [exact Hcol|].
    intros c (pre & h & body & l' & post & -> & Hb & Hp & Hf & Hne).
    exists pre, h, body, l', (post ++ [l]).
    split; [list_assoc|]. auto. }
  unfold flush_pending. destruct (pending st) eqn:Hpend.
  2:{ split; [exact Hcat|]. split; [exact Hold|exact Hpend]. }
  split; [exact Hcat|]. split; [|reflexivity].
  cbn [appendCard collected]. apply Forall_app. split; [exact Hold|].
  constructor; [|constructor].
  destruct (readBack st).
  2:{ congruence. }
  destruct Hcur as (pre & h & body & c0 & -> & Hh & Hbody & Hg & Hc).
  unfold pending in Hpend. apply andb_true_iff in Hpend as [Hf Hb].
  rewrite Hc in Hf, Hb |- *. cbn [with_back Front Back] in Hf, Hb |- *.
  apply negb_true_iff, bool_decide_eq_false in Hf.
  apply negb_true_iff, bool_decide_eq_false in Hb.
  exists pre, h, body, l, []. split; [list_assoc|].
  split; [split; [exact Hh|split; [exact Hbody|exists c0; split; [exact Hg|reflexivity]]]|].
  split; [exact Hl|]. split; [exact Hf|].
  intros ->. apply Hb. reflexivity.
Qed.

Lemma blocks_inv_step (done : list gostring) (st st' : extractor) (l : gostring) :
  blocks_inv done st -> extract_line st l = Some st' -> blocks_inv (done ++ [l]) st'.
Proof.
  intros Hinv H. unfold extract_line in H.
  destruct (GoStrings.HasPrefix l (str "# ")) eqn:Hc.
  - assert (Hl : plain l = false) by (unfold plain; rewrite Hc; reflexivity).
    destruct (blocks_inv_flush _ _ _ Hinv Hl) as (Hcat & Hcol & Hpend).
    inversion H; subst st'. clear H. unfold blocks_inv.
    cbn [currentCategory collected readBack].
    split; [rewrite category_of_snoc; unfold category_step; rewrite Hc; reflexivity|].
    split; [exact Hcol|]. exact Hpend.
  - destruct (is_card_header l) eqn:Hh.
    + assert (Hl : plain l = false) by (unfold plain; rewrite Hh, andb_false_r; reflexivity).
      destruct (blocks_inv_flush _ _ _ Hinv Hl) as (Hcat & Hcol & Hpend).
      destruct (getCardFromLine l (currentCategory (flush_pending st))) as [card|] eqn:Hg;
        [|discriminate H].
      inversion H; subst st'. clear H. unfold blocks_inv.
      cbn [currentCategory collected readBack currentCard].
      split; [rewrite category_of_snoc; unfold category_step; rewrite Hc; exact Hcat|].
      split; [exact Hcol|].
      exists done, l, [], card. rewrite <- Hcat.
      split; [reflexivity|]. split; [exact Hh|]. split; [constructor|]. split; [exact Hg|].
      unfold getCardFromLine in Hg.
      destruct (getMetadata l) as [[[i b] d] e].
      destruct (Strconv.Atoi b); [|discriminate Hg]. cbn in Hg.
      destruct (GoTime.Parse d); [|discriminate Hg]. cbn in Hg.
      inversion Hg. reflexivity.
    + assert (Hl : plain l = true) by (unfold plain; rewrite Hc, Hh; reflexivity).
      destruct Hinv as (Hcat & Hcol & Hcur).
      assert (Hcat' : category_of (done ++ [l]) = category_of done).
      { rewrite category_of_snoc. unfold category_step. rewrite Hc. reflexivity. }
      assert (Hcol' : forall cs,
        Forall (fun c => exists pre h body l' post,
               done = pre ++ h :: body ++ l' :: post /\ block_card pre h body c
               /\ plain l' = false /\ Front c <> [] /\ body <> []) cs ->
        Forall (fun c => exists pre h body l' post,
               done ++ [l] = pre ++ h :: body ++ l' :: post /\ block_card pre h body c
               /\ plain l' = false /\ Front c <> [] /\ body <> []) cs).
      { intros cs Hcs. eapply Forall_impl; [exact Hcs|].
        intros c (pre & h & body & l' & post & -> & Hb & Hp & Hf & Hne).
        exists pre, h, body, l', (post ++ [l]).
        split; [list_assoc|]. auto. }
      destruct (readBack st) eqn:Hr; inversion H; subst st'; clear H; unfold blocks_inv.
      * cbn [currentCategory collected readBack currentCard].
        split; [congruence|]. split; [apply Hcol', Hcol|].
        destruct Hcur as (pre & h & body & c0 & -> & Hhh & Hbody & Hg & Hcc).
        exists pre, h, (body ++ [l]), c0.
        split; [list_assoc|]. split; [exact Hhh|].
        split; [apply Forall_app; split; [exact Hbody|constructor; [exact Hl|constructor]]|].
        split; [exact Hg|]. rewrite Hcc, write_lines_snoc. reflexivity.
      * rewrite Hr. split; [congruence|]. split; [apply Hcol', Hcol|exact Hcur].
Qed.

Lemma blocks_inv_steps :
  forall (lines done : list gostring) (st st' : extractor),
    blocks_inv done st -> extract_lines st lines = Some st' ->
    blocks_inv (done ++ lines) st'.
Proof.
  induction lines as [|l lines IH]; intros done st st' Hinv H; cbn [extract_lines] in H.
  - inversion H; subst. rewrite app_nil_r. exact Hinv.
  - destruct (extract_line st l) as [st1|] eqn:E; [|discriminate H].
    replace (done ++ l :: lines) with ((done ++ [l]) ++ lines)
      by list_assoc.
    eapply IH; [|exact H]. eapply blocks_inv_step; eassumption.
Qed.

(** Every card of the list is the card of a block of the lines. *)
Lemma extract_blocks (lines : list gostring) (cards : list Card) :
  extract lines = Some cards -> Forall (card_at lines) cards.
Proof.
  unfold extract. intros H.
  destruct (extract_lines (mkExtractor emptyCard [] false []) lines) as [st|] eqn:E;
    [|discriminate H].
  cbn in H. inversion H; subst cards. clear H.
  assert (H0 : blocks_inv [] (mkExtractor emptyCard [] false [])).
  { unfold blocks_inv. cbn. split; [reflexivity|]. split; [constructor|reflexivity]. }
  pose proof (blocks_inv_steps _ _ _ _ H0 E) as (Hcat & Hcol & Hcur). cbn [app] in *.
  assert (Hold : Forall (card_at lines) (collected st)).
  { eapply Forall_impl; [exact Hcol|].
    intros c (pre & h & body & l & post & -> & Hb & Hp & Hf & Hne).
    exists pre, h, body, (l :: post). auto. }
  destruct (readBack st); [|exact Hold].
  cbn [appendCard collected]. apply Forall_app. split; [exact Hold|].
  constructor; [|constructor].
  destruct Hcur as (pre & h & body & c0 & -> & Hh & Hbody & Hg & Hc).
  exists pre, h, body, []. rewrite app_nil_r. split; [reflexivity|]. split; [|exact I].
  split; [exact Hh|]. split; [exact Hbody|]. exists c0. split; [exact Hg|].
  rewrite Hc. reflexivity.
Qed.
Lemma flush_pending_category (st : extractor) :
  currentCategory (flush_pending st) = currentCategory st.
Proof. unfold flush_pending. destruct (pending st); reflexivity. Qed.

Lemma flush_pending_collected (st : extractor) (c : Card) :
  c ∈ collected st -> c ∈ collected (flush_pending st).
Proof.
  unfold flush_pending. destruct (pending st); [|auto].
  cbn [appendCard collected]. intros H. apply elem_of_app. left. exact H.
Qed.

Lemma extract_line_collected (st st' : extractor) (l : gostring) (c : Card) :
  extract_line st l = Some st' -> c ∈ collected st -> c ∈ collected st'.
Proof.
  unfold extract_line. intros H Hc.
  destruct (GoStrings.HasPrefix l (str "# ")).
  { inversion H; subst. cbn. apply flush_pending_collected, Hc. }
  destruct (is_card_header l).
  { destruct (getCardFromLine l (currentCategory (flush_pending st))); [|discriminate H].
    inversion H; subst. cbn. apply flush_pending_collected, Hc. }
  destruct (readBack st); inversion H; subst; exact Hc.
Qed.

Lemma extract_lines_collected :
  forall (lines : list gostring) (st st' : extractor) (c : Card),
    extract_lines st lines = Some st' -> c ∈ collected st -> c ∈ collected st'.
Proof.
  induction lines as [|l lines IH]; intros st st' c H Hc; cbn [extract_lines] in H.
  - inversion H; subst. exact Hc.
  - destruct (extract_line st l) as [st1|] eqn:E; [|discriminate H].
    eapply IH; [exact H|]. eapply extract_line_collected; eassumption.
Qed.

Lemma extract_lines_body :
  forall (body : list gostring) (st : extractor),
    Forall (fun l => plain l = true) body -> readBack st = true ->
    exists st',
      extract_lines st body = Some st'
      /\ currentCard st'
         = with_back (currentCard st) (Back (currentCard st) ++ write_lines body)
      /\ readBack st' = true /\ collected st' = collected st.
Proof.
  induction body as [|l body IH]; intros st Hb Hr; cbn [extract_lines].
  - exists st. split; [reflexivity|]. split; [|auto].
    unfold write_lines. cbn. rewrite app_nil_r. destruct (currentCard st); reflexivity.
  - inversion Hb as [|? ? Hl Hbody]; subst. unfold plain in Hl.
    apply andb_true_iff in Hl as [Hc Hh]. apply negb_true_iff in Hc, Hh.
    unfold extract_line. rewrite Hc, Hh, Hr.
    edestruct IH as (st' & E & Hcur & Hr' & Hcol); [exact Hbody| |].
    2:{ exists st'. split; [exact E|]. split; [|split; [exact Hr'|exact Hcol]].
        rewrite Hcur. cbn [currentCard with_back Back Id Category Front Box Due Enabled].
        unfold write_lines. cbn [map concat]. rewrite <- !(assoc_L app). reflexivity. }
    reflexivity.
Qed.

Lemma getCardFromLine_Back (l category : gostring) (c : Card) :
  getCardFromLine l category = Some c -> Back c = [].
Proof.
  unfold getCardFromLine. intros Hg.
  destruct (getMetadata l) as [[[i b] d] e].
  destruct (Strconv.Atoi b); [|discriminate Hg]. cbn in Hg.
  destruct (GoTime.Parse d); [|discriminate Hg]. cbn in Hg.
  inversion Hg. reflexivity.
Qed.

(** Every block the loop keeps gives a card of the list. *)
Lemma extract_keeps_block (lines : list gostring) (cards : list Card) (c : Card) :
  extract lines = Some cards -> card_at lines c -> c ∈ cards.
Proof.
  unfold extract. intros H (pre & h & body & post & -> & (Hh & Hbody & c0 & Hg & ->) & Hpost).
  destruct (extract_lines (mkExtractor emptyCard [] false []) (pre ++ h :: body ++ post))
    as [st|] eqn:E; [|discriminate H].
  cbn in H. inversion H; subst cards. clear H.
  rewrite extract_lines_app in E.
  destruct (extract_lines (mkExtractor emptyCard [] false []) pre) as [st1|] eqn:E1;
    [|discriminate E].
  assert (H0 : blocks_inv [] (mkExtractor emptyCard [] false [])).
  { unfold blocks_inv. cbn. split; [reflexivity|]. split; [constructor|reflexivity]. }
  pose proof (blocks_inv_steps _ _ _ _ H0 E1) as (Hcat & _ & _). cbn [app] in Hcat.
  cbn [extract_lines] in E. unfold extract_line in E.
  destruct (GoStrings.HasPrefix h (str "# ")) eqn:Hc.
  { apply category_not_header in Hc. congruence. }
  rewrite Hh, flush_pending_category, Hcat, Hg in E.
  pose proof (getCardFromLine_Back _ _ _ Hg) as HB.
  cbn [mbind option_bind] in E. rewrite extract_lines_app in E.
  edestruct (extract_lines_body body) as (st3 & E3 & Hcur & Hr3 & Hcol3);
    [exact Hbody| |rewrite E3 in E]; [reflexivity|].
  cbn [currentCard] in Hcur. rewrite HB in Hcur. cbn [app] in Hcur.
  destruct post as [|l post].
  - cbn [extract_lines] in E. inversion E; subst st. rewrite Hr3.
    cbn [appendCard collected]. apply elem_of_app. right.
    rewrite Hcur. cbn [with_back Back Id Category Front Box Due Enabled]. left.
  - destruct Hpost as (Hl & Hf & Hne). cbn [with_back Front] in Hf.
    assert (Hin : with_back c0 (GoStrings.TrimSpace (write_lines body))
                  ∈ collected (flush_pending st3)).
    { unfold flush_pending, pending, appendCard. rewrite !Hcur. cbn [with_back Front Back].
      rewrite (bool_decide_eq_false_2 _ Hf).
      rewrite bool_decide_eq_false_2 by (intros Hw; apply write_lines_nil in Hw; auto).
      cbn [negb andb appendCard collected currentCard with_back Back Id Category Front Box
           Due Enabled]. apply elem_of_app. right. left. }
    cbn [extract_lines] in E.
    destruct (extract_line st3 l) as [st4|] eqn:E4; [|discriminate E].
    assert (Hin4 : with_back c0 (GoStrings.TrimSpace (write_lines body)) ∈ collected st4).
    { unfold extract_line in E4. unfold plain in Hl.
      destruct (GoStrings.HasPrefix l (str "# ")).
      { inversion E4; subst. exact Hin. }
      destruct (is_card_header l); [|discriminate Hl].
      destruct (getCardFromLine l (currentCategory (flush_pending st3))); [|discriminate E4].
      inversion E4; subst. exact Hin. }
    pose proof (extract_lines_collected _ _ _ _ E Hin4) as Hfin.
    destruct (readBack st); [|exact Hfin].
    cbn [appendCard collected]. apply elem_of_app. left. exact Hfin.
Qed.









(** X8. The cards [OpenFile] returns are exactly the cards of the blocks
    of the lines it wrote back.  A block is a card header with the lines
    after it up to the next card header or category line; its card is what
    [getCardFromLine] reads on the header, with the trimmed text of the last
    category line before it as category, and as back the body lines, each
    followed by a newline, trimmed as a whole.  The last block always gives a
    card; a block followed by a header or category line gives one exactly
    when its front is not empty and it has at least one body line. *)
Theorem X8_cards_are_blocks (Abs : gostring -> gostring) (boxIntervals : list Z)
    (now : GoTime.Time) (tape : list N) (fs : gmap gostring gostring)
    (s s' : Session) (path content : gostring) (e : option error) :
  path <> [] -> Abs path <> [] -> fs !! Abs path = Some content ->
  (OpenFile Abs boxIntervals now tape fs s path).2 = Returned (s', e) ->
  exists out,
    normalize now tape ∅ (Bufio.ScanLines content) = Some out
    /\ (OpenFile Abs boxIntervals now tape fs s path).1 !! Abs path
       = Some (GoStrings.Join out [Bufio.LF])
    /\ forall c, c ∈ Cards (SFile s') <-> card_at out c.
Proof.
  intros Hp Ha Hfs HO.
  pose proof (OpenFile_written Abs boxIntervals now tape fs s path content Hp Ha Hfs) as HW.
  destruct (normalize now tape ∅ (Bufio.ScanLines content)) as [out|] eqn:Hn.
  2:{ rewrite HW in HO. discriminate HO. }
  destruct HW as [HW1 HW2]. rewrite HW2 in HO.
  destruct (extract out) as [cards|] eqn:He; [|discriminate HO].
  inversion HO; subst. cbn [SFile Cards].
  exists out. split; [reflexivity|]. split; [rewrite HW1; apply lookup_insert_eq|].
  intros c. split.
  - intros Hc. pose proof (extract_blocks _ _ He) as HF.
    rewrite Forall_forall in HF. apply HF, Hc.
  - apply extract_keeps_block, He.
Qed.

Lemma X8_cards_are_blocks_witness :
  exists out,
    normalize sample_now [7; 8; 9]%N ∅ (Bufio.ScanLines deck_dupl) = Some out
    /\ loaded_dupl.1 !! sample_path = Some (GoStrings.Join out [Bufio.LF])
    /\ forall c, c ∈ cards_dupl <-> card_at out c.
Proof.
  apply (X8_cards_are_blocks id [] sample_now [7; 8; 9]%N fs_dupl empty_session
           (session_after loaded_dupl) sample_path deck_dupl None).
  - discriminate.
  - discriminate.
  - reflexivity.
  - vm_compute. reflexivity.
Defined.
Lemma HasPrefix_iff :
  forall (p s : gostring), GoStrings.HasPrefix s p = true <-> exists t, s = p ++ t.
Proof.
  induction p as [|c p IH]; intros s.
  - rewrite HasPrefix_nil. split; [exists s; reflexivity|reflexivity].
  - destruct s as [|x s]; cbn [GoStrings.HasPrefix].
    + split; [discriminate|]. intros [t E]. discriminate E.
    + rewrite andb_true_iff, N.eqb_eq, IH. split.
      * intros [-> [t ->]]. exists t. reflexivity.
      * intros [t E]. inversion E. eauto.
Qed.

Lemma ToLower_app (lower : rune -> rune) (a b : gostring) :
  ToLower lower (a ++ b) = ToLower lower a ++ ToLower lower b.
Proof. apply map_app. Qed.

Lemma ToLower_nil (lower : rune -> rune) (s : gostring) :
  ToLower lower s = [] <-> s = [].
Proof. destruct s; split; intros H; try reflexivity; discriminate H. Qed.

Lemma CompareCategory_prefix (lower : rune -> rune) (category rest : gostring) :
  CompareCategory lower (category ++ rest) category = true.
Proof.
  unfold CompareCategory. destruct (bool_decide (category = [])); [reflexivity|].
  rewrite ToLower_app. apply HasPrefix_app.
Qed.

(** X9. [CompareCategory] is a prefix test that ignores case: the empty
    input matches every category; a category matches every prefix of
    itself, itself included; the answer depends on the lower-case forms of
    its arguments only, and an ASCII letter matches in either case;
    shortening the input never loses a match; and an input that is longer
    than the category never matches. *)
Theorem X9_CompareCategory (lower : rune -> rune) :
  (forall category, CompareCategory lower category [] = true)
  /\ (forall category rest, CompareCategory lower (category ++ rest) category = true)
  /\ (forall c c' i i',
        ToLower lower c = ToLower lower c' -> ToLower lower i = ToLower lower i' ->
        CompareCategory lower c i = CompareCategory lower c' i')
  /\ (forall x rest, (65 <= x <= 90)%N ->
        CompareCategory lower (x :: rest) [(x + 32)%N] = true
        /\ CompareCategory lower ((x + 32)%N :: rest) [x] = true)
  /\ (forall c i j, CompareCategory lower c (i ++ j) = true ->
                    CompareCategory lower c i = true)
  /\ (forall c i, i <> [] -> length c < length i -> CompareCategory lower c i = false).
Proof.
  split; [reflexivity|]. split; [apply CompareCategory_prefix|].
  split; [|split; [|split]].
  - intros c c' i i' Hc Hi. unfold CompareCategory. rewrite Hc, Hi.
    destruct i, i'; try reflexivity; discriminate Hi.
  - intros x rest Hx. unfold CompareCategory, ToLower, to_lower. cbn.
    replace (x <? 128)%N with true by lia. replace (x + 32 <? 128)%N with true by lia.
    replace ((65 <=? x) && (x <=? 90))%N with true by lia.
    replace ((65 <=? x + 32) && (x + 32 <=? 90))%N with false by lia.
    rewrite N.eqb_refl, HasPrefix_nil. split; reflexivity.
  - intros c i j. unfold CompareCategory.
    destruct (bool_decide (i = [])); [reflexivity|].
    destruct (bool_decide (i ++ j = [])) eqn:E.
    { apply bool_decide_eq_true in E. apply app_eq_nil in E as [-> _]. intros _.
      apply HasPrefix_nil. }
    rewrite ToLower_app, !HasPrefix_iff. intros [t ->].
    exists (ToLower lower j ++ t). rewrite <- (assoc_L app). reflexivity.
  - intros c i Hi Hlen. unfold CompareCategory.
    rewrite (bool_decide_eq_false_2 _ Hi).
    destruct (GoStrings.HasPrefix (ToLower lower c) (ToLower lower i)) eqn:H; [|reflexivity].
    apply HasPrefix_length in H. unfold ToLower in H. rewrite !length_map in H. lia.
Qed.

Lemma X9_CompareCategory_witness :
  CompareCategory id (str "Golang") (str "GO") = CompareCategory id (str "golang") (str "go")
  /\ CompareCategory id (str "Go") (str "Gopher") = false.
Proof.
  destruct (X9_CompareCategory id) as (_ & _ & H & _ & _ & H').
  split.
  - apply H; reflexivity.
  - apply H'; [discriminate|cbn; lia].
Defined.
Lemma check_cards_None (lower : rune -> rune) (category : gostring) :
  forall cards,
    check_cards lower cards category = None
    <-> exists c, c ∈ cards /\ CompareCategory lower (Category c) category = true.
Proof.
  induction cards as [|c cards IH]; cbn [check_cards].
  - split; [discriminate|]. intros (c & Hc & _). inversion Hc.
  - destruct (CompareCategory lower (Category c) category) eqn:E.
    + split; [|reflexivity]. intros _. exists c. split; [left|exact E].
    + rewrite IH. split.
      * intros (c' & Hc' & E'). exists c'. split; [right; exact Hc'|exact E'].
      * intros (c' & Hc' & E'). apply elem_of_cons in Hc' as [->|Hc']; [congruence|eauto].
Qed.

Lemma check_cards_cases (lower : rune -> rune) (category : gostring) (cards : list Card) :
  check_cards lower cards category = None
  \/ check_cards lower cards category = Some CategoryNotFound.
Proof.
  induction cards as [|c cards IH]; cbn [check_cards]; [right; reflexivity|].
  destruct (CompareCategory lower (Category c) category); [left; reflexivity|exact IH].
Qed.

(** X10. [CheckCategory] returns [nil] exactly when the category of some
    card matches the session category, and "category not found" otherwise.
    In particular it fails on a session without cards even when the session
    category is empty, although the empty input matches every category.
    After a call of [OpenFile] with a path, on a session whose category is
    empty, it succeeds exactly when [OpenFile] did. *)
Theorem X10_CheckCategory (lower : rune -> rune) :
  (forall s,
     (CheckCategory lower s = None
      <-> exists c, c ∈ Cards (SFile s)
                    /\ CompareCategory lower (Category c) (SCategory s) = true)
     /\ (CheckCategory lower s <> None -> CheckCategory lower s = Some CategoryNotFound))
  /\ (forall s, Cards (SFile s) = [] -> CheckCategory lower s = Some CategoryNotFound)
  /\ (forall s, SCategory s = [] -> Cards (SFile s) <> [] -> CheckCategory lower s = None)
  /\ (forall Abs boxIntervals now tape fs s s' path e,
        path <> [] -> SCategory s = [] ->
        (OpenFile Abs boxIntervals now tape fs s path).2 = Returned (s', e) ->
        (CheckCategory lower s' = None <-> e = None)).
Proof.
  assert (Hempty : forall s, SCategory s = [] -> Cards (SFile s) <> [] ->
                             CheckCategory lower s = None).
  { intros s Hc Hcards. unfold CheckCategory. rewrite Hc.
    destruct (Cards (SFile s)) as [|c cards]; [congruence|]. reflexivity. }
  split; [|split; [|split; [exact Hempty|]]].
  - intros s. split; [apply check_cards_None|].
    unfold CheckCategory. intros H.
    destruct (check_cards_cases lower (SCategory s) (Cards (SFile s))); [contradiction|assumption].
  - intros s H. unfold CheckCategory. rewrite H. reflexivity.
  - intros Abs boxIntervals now tape fs s s' path e Hp Hc HO.
    unfold OpenFile in HO. rewrite (bool_decide_eq_false_2 _ Hp) in HO.
    destruct (bool_decide (Abs path = [])).
    { inversion HO; subst. split; discriminate. }
    destruct (fs !! Abs path) as [content|].
    2:{ inversion HO; subst. split; discriminate. }
    destruct (normalize now tape ∅ (Bufio.ScanLines content)) as [lines|]; [|discriminate HO].
    destruct (extract lines) as [cards|]; [|discriminate HO].
    cbn in HO. destruct cards as [|c cards]; inversion HO; subst.
    + split; discriminate.
    + split; [reflexivity|]. intros _. apply Hempty; [exact Hc|discriminate].
Qed.

Lemma X10_CheckCategory_witness :
  CheckCategory id (mkSession (mkFile sample_path [] []) []) = Some CategoryNotFound
  /\ CheckCategory id (session_after loaded_dupl) = None.
Proof.
  destruct (X10_CheckCategory id) as (_ & H & _ & H').
  split.
  - apply H. reflexivity.
  - apply (H' id [] sample_now [7; 8; 9]%N fs_dupl empty_session _ sample_path None).
    + discriminate.
    + reflexivity.
    + vm_compute. reflexivity.
    + reflexivity.
Defined.
Lemma read_lines_range (i j : Z) :
  forall lines out r out',
    read_lines i j lines out = Some (r, out') -> (i <= r <= j)%Z.
Proof.
  induction lines as [|l lines IH]; intros out r out' H; cbn [read_lines] in H;
    [discriminate H|].
  destruct (Atoi l) as [nr|]; [|eapply IH, H].
  destruct ((nr <? i) || (j <? nr))%Z eqn:E; [eapply IH, H|].
  inversion H; subst. lia.
Qed.

Lemma read_keys_range (i j : Z) :
  forall reads out r out',
    read_keys i j reads out = Some (r, out') -> (i <= r <= j)%Z /\ (0 <= r <= 9)%Z.
Proof.
  induction reads as [|ev reads IH]; intros out r out' H; cbn [read_keys] in H;
    [discriminate H|].
  destruct ev as [b|]; [|eapply IH, H].
  destruct ((48 <=? b) && (b <=? 57))%N eqn:Eb; [|eapply IH, H].
  destruct ((i <=? Z.of_N b - 48) && (Z.of_N b - 48 <=? j))%Z eqn:E; [|eapply IH, H].
  inversion H; subst. lia.
Qed.

Lemma read_lines_first (i j : Z) (l : gostring) (nr : Z) (rest : list gostring) :
  Atoi l = Some nr -> (i <= nr <= j)%Z ->
  forall bad out,
    Forall (fun b => match Atoi b with
                     | Some n => (n < i \/ j < n)%Z
                     | None => True
                     end) bad ->
    read_lines i j (bad ++ l :: rest) out
    = Some (nr, out ++ concat (map (fun _ => prompt) bad)).
Proof.
  intros Hl Hnr. induction bad as [|b bad IH]; intros out Hbad; cbn [app read_lines].
  - rewrite Hl. replace ((nr <? i) || (j <? nr))%Z with false by lia.
    cbn. rewrite app_nil_r. reflexivity.
  - inversion Hbad as [|? ? Hb Hbad']; subst. cbn [map concat].
    rewrite (assoc_L app). destruct (Atoi b) as [n|]; [|apply IH, Hbad'].
    replace ((n <? i) || (j <? n))%Z with true by lia. apply IH, Hbad'.
Qed.

Lemma int_wrap_id (n : Z) : in_int n = true -> int_wrap n = n.
Proof.
  unfold in_int, int_wrap. intros H.
  rewrite Z.mod_small by lia. lia.
Qed.

Lemma int_wrap_range (n : Z) : (- 2 ^ 63 <= int_wrap n < 2 ^ 63)%Z.
Proof.
  unfold int_wrap. pose proof (Z.mod_pos_bound (n + 2 ^ 63) (2 ^ 64)). lia.
Qed.

Lemma ReadNumberInput_range (t : terminal) (i j r : Z) (out : gostring) :
  ReadNumberInput t i j = Some (r, out) -> (i <= r <= j)%Z.
Proof.
  unfold ReadNumberInput.
  destruct ((int_wrap (i - 1) <? i) || (j <? int_wrap (i - 1)))%Z eqn:E.
  - destruct t as [reads|input]; intros H.
    + apply read_keys_range in H. tauto.
    + eapply read_lines_range, H.
  - intros H. inversion H; subst. lia.
Qed.

Lemma read_lines_empty (i j : Z) :
  (j < i)%Z -> forall lines out, read_lines i j lines out = None.
Proof.
  intros Hji lines out. destruct (read_lines i j lines out) as [[r o]|] eqn:E; [|reflexivity].
  apply read_lines_range in E. lia.
Qed.

Lemma read_keys_empty (i j : Z) :
  (j < i)%Z -> forall reads out, read_keys i j reads out = None.
Proof.
  intros Hji reads out. destruct (read_keys i j reads out) as [[r o]|] eqn:E; [|reflexivity].
  apply read_keys_range in E. lia.
Qed.

Lemma ReadNumberInput_empty (t : terminal) (i j : Z) :
  (j < i)%Z -> ReadNumberInput t i j = None.
Proof.
  intros Hji. unfold ReadNumberInput.
  replace ((int_wrap (i - 1) <? i) || (j <? int_wrap (i - 1)))%Z with true by lia.
  destruct t; [apply read_keys_empty|apply read_lines_empty]; exact Hji.
Qed.

(** X11. [ReadNumberInput(i, j)] returns only numbers of [i..j]; when
    [j < i] it never returns, whatever is typed.  In raw mode it reads single
    keys, so that (for [i] above the least [int]) it returns only numbers of
    [0..9].  In the fallback it returns the number of the first line that
    [strconv.Atoi] reads as a number of [i..j], having printed one prompt for
    every line before; no such line, and it never returns. *)
Theorem X11_ReadNumberInput (t : terminal) (i j : Z) :
  (forall r out, ReadNumberInput t i j = Some (r, out) -> (i <= r <= j)%Z)
  /\ ((j < i)%Z -> ReadNumberInput t i j = None)
  /\ (forall reads r out,
        in_int (i - 1) = true ->
        ReadNumberInput (Raw reads) i j = Some (r, out) -> (0 <= r <= 9)%Z)
  /\ (forall input bad l rest nr,
        in_int (i - 1) = true ->
        Bufio.ScanLines input = bad ++ l :: rest ->
        Forall (fun b => match Atoi b with
                         | Some n => (n < i \/ j < n)%Z
                         | None => True
                         end) bad ->
        Atoi l = Some nr -> (i <= nr <= j)%Z ->
        ReadNumberInput (Cooked input) i j
        = Some (nr, concat (map (fun _ => prompt) bad)))
  /\ (forall input,
        in_int (i - 1) = true ->
        Forall (fun b => match Atoi b with
                         | Some n => (n < i \/ j < n)%Z
                         | None => True
                         end) (Bufio.ScanLines input) ->
        ReadNumberInput (Cooked input) i j = None).
Proof.
  split; [intros r out; apply ReadNumberInput_range|].
  split; [apply ReadNumberInput_empty|].
  split; [|split].
  - intros reads r out Hi. unfold ReadNumberInput. rewrite (int_wrap_id _ Hi).
    replace ((i - 1 <? i) || (j <? i - 1))%Z with true by lia.
    intros H. apply read_keys_range in H. tauto.
  - intros input bad l rest nr Hi Hscan Hbad Hl Hnr. unfold ReadNumberInput.
    rewrite (int_wrap_id _ Hi).
    replace ((i - 1 <? i) || (j <? i - 1))%Z with true by lia.
    rewrite Hscan. apply (read_lines_first i j l nr rest Hl Hnr bad [] Hbad).
  - intros input Hi Hbad. unfold ReadNumberInput. rewrite (int_wrap_id _ Hi).
    replace ((i - 1 <? i) || (j <? i - 1))%Z with true by lia.
    generalize (@nil N) as out. induction Hbad as [|b bad Hb Hbad IH]; intros out;
      cbn [read_lines]; [reflexivity|].
    destruct (Atoi b) as [n|]; [|apply IH].
    replace ((n <? i) || (j <? n))%Z with true by lia. apply IH.
Qed.

Lemma X11_ReadNumberInput_witness :
  ReadNumberInput (Cooked (str ("x" ++ LFs ++ "7" ++ LFs ++ "+2" ++ LFs ++ "1" ++ LFs))) 1 3
  = Some (2%Z, prompt ++ prompt)
  /\ ReadNumberInput (Raw [Some 55%N; None; Some 50%N]) 1 0 = None.
Proof.
  destruct (X11_ReadNumberInput
              (Cooked (str ("x" ++ LFs ++ "7" ++ LFs ++ "+2" ++ LFs ++ "1" ++ LFs))) 1 3)
    as (_ & _ & _ & H & _).
  destruct (X11_ReadNumberInput (Raw [Some 55%N; None; Some 50%N]) 1 0) as (_ & H0 & _).
  split.
  - apply (H _ [str "x"; str "7"] (str "+2") [str "1"] 2%Z).
    + reflexivity.
    + reflexivity.
    + constructor; [exact I|]. constructor; [|constructor].
      vm_compute. right. reflexivity.
    + reflexivity.
    + lia.
  - apply H0. lia.
Defined.
Lemma foldl_add_category (cards : list Card) :
  forall acc,
    NoDup acc ->
    NoDup (foldl add_category acc cards)
    /\ forall c, c ∈ foldl add_category acc cards
                 <-> c ∈ acc \/ exists card, card ∈ cards /\ Category card = c.
Proof.
  induction cards as [|card cards IH]; intros acc Hacc; cbn [foldl].
  - split; [exact Hacc|]. intros c. split; [auto|]. intros [H|(card & H & _)]; [exact H|].
    inversion H.
  - assert (Hnd : NoDup (add_category acc card)).
    { unfold add_category. destruct (bool_decide (Category card ∈ acc)) eqn:E; [exact Hacc|].
      apply bool_decide_eq_false in E. apply NoDup_app. split; [exact Hacc|].
      split; [|apply NoDup_singleton].
      intros x Hx Hx'. apply list_elem_of_singleton in Hx'. subst x. contradiction. }
    destruct (IH _ Hnd) as [HN HE]. split; [exact HN|].
    intros c. rewrite HE. unfold add_category.
    destruct (bool_decide (Category card ∈ acc)) eqn:E.
    + apply bool_decide_eq_true in E. split.
      * intros [H|(card' & H & Hc)]; [auto|]. right. exists card'. split; [right; exact H|exact Hc].
      * intros [H|(card' & H & Hc)]; [auto|].
        apply elem_of_cons in H as [->|H]; [left; subst c; exact E|]. right. eauto.
    + split.
      * intros [H|(card' & H & Hc)].
        -- apply elem_of_app in H as [H|H]; [auto|].
           apply list_elem_of_singleton in H. right. exists card. split; [left|auto].
        -- right. exists card'. split; [right; exact H|exact Hc].
      * intros [H|(card' & H & Hc)]; [left; apply elem_of_app; auto|].
        apply elem_of_cons in H as [->|H].
        -- left. apply elem_of_app. right. subst c. left.
        -- right. eauto.
Qed.

Lemma categories_of_spec (cards : list Card) :
  NoDup (categories_of cards)
  /\ forall c, c ∈ categories_of cards <-> exists card, card ∈ cards /\ Category card = c.
Proof.
  destruct (foldl_add_category cards [] (NoDup_nil_2)) as [HN HE].
  split; [exact HN|]. intros c. rewrite HE. split; [|auto].
  intros [H|H]; [inversion H|exact H].
Qed.

Lemma CompareCategory_refl (lower : rune -> rune) (c : gostring) :
  CompareCategory lower c c = true.
Proof.
  pose proof (CompareCategory_prefix lower c []) as H. rewrite app_nil_r in H. exact H.
Qed.

Lemma ChooseCategory_returns (t : terminal) (s s' : Session) (out : gostring) :
  ChooseCategory t s = Some (Returned (s', out)) ->
  exists choice out',
    ReadNumberInput t 1 (Z.of_nat (length (categories_of (Cards (SFile s)))))
      = Some (choice, out')
    /\ (1 <= choice <= Z.of_nat (length (categories_of (Cards (SFile s)))))%Z
    /\ categories_of (Cards (SFile s)) !! Z.to_nat (choice - 1) = Some (SCategory s')
    /\ SFile s' = SFile s.
Proof.
  unfold ChooseCategory. intros H.
  destruct (ReadNumberInput t 1 (Z.of_nat (length (categories_of (Cards (SFile s))))))
    as [[choice out']|] eqn:E; [|discriminate H].
  cbn [mbind option_bind] in H. pose proof (ReadNumberInput_range _ _ _ _ _ E) as Hr.
  destruct (0 <=? choice - 1)%Z; [|discriminate H].
  destruct (categories_of (Cards (SFile s)) !! Z.to_nat (choice - 1)) as [c|] eqn:L;
    [|discriminate H].
  inversion H; subst. exists choice, out'. cbn. auto.
Qed.

(** X12. [ChooseCategory] never panics: the index it uses is in range.
    On a session without cards it never returns, whatever is typed.  When it
    returns, it has changed the session category only, to the category of
    one of the cards, so that [CheckCategory] then succeeds; the categories
    offered are those of the cards, each once; and in raw mode only one of
    the first nine can be chosen. *)
Theorem X12_ChooseCategory (lower : rune -> rune) (t : terminal) (s : Session) :
  ChooseCategory t s <> Some Panicked
  /\ (Cards (SFile s) = [] -> ChooseCategory t s = None)
  /\ (NoDup (categories_of (Cards (SFile s)))
      /\ forall c, c ∈ categories_of (Cards (SFile s))
                   <-> exists card, card ∈ Cards (SFile s) /\ Category card = c)
  /\ (forall s' out,
        ChooseCategory t s = Some (Returned (s', out)) ->
        SFile s' = SFile s
        /\ SCategory s' ∈ categories_of (Cards (SFile s))
        /\ CheckCategory lower s' = None
        /\ (forall reads, t = Raw reads ->
              SCategory s' ∈ take 9 (categories_of (Cards (SFile s))))).
Proof.
  split; [|split; [|split; [apply categories_of_spec|]]].
  - unfold ChooseCategory.
    destruct (ReadNumberInput t 1 (Z.of_nat (length (categories_of (Cards (SFile s))))))
      as [[choice out']|] eqn:E; [|discriminate].
    cbn [mbind option_bind]. pose proof (ReadNumberInput_range _ _ _ _ _ E) as Hr.
    replace (0 <=? choice - 1)%Z with true by lia.
    destruct (categories_of (Cards (SFile s)) !! Z.to_nat (choice - 1)) as [c|] eqn:L;
      [discriminate|].
    apply lookup_ge_None in L. lia.
  - intros H. unfold ChooseCategory. rewrite H. cbn [categories_of foldl length].
    rewrite ReadNumberInput_empty by lia. reflexivity.
  - intros s' out H.
    apply ChooseCategory_returns in H as (choice & out' & E & Hr & L & HF).
    assert (Hin : SCategory s' ∈ categories_of (Cards (SFile s))).
    { eapply list_elem_of_lookup_2, L. }
    split; [exact HF|]. split; [exact Hin|]. split.
    + unfold CheckCategory. apply check_cards_None. rewrite HF.
      apply categories_of_spec in Hin as (card & Hcard & Hc).
      exists card. split; [exact Hcard|]. rewrite Hc. apply CompareCategory_refl.
    + intros reads ->. unfold ReadNumberInput in E. rewrite int_wrap_id in E by reflexivity.
      replace ((1 - 1 <? 1) || (Z.of_nat (length (categories_of (Cards (SFile s)))) <? 1 - 1))%Z
        with true in E by lia.
      apply read_keys_range in E as [_ E9].
      apply (list_elem_of_lookup_2 _ (Z.to_nat (choice - 1))).
      rewrite lookup_take_lt by lia. exact L.
Qed.

Lemma X12_ChooseCategory_witness :
  ChooseCategory (Raw [Some 52%N; Some 49%N]) (session_after loaded_dupl)
  = Some (Returned
      (mkSession (SFile (session_after loaded_dupl)) (str "Go"),
       str ("Please select the category you want to study:" ++ LFs ++ "(1) Go" ++ LFs
            ++ "Your choice: Please enter a number: 4" ++ LFs
            ++ "Please enter a number: 1" ++ LFs)))
  /\ CheckCategory id (mkSession (SFile (session_after loaded_dupl)) (str "Go")) = None.
Proof.
  assert (H : ChooseCategory (Raw [Some 52%N; Some 49%N]) (session_after loaded_dupl)
              = Some (Returned
                  (mkSession (SFile (session_after loaded_dupl)) (str "Go"),
                   str ("Please select the category you want to study:" ++ LFs ++ "(1) Go"
                        ++ LFs ++ "Your choice: Please enter a number: 4" ++ LFs
                        ++ "Please enter a number: 1" ++ LFs))))
    by (vm_compute; reflexivity).
  split; [exact H|].
  destruct (X12_ChooseCategory id (Raw [Some 52%N; Some 49%N]) (session_after loaded_dupl))
    as (_ & _ & _ & H').
  apply (H' _ _ H).
Defined.

(* ================================================================== *)
(** * [FormatMarkdown] *)
(* ================================================================== *)

Section MarkdownFacts.
Import Markdown.

Lemma exec_lits_miss {A : Type} :
  forall (d t : gostring) caps (K : gostring -> list gostring -> option A),
    GoStrings.HasPrefix t d = false -> exec (lits d) t caps K = None.
Proof.
  induction d as [|c d IH]; intros t caps K H.
  - rewrite HasPrefix_nil in H. discriminate H.
  - destruct t as [|x t]; [destruct d; reflexivity|].
    cbn [GoStrings.HasPrefix] in H. destruct d as [|c2 d].
    + cbn [lits exec]. rewrite HasPrefix_nil, andb_true_r in H. rewrite H. reflexivity.
    + change (lits (c :: c2 :: d)) with (Cat (Lit c) (lits (c2 :: d))).
      rewrite exec_Cat. cbn [exec]. destruct (x =? c)%N; [|reflexivity].
      apply IH. exact H.
Qed.

Lemma HasPrefix_head (c x : rune) (d t : gostring) :
  x <> c -> GoStrings.HasPrefix (x :: t) (c :: d) = false.
Proof.
  intros H. cbn [GoStrings.HasPrefix]. apply N.eqb_neq in H. rewrite H. reflexivity.
Qed.

Lemma preplace_all_skip (r : pattern) (template : list piece) :
  forall w s, preplace_all r template (length w) (w ++ s) = preplace_all r template 0 s.
Proof.
  induction w as [|x w IH]; intros s; simpl.
  - destruct s; reflexivity.
  - apply IH.
Qed.

Lemma preplace_all_cons (r : pattern) (template : list piece) (c : rune) (s : gostring) :
  pmatch_here r (c :: s) = None ->
  preplace_all r template 0 (c :: s) = c :: preplace_all r template 0 s.
Proof. intros H. cbn [preplace_all]. rewrite H. reflexivity. Qed.

Lemma preplace_all_prefix (r : pattern) (template : list piece) :
  forall pre s,
    (forall i, i < length pre -> pmatch_here r (drop i (pre ++ s)) = None) ->
    preplace_all r template 0 (pre ++ s) = pre ++ preplace_all r template 0 s.
Proof.
  induction pre as [|x pre IH]; intros s Hpre; [reflexivity|].
  pose proof (Hpre 0 ltac:(simpl; lia)) as H0. cbn [app drop] in H0 |- *.
  rewrite (preplace_all_cons _ _ _ _ H0). f_equal. apply IH.
  intros i Hi. apply (Hpre (S i)). simpl. lia.
Qed.

Lemma preplace_all_match (r : pattern) (template : list piece) (w rest : gostring) caps :
  w <> [] ->
  pmatch_here r (w ++ rest) = Some (caps, rest) ->
  preplace_all r template 0 (w ++ rest)
  = Expand template caps ++ preplace_all r template 0 rest.
Proof.
  intros Hw Hm. destruct w as [|x w]; [congruence|].
  change ((x :: w) ++ rest) with (x :: (w ++ rest)) in *.
  cbn [preplace_all]. rewrite Hm.
  replace (length (x :: w ++ rest) - length rest) with (S (length w))
    by (simpl; rewrite length_app; lia).
  rewrite preplace_all_skip. reflexivity.
Qed.

Lemma begins_with_span (c : rune) (d : gostring) : begins_with (span_re (c :: d)) c.
Proof.
  split.
  - intros x s Hx. unfold pmatch_here, span_re. cbn [pexec].
    apply exec_lits_miss, HasPrefix_head, Hx.
  - unfold pmatch_here, span_re. cbn [pexec]. apply exec_lits_miss. reflexivity.
Qed.

Lemma begins_with_link : begins_with linkRe 91.
Proof.
  split.
  - intros x s Hx. unfold pmatch_here, linkRe. cbn [pexec]. rewrite exec_cat_cons.
    apply exec_Lit_miss, Hx.
  - reflexivity.
Qed.

(** Text without the first character of a pattern is copied. *)
Lemma preplace_all_free (r : pattern) (template : list piece) (c : rune) :
  begins_with r c ->
  forall pre s, Forall (fun x => x <> c) pre ->
    preplace_all r template 0 (pre ++ s) = pre ++ preplace_all r template 0 s.
Proof.
  intros [Hb _] pre s Hpre. apply preplace_all_prefix. intros i Hi.
  rewrite drop_app_le by lia.
  destruct (drop i pre) as [|x p] eqn:E.
  { apply (f_equal length) in E. rewrite length_drop in E. cbn in E. lia. }
  cbn [app]. apply Hb.
  assert (Hin : x ∈ pre).
  { rewrite <- (take_drop i pre), E. apply elem_of_app. right. left. }
  rewrite Forall_forall in Hpre. apply Hpre, Hin.
Qed.

Lemma preplace_all_free_all (r : pattern) (template : list piece) (c : rune) (s : gostring) :
  begins_with r c -> Forall (fun x => x <> c) s -> preplace_all r template 0 s = s.
Proof.
  intros Hb Hs. rewrite <- (app_nil_r s) at 1.
  rewrite (preplace_all_free r template c Hb s [] Hs). apply app_nil_r.
Qed.

Lemma lazy_star_here {A : Type} (p : rune -> bool) (k : gostring -> option A)
    (t : gostring) (a : A) :
  k t = Some a -> lazy_star p k t = Some a.
Proof. intros H. destruct t; cbn [lazy_star]; rewrite H; reflexivity. Qed.

Lemma lazy_star_skip {A : Type} (p : rune -> bool) (k : gostring -> option A) :
  forall (w t : gostring),
    forallb p w = true ->
    (forall i, i < length w -> k (drop i (w ++ t)) = None) ->
    lazy_star p k (w ++ t) = lazy_star p k t.
Proof.
  induction w as [|x w IH]; intros t Hw Hk; [reflexivity|].
  cbn [forallb] in Hw. apply andb_true_iff in Hw as [Hx Hw].
  pose proof (Hk 0 ltac:(simpl; lia)) as H0. cbn [drop app] in H0.
  cbn [app lazy_star]. rewrite H0, Hx. apply IH; [exact Hw|].
  intros i Hi. apply (Hk (S i)). simpl. lia.
Qed.

Lemma take_rest (w t s : gostring) : s = w ++ t -> take (length s - length t) s = w.
Proof. intros ->. apply take_app_rest. Qed.

Lemma NumSubexp_lits (d : gostring) : Regexp.NumSubexp (lits d) = 0.
Proof.
  induction d as [|c d IH]; [reflexivity|]. destruct d as [|c2 d]; [reflexivity|].
  change (lits (c :: c2 :: d)) with (Cat (Lit c) (lits (c2 :: d))).
  cbn [Regexp.NumSubexp]. rewrite IH. reflexivity.
Qed.

(** An emphasis pattern matches its delimiter, the shortest text after
    which the delimiter comes again, and that delimiter. *)
Lemma pmatch_here_span (c : rune) (d x b : gostring) :
  x <> [] -> Forall (fun y => y <> c) x ->
  pmatch_here (span_re (c :: d)) ((c :: d) ++ x ++ (c :: d) ++ b)
  = Some ([(c :: d) ++ x ++ (c :: d); x], b).
Proof.
  intros Hx Hfree. destruct x as [|x0 x]; [congruence|].
  inversion Hfree as [|? ? _ Hfree']; subst.
  unfold pmatch_here, span_re. cbn [pexec PNumSubexp]. rewrite !NumSubexp_lits.
  change (replicate (S _) []) with [[]; [] : gostring].
  rewrite (runs_lits (c :: d)).
  change ((x0 :: x) ++ (c :: d) ++ b) with ([x0] ++ x ++ (c :: d) ++ b).
  rewrite (runs_Cls any x0 eq_refl).
  rewrite lazy_star_skip.
  - apply lazy_star_here. rewrite (runs_lits (c :: d)).
    rewrite (take_rest (x0 :: x) ((c :: d) ++ b)) by reflexivity.
    rewrite (take_rest ((c :: d) ++ (x0 :: x) ++ (c :: d)) b) by list_assoc.
    reflexivity.
  - clear. induction x; [reflexivity|]. exact IHx.
  - intros i Hi. rewrite drop_app_le by lia.
    destruct (drop i x) as [|y p] eqn:E.
    { apply (f_equal length) in E. rewrite length_drop in E. cbn in E. lia. }
    cbn [app]. apply exec_lits_miss, HasPrefix_head.
    assert (Hin : y ∈ x).
    { rewrite <- (take_drop i x), E. apply elem_of_app. right. left. }
    rewrite Forall_forall in Hfree'. apply Hfree', Hin.
Qed.
Lemma star_stop {A : Type} (p : rune -> bool) (k : gostring -> option A)
    (w t : gostring) (a : A) :
  forallb p w = true -> k t = Some a ->
  match t with x :: _ => p x = false | [] => True end ->
  star p k (w ++ t) = Some a.
Proof.
  intros Hw Hk Ht. apply star_longest; [exact Hw|exact Hk|].
  intros u v E Hu Hpu. exfalso. destruct u as [|x u]; [congruence|].
  cbn [forallb] in Hpu. apply andb_true_iff in Hpu as [Hx _].
  destruct t as [|y t]; [discriminate E|]. inversion E; subst. congruence.
Qed.

Lemma Forall_ne_forallb (c : rune) (l : gostring) :
  Forall (fun y => y <> c) l -> forallb (fun y => negb (y =? c)%N) l = true.
Proof.
  induction 1 as [|y l Hy Hl IH]; [reflexivity|]. cbn [forallb].
  apply N.eqb_neq in Hy. rewrite Hy, IH. reflexivity.
Qed.

(** The link pattern on a link. *)
Lemma pmatch_here_link (l u b : gostring) :
  l <> [] -> u <> [] -> Forall (fun y => y <> 93%N) l -> Forall (fun y => y <> 41%N) u ->
  pmatch_here linkRe (91%N :: l ++ str "](" ++ u ++ 41%N :: b)
  = Some ([91%N :: l ++ str "](" ++ u ++ [41%N]; l; u], b).
Proof.
  intros Hl Hu Hfl Hfu.
  destruct l as [|l0 l]; [congruence|]. destruct u as [|u0 u]; [congruence|].
  inversion Hfl as [|? ? Hl0 Hfl']; subst. inversion Hfu as [|? ? Hu0 Hfu']; subst.
  unfold pmatch_here, linkRe. cbn [pexec].
  change (replicate (S _) []) with [[]; []; [] : gostring].
  rewrite exec_cat_cons. cbn [exec]. rewrite N.eqb_refl.
  rewrite exec_cat_cons. cbn [exec app].
  replace (not_rbracket l0) with true
    by (unfold not_rbracket; apply N.eqb_neq in Hl0; rewrite Hl0; reflexivity).
  apply star_stop; [apply Forall_ne_forallb, Hfl'| |reflexivity].
  rewrite exec_cat_cons, (runs_lits (str "](")).
  rewrite exec_cat_cons. cbn [exec app].
  replace (not_rparen u0) with true
    by (unfold not_rparen; apply N.eqb_neq in Hu0; rewrite Hu0; reflexivity).
  apply star_stop; [apply Forall_ne_forallb, Hfu'| |reflexivity].
  rewrite exec_cat_cons. cbn [exec]. rewrite N.eqb_refl, exec_cat_nil.
  rewrite (take_rest (l0 :: l) (str "](" ++ u0 :: u ++ 41%N :: b)) by reflexivity.
  rewrite (take_rest (u0 :: u) (41%N :: b)) by reflexivity.
  rewrite (take_rest (91%N :: (l0 :: l) ++ str "](" ++ (u0 :: u) ++ [41%N]) b) by list_assoc.
  reflexivity.
Qed.
Lemma unmarked_free (s : gostring) :
  unmarked s ->
  Forall (fun y => y <> 91%N) s /\ Forall (fun y => y <> 42%N) s
  /\ Forall (fun y => y <> 95%N) s.
Proof.
  unfold unmarked. induction s as [|c s IH]; intros H; [repeat split; constructor|].
  cbn [forallb] in H. apply andb_true_iff in H as [Hc Hs].
  destruct (IH Hs) as (H1 & H2 & H3). unfold is_markup in Hc.
  repeat split; constructor; try assumption; lia.
Qed.

Lemma pass_free (r : pattern) (template : list piece) (c : rune) (s : gostring) :
  begins_with r c -> Forall (fun x => x <> c) s -> ReplaceAllString r s template = s.
Proof. apply preplace_all_free_all. Qed.

Lemma pass_span (c : rune) (d : gostring) (code : rune) (a x b : gostring) :
  Forall (fun y => y <> c) a -> Forall (fun y => y <> c) x -> Forall (fun y => y <> c) b ->
  x <> [] ->
  ReplaceAllString (span_re (c :: d)) (a ++ (c :: d) ++ x ++ (c :: d) ++ b)
    (style_template code)
  = a ++ sgr code ++ x ++ sgr 48 ++ b.
Proof.
  intros Ha Hx Hb Hne. unfold ReplaceAllString.
  rewrite (preplace_all_free _ _ c (begins_with_span c d) a _ Ha).
  rewrite !(assoc_L app _ _ b).
  rewrite (preplace_all_match _ _ _ b [(c :: d) ++ x ++ (c :: d); x]).
  - rewrite (preplace_all_free_all _ _ c b (begins_with_span c d) Hb).
    cbn [Expand style_template map concat nth]. rewrite app_nil_r, <- !(assoc_L app).
    reflexivity.
  - discriminate.
  - rewrite <- !(assoc_L app). apply pmatch_here_span; assumption.
Qed.

Lemma pmatch_here_single (c y : rune) (s : gostring) :
  y <> c -> pmatch_here (span_re [c; c]) (c :: y :: s) = None.
Proof.
  intros Hy. unfold pmatch_here, span_re. cbn [pexec]. apply exec_lits_miss.
  cbn [GoStrings.HasPrefix]. apply N.eqb_neq in Hy. rewrite Hy, andb_false_r. reflexivity.
Qed.

Lemma pmatch_here_single_end (c : rune) :
  pmatch_here (span_re [c; c]) [c] = None.
Proof.
  unfold pmatch_here, span_re. cbn [pexec]. apply exec_lits_miss.
  cbn [GoStrings.HasPrefix]. apply andb_false_r.
Qed.

(** Single delimiters are nothing to the pattern of the doubled one. *)
Lemma pass_single (c : rune) (template : list piece) (a x b : gostring) :
  Forall (fun y => y <> c) a -> Forall (fun y => y <> c) x -> Forall (fun y => y <> c) b ->
  x <> [] ->
  ReplaceAllString (span_re [c; c]) (a ++ [c] ++ x ++ [c] ++ b) template
  = a ++ [c] ++ x ++ [c] ++ b.
Proof.
  intros Ha Hx Hb Hne. unfold ReplaceAllString.
  change (a ++ [c] ++ x ++ [c] ++ b) with (a ++ c :: x ++ c :: b).
  pose proof (begins_with_span c [c]) as Hbw.
  rewrite (preplace_all_free _ _ c Hbw a _ Ha). f_equal.
  destruct x as [|x0 x]; [congruence|]. inversion Hx as [|? ? Hx0 Hx']; subst.
  rewrite preplace_all_cons by (apply pmatch_here_single, Hx0). f_equal.
  rewrite (preplace_all_free _ _ c Hbw (x0 :: x) _ Hx). f_equal.
  destruct b as [|b0 b].
  - rewrite preplace_all_cons by apply pmatch_here_single_end. reflexivity.
  - inversion Hb as [|? ? Hb0 Hb']; subst.
    rewrite preplace_all_cons by (apply pmatch_here_single, Hb0). f_equal.
    apply (preplace_all_free_all _ _ c _ Hbw Hb).
Qed.

Lemma pass_link (a l u b : gostring) :
  Forall (fun y => y <> 91%N) a -> Forall (fun y => y <> 91%N) b ->
  Forall (fun y => y <> 93%N) l -> Forall (fun y => y <> 41%N) u ->
  l <> [] -> u <> [] ->
  ReplaceAllString linkRe (a ++ 91%N :: l ++ str "](" ++ u ++ 41%N :: b) link_template
  = a ++ l ++ str " (" ++ u ++ 41%N :: b.
Proof.
  intros Ha Hb Hl Hu Hln Hun. unfold ReplaceAllString.
  rewrite (preplace_all_free _ _ 91 begins_with_link a _ Ha). f_equal.
  replace (91%N :: l ++ str "](" ++ u ++ 41%N :: b)
    with ((91%N :: l ++ str "](" ++ u ++ [41%N]) ++ b) by list_assoc.
  rewrite (preplace_all_match _ _ _ b [91%N :: l ++ str "](" ++ u ++ [41%N]; l; u]).
  - rewrite (preplace_all_free_all _ _ 91 b begins_with_link Hb).
    cbn [Expand link_template map concat nth]. rewrite app_nil_r, <- !(assoc_L app).
    reflexivity.
  - discriminate.
  - replace ((91%N :: l ++ str "](" ++ u ++ [41%N]) ++ b)
      with (91%N :: l ++ str "](" ++ u ++ 41%N :: b) by list_assoc.
    apply pmatch_here_link; assumption.
Qed.

Ltac solve_free :=
  repeat first
    [ assumption
    | apply Forall_app; split
    | apply Forall_cons; split; [discriminate|]
    | apply Forall_nil; exact I
    | constructor; [discriminate|] ].
(** X13. [FormatMarkdown] leaves a text without [[], [*] and [_]
    unchanged. *)
Theorem X13_FormatMarkdown_plain (s : gostring) :
  unmarked s -> FormatMarkdown s = s.
Proof.
  intros H. apply unmarked_free in H as (H1 & H2 & H3). unfold FormatMarkdown.
  rewrite (pass_free linkRe _ 91 s begins_with_link H1).
  rewrite (pass_free boldRe1 _ 42 s (begins_with_span 42 _) H2).
  rewrite (pass_free boldRe2 _ 95 s (begins_with_span 95 _) H3).
  rewrite (pass_free italicRe1 _ 42 s (begins_with_span 42 _) H2).
  apply (pass_free italicRe2 _ 95 s (begins_with_span 95 _) H3).
Qed.

Lemma X13_FormatMarkdown_plain_witness :
  FormatMarkdown (str "A view of an array.") = str "A view of an array.".
Proof. apply X13_FormatMarkdown_plain. reflexivity. Defined.

(** X14. One emphasised stretch in a text without other markup: between
    doubled stars or doubled underscores the stretch comes out in bold,
    between single ones in italics, the delimiters are removed and the text
    around is unchanged. *)
Theorem X14_FormatMarkdown_emphasis (a x b : gostring) :
  unmarked a -> unmarked x -> unmarked b -> x <> [] ->
  FormatMarkdown (a ++ str "**" ++ x ++ str "**" ++ b) = a ++ bold x ++ b
  /\ FormatMarkdown (a ++ str "__" ++ x ++ str "__" ++ b) = a ++ bold x ++ b
  /\ FormatMarkdown (a ++ str "*" ++ x ++ str "*" ++ b) = a ++ italic x ++ b
  /\ FormatMarkdown (a ++ str "_" ++ x ++ str "_" ++ b) = a ++ italic x ++ b.
Proof.
  intros Ha Hx Hb Hne.
  apply unmarked_free in Ha as (Ha1 & Ha2 & Ha3).
  apply unmarked_free in Hx as (Hx1 & Hx2 & Hx3).
  apply unmarked_free in Hb as (Hb1 & Hb2 & Hb3).
  unfold bold, italic, FormatMarkdown, boldRe1, boldRe2, italicRe1, italicRe2.
  change (str "**") with [42; 42]%N. change (str "__") with [95; 95]%N.
  change (str "*") with [42]%N. change (str "_") with [95]%N.
  pose proof (begins_with_span 42 [42%N]) as B1. pose proof (begins_with_span 95 [95%N]) as B2.
  pose proof (begins_with_span 42 []) as I1. pose proof (begins_with_span 95 []) as I2.
  unfold sgr. rewrite <- !(assoc_L app). repeat split.
  - rewrite (pass_free linkRe _ 91 _ begins_with_link) by solve_free.
    rewrite (pass_span 42 [42%N] 49 a x b) by assumption. unfold sgr.
    rewrite (pass_free _ _ 95 _ B2) by solve_free.
    rewrite (pass_free _ _ 42 _ I1) by solve_free.
    apply (pass_free _ _ 95 _ I2). solve_free.
  - rewrite (pass_free linkRe _ 91 _ begins_with_link) by solve_free.
    rewrite (pass_free _ _ 42 _ B1) by solve_free.
    rewrite (pass_span 95 [95%N] 49 a x b) by assumption. unfold sgr.
    rewrite (pass_free _ _ 42 _ I1) by solve_free.
    apply (pass_free _ _ 95 _ I2). solve_free.
  - rewrite (pass_free linkRe _ 91 _ begins_with_link) by solve_free.
    rewrite (pass_single 42 _ a x b) by assumption.
    rewrite (pass_free _ _ 95 _ B2) by solve_free.
    rewrite (pass_span 42 [] 51 a x b) by assumption. unfold sgr.
    apply (pass_free _ _ 95 _ I2). solve_free.
  - rewrite (pass_free linkRe _ 91 _ begins_with_link) by solve_free.
    rewrite (pass_free _ _ 42 _ B1) by solve_free.
    rewrite (pass_single 95 _ a x b) by assumption.
    rewrite (pass_free _ _ 42 _ I1) by solve_free.
    apply (pass_span 95 [] 51 a x b); assumption.
Qed.

Lemma X14_FormatMarkdown_emphasis_witness :
  FormatMarkdown (str "A " ++ str "**" ++ str "rune" ++ str "**" ++ str " is a code point.")
  = str "A " ++ bold (str "rune") ++ str " is a code point."
  /\ FormatMarkdown (str "A " ++ str "_" ++ str "rune" ++ str "_" ++ str " is a code point.")
     = str "A " ++ italic (str "rune") ++ str " is a code point.".
Proof.
  destruct (X14_FormatMarkdown_emphasis (str "A ") (str "rune") (str " is a code point."))
    as (H1 & _ & _ & H4); try reflexivity; [discriminate|].
  split; [exact H1|exact H4].
Defined.
(** X15. A link [[label](url)] in a text without other markup becomes
    [label (url)].  The link is converted before the emphasis patterns run,
    but its URL is not protected from them: a URL with two underscores comes
    out with the stretch between them in italics and the underscores
    removed. *)
Theorem X15_FormatMarkdown_link (a l b : gostring) :
  unmarked a -> unmarked l -> unmarked b ->
  Forall (fun y => y <> 93%N) l -> l <> [] ->
  (forall u, unmarked u -> Forall (fun y => y <> 41%N) u -> u <> [] ->
     FormatMarkdown (a ++ [91%N] ++ l ++ str "](" ++ u ++ [41%N] ++ b)
     = a ++ l ++ str " (" ++ u ++ [41%N] ++ b)
  /\ (forall p q r,
        unmarked p -> unmarked q -> unmarked r -> q <> [] ->
        Forall (fun y => y <> 41%N) (p ++ [95%N] ++ q ++ [95%N] ++ r) ->
        FormatMarkdown
          (a ++ [91%N] ++ l ++ str "](" ++ (p ++ [95%N] ++ q ++ [95%N] ++ r) ++ [41%N] ++ b)
        = a ++ l ++ str " (" ++ p ++ italic q ++ r ++ [41%N] ++ b).
Proof.
  intros Ha Hl Hb Hl93 Hln.
  apply unmarked_free in Ha as (Ha1 & Ha2 & Ha3).
  apply unmarked_free in Hl as (Hl1 & Hl2 & Hl3).
  apply unmarked_free in Hb as (Hb1 & Hb2 & Hb3).
  pose proof (begins_with_span 42 [42%N]) as B1.
  pose proof (begins_with_span 95 [95%N]) as B2.
  pose proof (begins_with_span 42 []) as I1. pose proof (begins_with_span 95 []) as I2.
  change (str " (") with [32; 40]%N.
  split.
  - intros u Hu Hu41 Hun. apply unmarked_free in Hu as (Hu1 & Hu2 & Hu3).
    unfold FormatMarkdown, boldRe1, boldRe2, italicRe1, italicRe2.
    change (str "**") with [42; 42]%N. change (str "__") with [95; 95]%N.
    change (str "*") with [42]%N. change (str "_") with [95]%N.
    change (a ++ [91%N] ++ l ++ str "](" ++ u ++ [41%N] ++ b)
      with (a ++ 91%N :: l ++ str "](" ++ u ++ 41%N :: b).
    rewrite (pass_link a l u b) by assumption. change (str " (") with [32; 40]%N.
    rewrite (pass_free _ _ 42 _ B1) by solve_free.
    rewrite (pass_free _ _ 95 _ B2) by solve_free.
    rewrite (pass_free _ _ 42 _ I1) by solve_free.
    rewrite (pass_free _ _ 95 _ I2) by solve_free. reflexivity.
  - intros p q r Hp Hq Hr Hqn Hu41.
    apply unmarked_free in Hp as (Hp1 & Hp2 & Hp3).
    apply unmarked_free in Hq as (Hq1 & Hq2 & Hq3).
    apply unmarked_free in Hr as (Hr1 & Hr2 & Hr3).
    unfold FormatMarkdown, boldRe1, boldRe2, italicRe1, italicRe2, italic.
    change (str "**") with [42; 42]%N. change (str "__") with [95; 95]%N.
    change (str "*") with [42]%N. change (str "_") with [95]%N.
    change (a ++ [91%N] ++ l ++ str "](" ++ (p ++ [95%N] ++ q ++ [95%N] ++ r) ++ [41%N] ++ b)
      with (a ++ 91%N :: l ++ str "](" ++ (p ++ [95%N] ++ q ++ [95%N] ++ r) ++ 41%N :: b).
    rewrite (pass_link a l _ b); try assumption.
    2:{ destruct p; discriminate. }
    change (str " (") with [32; 40]%N.
    rewrite (pass_free _ _ 42 _ B1) by solve_free.
    replace (a ++ l ++ [32; 40]%N ++ (p ++ [95%N] ++ q ++ [95%N] ++ r) ++ 41%N :: b)
      with ((a ++ l ++ [32; 40]%N ++ p) ++ [95%N] ++ q ++ [95%N] ++ (r ++ 41%N :: b))
      by list_assoc.
    rewrite (pass_single 95 _ _ q _) by solve_free.
    rewrite (pass_free _ _ 42 _ I1) by solve_free.
    rewrite (pass_span 95 [] 51 _ q _) by solve_free.
    unfold sgr. list_assoc.
Qed.

Lemma X15_FormatMarkdown_link_witness :
  FormatMarkdown (str "See " ++ [91%N] ++ str "the spec" ++ str "](" ++ str "go.dev/ref"
                    ++ [41%N] ++ str ".")
  = str "See the spec (go.dev/ref)."
  /\ FormatMarkdown (str "See " ++ [91%N] ++ str "the spec" ++ str "]("
                      ++ (str "go.dev/a" ++ [95%N] ++ str "b" ++ [95%N] ++ str "c")
                      ++ [41%N] ++ str ".")
     = str "See the spec (go.dev/a" ++ italic (str "b") ++ str "c).".
Proof.
  destruct (X15_FormatMarkdown_link (str "See ") (str "the spec") (str "."))
    as (H1 & H2); try reflexivity.
  - repeat constructor; discriminate.
  - discriminate.
  - split.
    + apply (H1 (str "go.dev/ref")); [reflexivity|repeat constructor; discriminate|discriminate].
    + apply (H2 (str "go.dev/a") (str "b") (str "c")); try reflexivity; [discriminate|].
      repeat constructor; discriminate.
Defined.
End MarkdownFacts.

(* ================================================================== *)
(** * [WrapLines] *)
(* ================================================================== *)

Section WrapFacts.
Import Wrap.

Lemma rune_len_pos (c : rune) : 1 <= rune_len c.
Proof.
  unfold rune_len. destruct (c <? 128)%N, (c <? 2048)%N, (c <? 65536)%N; lia.
Qed.

Lemma len_nil (s : gostring) : len s = 0 <-> s = [].
Proof.
  destruct s as [|c s]; cbn [len foldr]; [tauto|].
  pose proof (rune_len_pos c). split; [intros H0; exfalso; lia|discriminate].
Qed.

Lemma len_app (a b : gostring) : len (a ++ b) = len a + len b.
Proof.
  unfold len. induction a as [|c a IH]; [reflexivity|]. cbn [app foldr].
  rewrite IH. lia.
Qed.

Lemma len_ascii (s : gostring) :
  Forall (fun c => (c < 128)%N) s -> len s = length s.
Proof.
  induction 1 as [|c s Hc Hs IH]; [reflexivity|]. cbn [len foldr length].
  unfold len in IH. rewrite IH. unfold rune_len.
  replace (c <? 128)%N with true by lia. reflexivity.
Qed.

Lemma len_length (s : gostring) : length s <= len s.
Proof.
  induction s as [|c s IH]; [reflexivity|]. cbn [len foldr length].
  pose proof (rune_len_pos c). unfold len in IH. lia.
Qed.

Lemma match_here_lineFeed (c : rune) (s : gostring) :
  c <> 13%N ->
  match_here lineFeedRegex (c :: s)
  = if (c =? 10)%N then Some ([[c]], s) else None.
Proof.
  intros Hc. unfold match_here, lineFeedRegex. cbn [exec NumSubexp].
  apply N.eqb_neq in Hc. rewrite Hc. destruct (c =? 10)%N eqn:E; [|reflexivity].
  cbn [replicate list_insert Nat.max]. rewrite (take_rest [c] s) by reflexivity.
  reflexivity.
Qed.

Lemma split_no_CR :
  forall (s cur : gostring),
    Forall (fun c => c <> 13%N) s ->
    write_lines (split lineFeedRegex 0 cur s) = cur ++ s ++ [10%N].
Proof.
  induction s as [|c s IH]; intros cur Hs.
  - unfold write_lines. cbn. rewrite app_nil_r. reflexivity.
  - inversion Hs as [|? ? Hc Hs']; subst. cbn [split].
    rewrite (match_here_lineFeed c s Hc). destruct (c =? 10)%N eqn:E.
    + apply N.eqb_eq in E. subst c.
      replace (length (10%N :: s) - length s) with 1 by (cbn; lia).
      change (write_lines (cur :: split lineFeedRegex 0 [] s))
        with ((cur ++ [10%N]) ++ write_lines (split lineFeedRegex 0 [] s)).
      rewrite (IH [] Hs'). list_assoc.
    + rewrite (IH (cur ++ [c]) Hs'). list_assoc.
Qed.

Lemma wrap_lines_short (fuel lineLength : nat) :
  forall (lines : list gostring) (result : gostring),
    Forall (fun l => len l <= lineLength) lines ->
    wrap_lines (S fuel) lineLength lines result = Done (result ++ write_lines lines).
Proof.
  induction lines as [|l lines IH]; intros result Hl.
  - cbn. rewrite app_nil_r. reflexivity.
  - inversion Hl as [|? ? Hl0 Hl']; subst. cbn [wrap_lines wrap_line].
    destruct (len l =? 0) eqn:E.
    + apply Nat.eqb_eq, len_nil in E. subst l. rewrite (IH _ Hl').
      unfold write_lines. cbn [map concat app]. rewrite <- (assoc_L app). reflexivity.
    + replace (len l <=? lineLength) with true by (symmetry; apply Nat.leb_le, Hl0).
      rewrite (IH _ Hl'). unfold write_lines. cbn [map concat].
      rewrite <- !(assoc_L app). reflexivity.
Qed.
(** X16. A text that needs no wrapping: when no line is longer than the
    line length, [WrapLines] returns the lines, each followed by a newline
    (also with the line length taken from the terminal).  For a text without
    carriage returns this is the text with one newline added at its end, so
    that a text that ends with a newline comes out with a blank line more. *)
Theorem X16_WrapLines_short (termWidth : option Z) (fuel : nat) (s : gostring) (n : Z) :
  (1 <= n <= 1000)%Z ->
  Forall (fun l => len l <= Z.to_nat n) (Split lineFeedRegex s) ->
  WrapLines termWidth (S fuel) s n = Done (write_lines (Split lineFeedRegex s))
  /\ WrapLines (Some n) (S fuel) s 0 = Done (write_lines (Split lineFeedRegex s))
  /\ (Forall (fun c => c <> 13%N) s ->
      WrapLines termWidth (S fuel) s n = Done (s ++ [10%N])).
Proof.
  intros Hn Hl.
  assert (H1 : WrapLines termWidth (S fuel) s n = Done (write_lines (Split lineFeedRegex s))).
  { unfold WrapLines. replace (n =? 0)%Z with false by lia.
    replace ((1 <=? n) && (n <=? 1000))%Z with true by lia.
    apply (wrap_lines_short fuel (Z.to_nat n) _ [] Hl). }
  split; [exact H1|]. split.
  - unfold WrapLines. cbn [Z.eqb fmap option_fmap option_map].
    rewrite Z.mod_small by lia.
    replace ((1 <=? n) && (n <=? 1000))%Z with true by lia.
    apply (wrap_lines_short fuel (Z.to_nat n) _ [] Hl).
  - intros Hs. rewrite H1. unfold Split. rewrite (split_no_CR s [] Hs). reflexivity.
Qed.

Lemma X16_WrapLines_short_witness :
  WrapLines None 1 (str ("A code point." ++ LFs)) 80
  = Done (str ("A code point." ++ LFs ++ LFs)).
Proof.
  apply (X16_WrapLines_short None 0 (str ("A code point." ++ LFs)) 80).
  - lia.
  - vm_compute. repeat constructor.
  - vm_compute. repeat constructor; discriminate.
Defined.

Lemma matches_at_most (p : rune -> bool) :
  forall (m : nat) (w : gostring) c c',
    matches (at_most m (Cls p)) w c c' ->
    forallb p w = true /\ length w <= m /\ c' = c.
Proof.
  induction m as [|m IH]; intros w c c' H; cbn [at_most matches] in H.
  - destruct H as [-> ->]. repeat split. cbn. lia.
  - destruct H as [(w1 & w2 & c1 & -> & (x & -> & Hx & ->) & H2)|[-> ->]].
    + apply IH in H2 as (Hw2 & Hl & ->). cbn [app forallb length].
      rewrite Hx, Hw2. repeat split. lia.
    + repeat split. cbn. lia.
Qed.

(** Bounded greedy repetition: the longest run within the bound after
    which the rest of the pattern succeeds is the one taken. *)
Lemma at_most_longest {A : Type} (p : rune -> bool) (t : gostring) caps
    (K : gostring -> list gostring -> option A) (a : A) :
  K t caps = Some a ->
  forall (m : nat) (w : gostring),
    length w <= m -> forallb p w = true ->
    (forall u v, t = u ++ v -> u <> [] -> forallb p u = true ->
                 length w + length u <= m -> K v caps = None) ->
    exec (at_most m (Cls p)) (w ++ t) caps K = Some a.
Proof.
  intros HK. induction m as [|m IH]; intros w Hlen Hw Hlong.
  - destruct w; [exact HK|cbn in Hlen; lia].
  - cbn [at_most]. rewrite exec_Opt, exec_Cat. destruct w as [|y w].
    + cbn [app].
      destruct (exec (Cls p) t caps (fun s' c' => exec (at_most m (Cls p)) s' c' K))
        as [a'|] eqn:E; [|exact HK].
      exfalso. rewrite <- exec_Cat in E. apply exec_sound in E as (w1 & t1 & c1 & Ht & Hm & Hk).
      cbn [matches] in Hm. destruct Hm as (u1 & u2 & c2 & -> & (x & -> & Hx & ->) & Hm).
      apply matches_at_most in Hm as (Hu2 & Hl2 & ->).
      rewrite (Hlong ([x] ++ u2) t1) in Hk; [discriminate Hk|exact Ht|discriminate| |].
      * cbn [app forallb]. rewrite Hx, Hu2. reflexivity.
      * cbn [app length]. lia.
    + cbn [forallb] in Hw. apply andb_true_iff in Hw as [Hy Hw].
      cbn [app exec]. rewrite Hy. rewrite IH; [reflexivity| |exact Hw|].
      * cbn in Hlen. lia.
      * intros u v Ht Hu Hpu Hl. apply (Hlong u v Ht Hu Hpu). cbn [length]. lia.
Qed.

Lemma NumSubexp_at_most (p : rune -> bool) (m : nat) :
  NumSubexp (at_most m (Cls p)) = 0.
Proof. induction m as [|m IH]; [reflexivity|]. cbn [at_most NumSubexp]. rewrite IH. reflexivity. Qed.

(** The line break pattern takes the text up to and with the last blank
    within its reach. *)
Lemma match_here_break (n : nat) (h : gostring) (x : rune) (t : gostring) :
  1 <= length h <= n -> forallb dot h = true -> space x = true ->
  Forall (fun y => space y = false) (take (n - length h) t) ->
  match_here (lineBreakRegex n) (h ++ x :: t) = Some ([h ++ [x]], t).
Proof.
  intros Hlen Hdot Hx Hfar. destruct h as [|h0 h]; [cbn in Hlen; lia|].
  cbn [forallb] in Hdot. apply andb_true_iff in Hdot as [Hh0 Hdot].
  unfold match_here, lineBreakRegex. cbn [NumSubexp]. rewrite NumSubexp_at_most.
  cbn [Nat.max replicate]. rewrite !exec_Cat. cbn [app]. cbn [exec]. rewrite Hh0.
  apply at_most_longest.
  - cbn [exec]. rewrite Hx. cbn [list_insert].
    rewrite (take_rest ((h0 :: h) ++ [x]) t) by list_assoc. reflexivity.
  - cbn [length] in Hlen. lia.
  - exact Hdot.
  - intros u v E Hu _ Hl. destruct u as [|u0 u]; [congruence|].
    cbn [app] in E. inversion E as [[Eu Et]]. cbn [exec].
    destruct v as [|y v]; [reflexivity|].
    assert (Hy : y ∈ take (n - length (h0 :: h)) t).
    { rewrite Et. rewrite take_app_ge by (cbn [length] in *; lia).
      apply elem_of_app. right.
      destruct (n - length (h0 :: h) - length u) as [|d] eqn:Ed;
        [cbn [length] in *; lia|]. cbn [take]. left. }
    rewrite Forall_forall in Hfar. rewrite (Hfar y Hy). reflexivity.
Qed.
Lemma find_bol_here (r : regex) (s : gostring) caps rest :
  match_here r s = Some (caps, rest) -> find_bol r true s = Some ([], caps, rest).
Proof. intros H. destruct s; cbn [find_bol]; rewrite H; reflexivity. Qed.

Lemma find_bol_false (r : regex) :
  forall s, Forall (fun c => c <> 10%N) s -> find_bol r false s = None.
Proof.
  induction 1 as [|c s Hc Hs IH]; [reflexivity|]. cbn [find_bol].
  apply N.eqb_neq in Hc. rewrite Hc, IH. reflexivity.
Qed.

Lemma find_bol_miss (r : regex) (s : gostring) :
  match_here r s = None -> Forall (fun c => c <> 10%N) s -> find_bol r true s = None.
Proof.
  intros H Hs. destruct s as [|c s]; cbn [find_bol]; rewrite H; [reflexivity|].
  inversion Hs as [|? ? Hc Hs']; subst. apply N.eqb_neq in Hc.
  rewrite Hc, (find_bol_false r s Hs'). reflexivity.
Qed.

Lemma match_here_indent (k : nat) (t : gostring) :
  match t with c :: _ => indent_char c = false | [] => True end ->
  match_here indentRegex (replicate (S k) 32%N ++ t) = Some ([replicate (S k) 32%N], t).
Proof.
  intros Ht. unfold match_here, indentRegex. cbn [NumSubexp Nat.max replicate app].
  rewrite exec_Cat. cbn [exec]. change (indent_char 32) with true. cbn [exec].
  apply star_stop.
  - clear. induction k; [reflexivity|]. cbn [replicate forallb]. rewrite IHk. reflexivity.
  - cbn [list_insert].
    rewrite (take_rest (32%N :: replicate k 32%N) t) by reflexivity. reflexivity.
  - exact Ht.
Qed.

Lemma match_here_indent_miss (s : gostring) :
  match s with c :: _ => indent_char c = false | [] => True end ->
  match_here indentRegex s = None.
Proof.
  intros Hs. unfold match_here, indentRegex. rewrite exec_Cat. cbn [exec].
  destruct s as [|c s]; [reflexivity|]. rewrite Hs. reflexivity.
Qed.

Lemma match_here_lineFeed_none (s : gostring) :
  Forall (fun c => c <> 10%N) s -> match_here lineFeedRegex s = None.
Proof.
  intros Hs. unfold match_here, lineFeedRegex. rewrite exec_Cat, exec_Opt. cbn [exec].
  destruct s as [|c s]; [reflexivity|]. inversion Hs as [|? ? Hc Hs']; subst.
  apply N.eqb_neq in Hc. rewrite Hc. destruct (c =? 13)%N; [|reflexivity].
  destruct s as [|y s]; [reflexivity|]. inversion Hs' as [|? ? Hy _]; subst.
  apply N.eqb_neq in Hy. rewrite Hy. reflexivity.
Qed.

Lemma split_no_LF :
  forall (s cur : gostring),
    Forall (fun c => c <> 10%N) s -> split lineFeedRegex 0 cur s = [cur ++ s].
Proof.
  induction s as [|c s IH]; intros cur Hs; [cbn; rewrite app_nil_r; reflexivity|].
  cbn [split]. rewrite (match_here_lineFeed_none _ Hs).
  inversion Hs as [|? ? _ Hs']; subst. rewrite (IH _ Hs'). f_equal. list_assoc.
Qed.

Lemma blanks_space (m : nat) : forallb GoStrings.IsSpace (replicate m 32%N) = true.
Proof. induction m as [|m IH]; [reflexivity|]. cbn [replicate forallb]. rewrite IH. reflexivity. Qed.

Lemma TrimSpace_blanks (m : nat) (t : gostring) :
  GoStrings.TrimSpace (replicate m 32%N ++ t) = GoStrings.TrimSpace t.
Proof.
  unfold GoStrings.TrimSpace. rewrite trim_left_app, blanks_space. reflexivity.
Qed.

Lemma blanks_ascii (m : nat) : len (replicate m 32%N) = m.
Proof.
  rewrite len_ascii; [apply length_replicate|].
  apply Forall_forall. intros c Hc. apply elem_of_replicate in Hc as [-> _]. lia.
Qed.

Lemma blanks_dot (m : nat) : forallb dot (replicate m 32%N) = true.
Proof. induction m as [|m IH]; [reflexivity|]. cbn [replicate forallb]. rewrite IH. reflexivity. Qed.

(** The break of an indented line whose first word does not fit: it is
    made inside the indent. *)
Lemma break_in_indent (n k : nat) (t : gostring) :
  1 <= n -> 2 <= k ->
  Forall (fun c => space c = false) (take (n + 1 - k) t) ->
  exists head m,
    FindStringIndex (lineBreakRegex n) (replicate k 32%N ++ t)
    = Some (head, replicate m 32%N ++ t).
Proof.
  intros Hn Hk Hfar. set (j := Nat.min n (k - 1)).
  exists (replicate j 32%N ++ [32%N]), (k - 1 - j).
  assert (E : replicate k 32%N ++ t
              = replicate j 32%N ++ 32%N :: (replicate (k - 1 - j) 32%N ++ t)).
  { replace k with (j + S (k - 1 - j)) at 1 by lia.
    rewrite replicate_add. cbn [replicate]. list_assoc. }
  rewrite E. unfold FindStringIndex.
  rewrite (find_bol_here _ _ [replicate j 32%N ++ [32%N]] (replicate (k - 1 - j) 32%N ++ t)).
  - reflexivity.
  - apply match_here_break.
    + rewrite length_replicate. lia.
    + apply blanks_dot.
    + reflexivity.
    + rewrite length_replicate. destruct (Nat.le_gt_cases n (k - 1)) as [Hle|Hgt].
      * replace (n - j) with 0 by lia. constructor.
      * replace (k - 1 - j) with 0 by lia. replace (n - j) with (n + 1 - k) by lia.
        exact Hfar.
Qed.
Lemma wrap_line_hangs (n k : nat) (t : gostring) :
  1 <= n -> 2 <= k ->
  GoStrings.TrimSpace t = t ->
  Forall (fun c => space c = false) (take (n + 1 - k) t) ->
  n < k + len t -> (Z.of_nat (k + length t) <= 1000000)%Z ->
  forall (fuel : nat) (result : gostring),
    wrap_line fuel n k (replicate k 32%N ++ t) result = Running.
Proof.
  intros Hn Hk Htrim Hfar Hlong Hbound.
  destruct (break_in_indent n k t Hn Hk Hfar) as (head & m & HF).
  assert (Hlen : len (replicate k 32%N ++ t) = k + len t).
  { rewrite len_app, blanks_ascii. reflexivity. }
  induction fuel as [|fuel IH]; intros result; [reflexivity|].
  cbn [wrap_line]. rewrite Hlen.
  replace (k + len t =? 0) with false by (symmetry; apply Nat.eqb_neq; lia).
  replace (k + len t <=? n) with false by (symmetry; apply Nat.leb_gt; lia).
  rewrite HF, TrimSpace_blanks, Htrim.
  replace (1000000 <? Z.of_nat (k + length t))%Z with false by lia.
  unfold pad_left. replace (k + length t - length t) with k by lia. apply IH.
Qed.

(** X17. [WrapLines] does not terminate on an indented line whose first
    word does not fit: for a line made of two blanks or more and a text,
    longer than the line length and without a blank of the text within the
    line length, the inner loop comes back to the same line at every
    iteration, whatever the number of iterations allowed. *)
Theorem X17_WrapLines_hangs (termWidth : option Z) (fuel n k : nat) (t : gostring) :
  1 <= n <= 1000 -> 2 <= k ->
  match t with c :: _ => indent_char c = false | [] => False end ->
  GoStrings.TrimSpace t = t ->
  Forall (fun c => c <> 10%N) t ->
  Forall (fun c => space c = false) (take (n + 1 - k) t) ->
  n < k + len t -> (Z.of_nat (k + length t) <= 1000000)%Z ->
  WrapLines termWidth fuel (replicate k 32%N ++ t) (Z.of_nat n) = Running.
Proof.
  intros Hn Hk Hhead Htrim Hnl Hfar Hlong Hbound.
  unfold WrapLines. replace (Z.of_nat n =? 0)%Z with false by lia.
  replace ((1 <=? Z.of_nat n) && (Z.of_nat n <=? 1000))%Z with true by lia.
  rewrite Nat2Z.id. unfold Split. rewrite split_no_LF.
  2:{ apply Forall_app. split; [|exact Hnl].
      apply Forall_forall. intros c Hc. apply elem_of_replicate in Hc as [-> _]. discriminate. }
  cbn [app wrap_lines].
  assert (Hind : FindString indentRegex (replicate k 32%N ++ t) = replicate k 32%N).
  { unfold FindString. destruct k as [|k]; [lia|].
    rewrite (find_bol_here _ _ _ _ (match_here_indent k t
               ltac:(destruct t; [contradiction|exact Hhead]))).
    reflexivity. }
  rewrite Hind, blanks_ascii.
  rewrite (wrap_line_hangs n k t); try assumption; try lia. reflexivity.
Qed.

Lemma X17_WrapLines_hangs_witness :
  WrapLines None 1000 (str "    abcd efg") 5 = Running.
Proof.
  apply (X17_WrapLines_hangs None 1000 5 4 (str "abcd efg")).
  - lia.
  - lia.
  - reflexivity.
  - reflexivity.
  - repeat constructor; discriminate.
  - vm_compute. repeat constructor.
  - apply Nat.ltb_lt. vm_compute. reflexivity.
  - apply Z.leb_le. vm_compute. reflexivity.
Defined.

(** X18. A line of two stretches that each fit on a line, but not
    together: [WrapLines] breaks it after the blank between them, which stays
    at the end of the first line, when no later blank is within the line
    length. *)
Theorem X18_WrapLines_breaks (termWidth : option Z) (fuel n : nat) (u v : gostring) :
  1 <= n <= 1000 ->
  match u with c :: _ => indent_char c = false | [] => False end ->
  forallb dot u = true -> Forall (fun c => c <> 10%N) v ->
  length u <= n -> 1 <= len v <= n -> n < len u + 1 + len v ->
  GoStrings.TrimSpace v = v ->
  Forall (fun c => space c = false) (take (n - length u) v) ->
  (Z.of_nat (length v) <= 1000000)%Z ->
  WrapLines termWidth (S (S fuel)) (u ++ [32%N] ++ v) (Z.of_nat n)
  = Done (u ++ [32%N; 10%N] ++ v ++ [10%N]).
Proof.
  intros Hn Hhead Hu Hv Hul Hvl Hlong Htrim Hfar Hbound.
  assert (Hu10 : Forall (fun c => c <> 10%N) u).
  { apply Forall_forall. intros c Hc. rewrite forallb_forall in Hu.
    specialize (Hu c (proj1 (list_elem_of_In _ _) Hc)). unfold dot in Hu.
    intros ->. discriminate Hu. }
  assert (Hline : Forall (fun c => c <> 10%N) (u ++ [32%N] ++ v)).
  { apply Forall_app. split; [exact Hu10|]. apply Forall_app. split; [|exact Hv].
    repeat constructor. discriminate. }
  unfold WrapLines. replace (Z.of_nat n =? 0)%Z with false by lia.
  replace ((1 <=? Z.of_nat n) && (Z.of_nat n <=? 1000))%Z with true by lia.
  rewrite Nat2Z.id. unfold Split. rewrite (split_no_LF _ [] Hline).
  cbn [app wrap_lines].
  assert (Hind : FindString indentRegex (u ++ 32%N :: v) = []).
  { unfold FindString. rewrite find_bol_miss; [reflexivity| |exact Hline].
    apply match_here_indent_miss. destruct u; [contradiction|exact Hhead]. }
  assert (Hlen : len (u ++ 32%N :: v) = len u + 1 + len v).
  { rewrite len_app. cbn [len foldr]. unfold len. cbn. lia. }
  rewrite Hind. cbn [len foldr]. cbn [wrap_line]. rewrite Hlen.
  replace (len u + 1 + len v =? 0) with false by (symmetry; apply Nat.eqb_neq; lia).
  replace (len u + 1 + len v <=? n) with false by (symmetry; apply Nat.leb_gt; lia).
  unfold FindStringIndex.
  rewrite (find_bol_here _ _ [u ++ [32%N]] v).
  2:{ apply match_here_break; try assumption; [|reflexivity].
      destruct u; [contradiction|]. cbn [length] in *. lia. }
  cbn [nth app]. rewrite Htrim.
  replace (1000000 <? Z.of_nat (0 + length v))%Z with false by lia.
  unfold pad_left. replace (0 + length v - length v) with 0 by lia. cbn [replicate app].
  replace (len v =? 0) with false by (symmetry; apply Nat.eqb_neq; lia).
  replace (len v <=? n) with true by (symmetry; apply Nat.leb_le; lia).
  f_equal. list_assoc.
Qed.

Lemma X18_WrapLines_breaks_witness :
  WrapLines None 2 (str "What is a" ++ [32%N] ++ str "rune?") 10
  = Done (str "What is a" ++ [32%N; 10%N] ++ str "rune?" ++ [10%N]).
Proof.
  apply (X18_WrapLines_breaks None 0 10 (str "What is a") (str "rune?")).
  - lia.
  - reflexivity.
  - reflexivity.
  - repeat constructor; discriminate.
  - apply Nat.leb_le. vm_compute. reflexivity.
  - split; apply Nat.leb_le; vm_compute; reflexivity.
  - apply Nat.ltb_lt. vm_compute. reflexivity.
  - reflexivity.
  - vm_compute. repeat constructor.
  - apply Z.leb_le. vm_compute. reflexivity.
Defined.
End WrapFacts.

(* ================================================================== *)
(** * Persistence of the schedule *)
(* ================================================================== *)

Lemma match_here_update_miss (id : gostring) (c : rune) (s : gostring) :
  c <> 60%N -> match_here (update_pattern id) (c :: s) = None.
Proof.
  intros Hc. unfold match_here, update_pattern. rewrite exec_cat_cons.
  change (str "<!--") with [60; 33; 45; 45]%N. cbn [lits]. rewrite exec_Cat.
  apply exec_Lit_miss, Hc.
Qed.

Lemma replace_all_cons (r : regex) (repl : gostring) (c : rune) (s : gostring) :
  match_here r (c :: s) = None ->
  replace_all r repl 0 (c :: s) = c :: replace_all r repl 0 s.
Proof. intros H. cbn [replace_all]. rewrite H. reflexivity. Qed.

(** Text without [<] is copied by the update. *)
Lemma replace_update_free (id repl : gostring) :
  forall pre s, Forall (fun c => c <> 60%N) pre ->
    replace_all (update_pattern id) repl 0 (pre ++ s)
    = pre ++ replace_all (update_pattern id) repl 0 s.
Proof.
  intros pre s Hpre. apply replace_all_prefix. intros i Hi.
  rewrite drop_app_le by lia.
  destruct (drop i pre) as [|x p] eqn:E.
  { apply (f_equal length) in E. rewrite length_drop in E. cbn in E. lia. }
  cbn [app]. apply match_here_update_miss.
  assert (Hin : x ∈ pre).
  { rewrite <- (take_drop i pre), E. apply elem_of_app. right. left. }
  rewrite Forall_forall in Hpre. apply Hpre, Hin.
Qed.

Lemma exec_update_tail {A : Type} (en rest : gostring) c
    (K : gostring -> list gostring -> option A) :
  en = [] \/ en = str "true" \/ en = str "false" ->
  exec (cat [Opt (Cat (Lit 59) (Grp 1 true_or_false)); Star space; lits (str "-->")])
    (flag_suffix en ++ str "-->" ++ rest) c K
  = K rest (if bool_decide (en = []) then c else <[1 := en]> c).
Proof.
  intros Hen.
  assert (Htail : forall c', exec (cat [Star space; lits (str "-->")])
                    (str "-->" ++ rest) c' K = K rest c').
  { intros c'. change (str "-->") with [45; 45; 62]%N.
    rewrite exec_cat_cons, exec_Star_stop_app by reflexivity.
    rewrite exec_cat_cons, (runs_lits [45; 45; 62]%N). reflexivity. }
  rewrite exec_cat_cons, exec_Opt.
  destruct Hen as [->|[->| ->]].
  - change (flag_suffix [] ++ str "-->" ++ rest) with (str "-->" ++ rest).
    rewrite Htail. reflexivity.
  - change (flag_suffix (str "true") ++ str "-->" ++ rest)
      with ([59%N] ++ str "true" ++ str "-->" ++ rest).
    rewrite exec_Cat, (runs_Lit 59). unfold true_or_false. cbn [exec].
    rewrite (runs_lits (str "true")), take_app_rest, Htail.
    rewrite bool_decide_eq_false_2 by discriminate.
    destruct (K rest _) eqn:E; [reflexivity|].
    change (str "true") with [116; 114; 117; 101]%N.
    rewrite exec_cat_cons, exec_Star_stop_app by reflexivity. reflexivity.
  - change (flag_suffix (str "false") ++ str "-->" ++ rest)
      with ([59%N] ++ str "false" ++ str "-->" ++ rest).
    rewrite exec_Cat, (runs_Lit 59). unfold true_or_false. cbn [exec].
    rewrite (runs_lits (str "false")), take_app_rest, Htail.
    rewrite bool_decide_eq_false_2 by discriminate.
    destruct (K rest _) eqn:E; [reflexivity|].
    change (str "false") with [102; 97; 108; 115; 101]%N.
    rewrite exec_cat_cons, exec_Star_stop_app by reflexivity. reflexivity.
Qed.

(** The pattern of [updateCardInFile] matches a canonical block of its
    identifier, and nothing after it. *)
Lemma match_here_update_canonical (id : gostring) (b : rune) (due en rest : gostring) :
  forallb is_alnum id = true -> id <> [] -> digit b = true -> is_date due = true ->
  en = [] \/ en = str "true" \/ en = str "false" ->
  exists caps,
    match_here (update_pattern id) (comment_text [] id [b] due en [] ++ rest)
    = Some (caps, rest).
Proof.
  intros Hal Hid Hb Hdue Hen. destruct id as [|x id']; [congruence|].
  assert (Hx : space x = false).
  { cbn [forallb] in Hal. apply andb_true_iff in Hal as [Hx _].
    apply alnum_facts in Hx. tauto. }
  assert (Hw : comment_text [] (x :: id') [b] due en [] ++ rest
               = str "<!--" ++ (x :: id') ++ [59%N] ++ [b] ++ [59%N] ++ due
                   ++ flag_suffix en ++ str "-->" ++ rest).
  { unfold comment_text. rewrite <- !app_assoc. reflexivity. }
  eexists. unfold match_here, update_pattern. rewrite Hw at 1.
  rewrite exec_cat_cons, (runs_lits (str "<!--")).
  rewrite exec_cat_cons, exec_Star_stop_app by assumption.
  rewrite exec_cat_cons, (runs_lits (x :: id')).
  rewrite exec_cat_cons, (runs_Lit 59).
  rewrite exec_cat_cons, (runs_Cls digit b Hb).
  rewrite exec_cat_cons, (runs_Lit 59).
  rewrite exec_cat_cons, (runs_date_re due Hdue).
  rewrite exec_update_tail by exact Hen. rewrite take_app_rest. reflexivity.
Qed.

Lemma HasPrefix_other (id id2 s : gostring) :
  length id2 = length id -> id2 <> id -> GoStrings.HasPrefix (id2 ++ s) id = false.
Proof.
  intros Hl Hne. destruct (GoStrings.HasPrefix (id2 ++ s) id) eqn:H; [|reflexivity].
  exfalso. apply HasPrefix_iff in H as [t E]. apply app_inj_1 in E as [E _]; auto.
Qed.

(** It does not match a canonical block of another identifier. *)
Lemma match_here_update_other (id id2 tail : gostring) :
  forallb is_alnum id2 = true -> length id2 = length id -> id2 <> id -> id2 <> [] ->
  match_here (update_pattern id) (str "<!--" ++ id2 ++ tail) = None.
Proof.
  intros Hal Hl Hne Hid2. destruct id2 as [|x id2']; [congruence|].
  assert (Hx : space x = false).
  { cbn [forallb] in Hal. apply andb_true_iff in Hal as [Hx _].
    apply alnum_facts in Hx. tauto. }
  unfold match_here, update_pattern.
  rewrite exec_cat_cons, (runs_lits (str "<!--")).
  rewrite exec_cat_cons, exec_Star_stop_app by assumption.
  rewrite exec_cat_cons. apply exec_lits_miss, HasPrefix_other; assumption.
Qed.

Lemma before_opener_app (p t : gostring) :
  Forall (fun c => c <> 60%N) p -> before_opener (p ++ 60%N :: t) = p.
Proof.
  induction 1 as [|x p Hx _ IH]; [reflexivity|]. cbn [app before_opener].
  destruct (N.eqb_spec x 60); [contradiction|]. rewrite IH. reflexivity.
Qed.

Lemma canonical_tail (id due en : gostring) (b : rune) :
  forallb is_alnum id = true -> digit b = true -> is_date due = true ->
  en = [] \/ en = str "true" \/ en = str "false" ->
  exists R, comment_text [] id [b] due en [] = str "<!--" ++ R
            /\ Forall (fun c => c <> 60%N) R.
Proof.
  intros Hid Hb Hdue Hen. unfold comment_text. eexists. split; [reflexivity|].
  cbn [app]. apply Forall_app. split.
  { apply (forallb_Forall_ne is_alnum); [|exact Hid]. intros c Hc. apply alnum_facts in Hc. tauto. }
  constructor; [discriminate|]. constructor; [apply digit_not_lt, Hb|].
  constructor; [discriminate|]. apply Forall_app. split; [apply is_date_no_lt, Hdue|].
  apply Forall_app. split; [|repeat constructor; discriminate].
  destruct Hen as [->|[->| ->]]; repeat constructor; discriminate.
Qed.

(** The question of a header line whose only comment is its block: the
    trimmed text between the hashes and the block. *)
Lemma extractQuestion_block (hashes q R : gostring) :
  hashes ∈ [str "##"; str "###"; str "####"] ->
  newline_free q -> Forall (fun c => c <> 60%N) R ->
  extractQuestion (hashes ++ 32%N :: q ++ str "<!--" ++ R) = GoStrings.TrimSpace q.
Proof.
  intros Hh Hq HR.
  destruct (trim_left_span space q) as (ws & E & Hws & Hhead).
  assert (Hdot : forallb dot (GoStrings.trim_left space q) = true).
  { pose proof Hq as Hall. rewrite E in Hall. apply newline_free_app in Hall. tauto. }
  pose proof (match_here_question 32 ws _ R eq_refl Hws Hhead Hdot HR) as M.
  rewrite (assoc_L app ws), <- E in M.
  assert (Etrim : GoStrings.TrimSpace (GoStrings.trim_left space q) = GoStrings.TrimSpace q).
  { unfold GoStrings.TrimSpace. rewrite (trim_left_weaker _ _ _ space_IsSpace). reflexivity. }
  rewrite <- Etrim.
  unfold extractQuestion, FindStringSubmatch.
  repeat (apply elem_of_cons in Hh as [->|Hh]); [| | |inversion Hh].
  - rewrite (find_here _ _ _ _ M). reflexivity.
  - change (str "###") with ([35%N] ++ str "##"). rewrite <- (assoc_L app [35%N]).
    rewrite (fun H => find_at question_re [35%N] _ _ _ H M); [reflexivity|].
    intros [|i] Hi; [reflexivity|cbn in Hi; lia].
  - change (str "####") with ([35%N; 35%N] ++ str "##"). rewrite <- (assoc_L app [35%N; 35%N]).
    rewrite (fun H => find_at question_re [35%N; 35%N] _ _ _ H M); [reflexivity|].
    intros [|[|i]] Hi; [reflexivity|reflexivity|cbn in Hi; lia].
Qed.

Lemma header_hashes (hashes t : gostring) :
  hashes ∈ [str "##"; str "###"; str "####"] ->
  is_card_header (hashes ++ 32%N :: t) = true
  /\ GoStrings.HasPrefix (hashes ++ 32%N :: t) (str "# ") = false
  /\ Forall (fun c => c <> 60%N) hashes /\ newline_free hashes.
Proof.
  intros Hh.
  repeat (apply elem_of_cons in Hh as [->|Hh]); [| | |inversion Hh];
    (split; [unfold is_card_header; cbn; rewrite ?HasPrefix_nil; reflexivity|
     split; [reflexivity|split; [repeat constructor; discriminate|reflexivity]]]).
Qed.

(** What a tidy card header is made of. *)
Lemma tidy_header (l : gostring) :
  tidy l -> is_card_header l = true ->
  exists p id b due en,
    l = p ++ comment_text [] id [b] due en []
    /\ Forall (fun c => c <> 60%N) p
    /\ (forall t, is_card_header (p ++ t) = true
                  /\ GoStrings.HasPrefix (p ++ t) (str "# ") = false)
    /\ (forall R, Forall (fun c => c <> 60%N) R ->
          extractQuestion (p ++ str "<!--" ++ R) = extractQuestion l)
    /\ newline_free p
    /\ length id = 4 /\ forallb is_alnum id = true /\ digit b = true
    /\ is_date due = true /\ (en = [] \/ en = str "true" \/ en = str "false").
Proof.
  intros (Hnf & _ & Ht) Hh. rewrite Hh in Ht.
  destruct Ht as (hashes & q & id & b & due & en & -> & Hhashes & Hq & Hlen & Hal & Hb & Hdue & Hen).
  destruct (header_hashes hashes [] Hhashes) as (_ & _ & Hhl & Hhn).
  assert (Hqn : newline_free q).
  { apply newline_free_app in Hnf as [_ Hnf].
    change (32%N :: q ++ comment_text [] id [b] due en [])
      with ([32%N] ++ q ++ comment_text [] id [b] due en []) in Hnf.
    apply newline_free_app in Hnf as [_ Hnf]. apply newline_free_app in Hnf. tauto. }
  exists (hashes ++ 32%N :: q), id, b, due, en. repeat split; try assumption.
  - rewrite <- (assoc_L app). reflexivity.
  - apply Forall_app. split; [exact Hhl|]. constructor; [discriminate|exact Hq].
  - rewrite <- (assoc_L app). cbn [app]. apply header_hashes, Hhashes.
  - rewrite <- (assoc_L app). cbn [app]. apply header_hashes, Hhashes.
  - intros R HR. destruct (canonical_tail id due en b Hal Hb Hdue Hen) as (R0 & -> & HR0).
    rewrite <- !(assoc_L app), <- !app_comm_cons.
    rewrite !extractQuestion_block by assumption. reflexivity.
  - apply newline_free_app. split; [exact Hhn|].
    change (32%N :: q) with ([32%N] ++ q). apply newline_free_app. split; [reflexivity|exact Hqn].
Qed.

Section Persist.
Variable c : Card.
Hypothesis Hlen : length (Id c) = 4.
Hypothesis Hal : forallb is_alnum (Id c) = true.
Hypothesis Hbox : (0 <= Box c <= 9)%Z.
Hypothesis Hreal : real_date (Due c) = true.

(** The block written for [c] is canonical and reads as the schedule of
    [c]. *)
Lemma card_block_shape :
  exists b due en,
    card_block c = comment_text [] (Id c) [b] due en []
    /\ digit b = true /\ is_date due = true
    /\ (en = [] \/ en = str "true" \/ en = str "false")
    /\ GoTime.Parse due = Some (today_of (Due c))
    /\ flag_value en = Enabled c
    /\ uint_of_int (GoTime.atoi_digits [b]) = Box c.
Proof.
  destruct (FormatBool_flag (Enabled c)) as (Hen & Hfv & _).
  exists (48 + Z.to_N (Box c))%N, (GoTime.Format (Due c)), (Strconv.FormatBool (Enabled c)).
  split; [|split; [|split; [|split; [|split; [|split]]]]].
  - unfold card_block. rewrite block4_canonical, (FormatUint_small (Box c)) by lia. reflexivity.
  - unfold digit. lia.
  - apply Format_is_date, real_date_clock_ok, Hreal.
  - right. exact Hen.
  - apply Parse_Format, Hreal.
  - exact Hfv.
  - unfold uint_of_int, GoTime.atoi_digits, GoTime.digit_val. cbn [fold_left].
    rewrite Z.mod_small; lia.
Qed.

Lemma update_line_plain (l : gostring) : is_card_header l = false -> update_line c l = l.
Proof. intros H. unfold update_line. rewrite H. reflexivity. Qed.

Lemma carries_canonical (p id due en : gostring) (b : rune) :
  Forall (fun x => x <> 60%N) p ->
  length id = 4 -> forallb is_alnum id = true -> digit b = true ->
  is_date due = true -> en = [] \/ en = str "true" \/ en = str "false" ->
  carries (p ++ comment_text [] id [b] due en []) id [b] due en.
Proof.
  intros Hp Hl Ha Hb Hdue Hen. do 3 eexists.
  rewrite <- (app_nil_r (comment_text [] id [b] due en [])) at 1.
  apply find_canonical; assumption.
Qed.

Lemma update_line_at (p id due en : gostring) (b : rune) :
  is_card_header (p ++ comment_text [] id [b] due en []) = true ->
  Forall (fun x => x <> 60%N) p ->
  length id = 4 -> forallb is_alnum id = true -> digit b = true ->
  is_date due = true -> en = [] \/ en = str "true" \/ en = str "false" ->
  update_line c (p ++ comment_text [] id [b] due en [])
  = if bool_decide (id = Id c) then p ++ card_block c
    else p ++ comment_text [] id [b] due en [].
Proof.
  intros Hh Hp Hl Ha Hb Hdue Hen.
  pose proof (carries_canonical p id due en b Hp Hl Ha Hb Hdue Hen) as Hc.
  unfold update_line. rewrite Hh, (carries_id_of _ _ _ _ _ Hc). cbn [andb].
  destruct (bool_decide (id = Id c)); [|reflexivity].
  change (comment_text [] id [b] due en [])
    with (60%N :: [33; 45; 45]%N ++ id ++ [59%N] ++ [b] ++ [59%N] ++ due
            ++ flag_suffix en ++ [] ++ str "-->").
  rewrite (before_opener_app _ _ Hp). reflexivity.
Qed.

(** What the update makes of a tidy card header. *)
Lemma update_line_header (l : gostring) :
  tidy l -> is_card_header l = true ->
  exists p id b due en,
    l = p ++ comment_text [] id [b] due en []
    /\ Forall (fun x => x <> 60%N) p
    /\ carries l id [b] due en
    /\ update_line c l = (if bool_decide (id = Id c) then p ++ card_block c else l)
    /\ is_card_header (update_line c l) = true
    /\ GoStrings.HasPrefix (update_line c l) (str "# ") = false
    /\ GoStrings.HasPrefix l (str "# ") = false
    /\ extractQuestion (update_line c l) = extractQuestion l
    /\ newline_free (update_line c l)
    /\ (exists b' due' en', carries (update_line c l) id [b'] due' en'
          /\ (id = Id c -> GoTime.Parse due' = Some (today_of (Due c))
                /\ flag_value en' = Enabled c
                /\ uint_of_int (GoTime.atoi_digits [b']) = Box c)
          /\ (id <> Id c -> b' = b /\ due' = due /\ en' = en)).
Proof.
  intros Ht Hh. pose proof Ht as (Hnf & _).
  destruct (tidy_header l Ht Hh)
    as (p & id & b & due & en & El & Hp & Hpre & Hq & Hpn & Hl & Ha & Hb & Hdue & Hen).
  pose proof (carries_canonical p id due en b Hp Hl Ha Hb Hdue Hen) as Hc.
  rewrite <- El in Hc.
  assert (Eupd : update_line c l = if bool_decide (id = Id c) then p ++ card_block c else l).
  { rewrite El at 1 2. apply update_line_at; try assumption. rewrite <- El. exact Hh. }
  destruct card_block_shape as (b' & due' & en' & Eblk & Hb' & Hdue' & Hen' & HP & HF & HB).
  exists p, id, b, due, en. rewrite Eupd.
  split; [exact El|]. split; [exact Hp|]. split; [exact Hc|]. split; [reflexivity|].
  destruct (bool_decide (id = Id c)) eqn:Eid.
  - apply bool_decide_eq_true in Eid.
    destruct (canonical_tail (Id c) due' en' b' Hal Hb' Hdue' Hen') as (R & ER & HR).
    rewrite Eblk.
    split; [apply Hpre|]. split; [apply Hpre|].
    split; [rewrite El; apply Hpre|].
    split; [rewrite ER; apply Hq, HR|].
    split.
    { apply newline_free_app. split; [exact Hpn|].
      apply canonical_newline_free; [apply alnum_dot, Hal|eauto|exact Hdue'|exact Hen']. }
    exists b', due', en'. split.
    { rewrite Eid. apply carries_canonical; assumption. }
    split; [intros _; auto|]. intros Hne. contradiction.
  - apply bool_decide_eq_false in Eid.
    split; [exact Hh|]. split; [rewrite El; apply Hpre|]. split; [rewrite El; apply Hpre|].
    split; [reflexivity|]. split; [exact Hnf|].
    exists b, due, en. split; [exact Hc|]. split; [intros E; contradiction|auto].
Qed.

(** The card of an updated header is the card of the header,
    rescheduled. *)
Lemma getCardFromLine_update (l category : gostring) (x : Card) :
  tidy l -> is_card_header l = true ->
  getCardFromLine l category = Some x ->
  getCardFromLine (update_line c l) category = Some (reschedule c x).
Proof.
  intros Ht Hh Hx.
  destruct (update_line_header l Ht Hh)
    as (p & id & b & due & en & _ & _ & Hc & _ & _ & _ & _ & Hq & _
        & b' & due' & en' & Hc' & Hsame & Hother).
  rewrite (getCardFromLine_carries _ _ _ _ _ _ Hc) in Hx.
  rewrite (getCardFromLine_carries _ _ _ _ _ _ Hc'), Hq.
  destruct (GoTime.Parse due) as [t|] eqn:EP; [|discriminate Hx].
  inversion Hx; subst x; clear Hx. unfold reschedule. cbn [Id Category Front Back].
  destruct (decide (id = Id c)) as [E|E].
  - rewrite bool_decide_eq_true_2 by exact E.
    destruct (Hsame E) as (-> & -> & ->). reflexivity.
  - rewrite bool_decide_eq_false_2 by exact E.
    destruct (Hother E) as (-> & -> & ->). rewrite EP. reflexivity.
Qed.

(** The update keeps what the two loops of [OpenFile] look at besides the
    block. *)
Lemma update_line_kind (l : gostring) :
  tidy l ->
  is_card_header (update_line c l) = is_card_header l
  /\ GoStrings.HasPrefix (update_line c l) (str "# ") = GoStrings.HasPrefix l (str "# ")
  /\ newline_free (update_line c l)
  /\ (is_card_header l = true ->
        id_of (update_line c l) = id_of l
        /\ exists box due en, carries (update_line c l) (id_of (update_line c l)) box due en).
Proof.
  intros Ht. destruct (is_card_header l) eqn:Hh.
  - destruct (update_line_header l Ht Hh)
      as (p & id & b & due & en & _ & _ & Hc & _ & Hh' & Hp' & Hp & _ & Hn
          & b' & due' & en' & Hc' & _).
    rewrite Hh', Hp', Hp. repeat split; try assumption.
    + rewrite (carries_id_of _ _ _ _ _ Hc), (carries_id_of _ _ _ _ _ Hc'). reflexivity.
    + rewrite (carries_id_of _ _ _ _ _ Hc'). eauto.
  - rewrite (update_line_plain l Hh), Hh. destruct Ht as (Hn & _).
    repeat split; try assumption; discriminate.
Qed.

Lemma update_line_last (l : gostring) :
  tidy l -> last (update_line c l) <> Some Bufio.CR /\ (update_line c l = [] -> l = []).
Proof.
  intros Ht. destruct (is_card_header l) eqn:Hh.
  - destruct (update_line_header l Ht Hh)
      as (p & id & b & due & en & El & _ & _ & Eupd & _). rewrite Eupd.
    destruct (bool_decide (id = Id c)).
    + unfold card_block, block4. rewrite !(assoc_L app).
      split.
      * rewrite last_app. cbn. discriminate.
      * intros E. apply app_eq_nil in E as [_ E]. discriminate E.
    + destruct Ht as (_ & Hcr & _). split; [exact Hcr|auto].
  - rewrite (update_line_plain l Hh). destruct Ht as (_ & Hcr & _). split; [exact Hcr|auto].
Qed.

(** The replacement of [updateCardInFile], line by line. *)
Lemma replace_update_line (l T : gostring) :
  tidy l ->
  replace_all (update_pattern (Id c)) (card_block c) 0 (l ++ T)
  = update_line c l ++ replace_all (update_pattern (Id c)) (card_block c) 0 T.
Proof.
  intros Ht. destruct (is_card_header l) eqn:Hh.
  - destruct (tidy_header l Ht Hh)
      as (p & id & b & due & en & El & Hp & _ & _ & _ & Hl & Ha & Hb & Hdue & Hen).
    assert (Eupd : update_line c l
                   = if bool_decide (id = Id c) then p ++ card_block c else l).
    { rewrite El at 1 2. apply update_line_at; try assumption. rewrite <- El. exact Hh. }
    rewrite Eupd. clear Eupd.
    rewrite El, <- (assoc_L app).
    rewrite (replace_update_free (Id c) (card_block c) p _ Hp).
    destruct (decide (id = Id c)) as [E|E].
    + rewrite bool_decide_eq_true_2 by exact E. subst id.
      assert (Hne : Id c <> []) by (intros E; rewrite E in Hlen; discriminate Hlen).
      destruct (match_here_update_canonical (Id c) b due en T Hal Hne Hb Hdue Hen)
        as (caps & M).
      rewrite (replace_all_match _ _ _ _ caps); [rewrite <- (assoc_L app); reflexivity| |exact M].
      unfold comment_text. discriminate.
    + rewrite bool_decide_eq_false_2 by exact E. rewrite <- (assoc_L app). f_equal.
      destruct (canonical_tail id due en b Ha Hb Hdue Hen) as (R & ER & HR).
      assert (Hm : match_here (update_pattern (Id c)) (comment_text [] id [b] due en [] ++ T)
                   = None).
      { unfold comment_text. rewrite <- !(assoc_L app). rewrite app_nil_l.
        apply match_here_update_other; try assumption; try congruence.
        intros E0. rewrite E0 in Hl. discriminate Hl. }
      rewrite ER in Hm |- *.
      change ((str "<!--" ++ R) ++ T) with (60%N :: ([33; 45; 45]%N ++ R) ++ T) in Hm |- *.
      rewrite (replace_all_cons _ _ _ _ Hm).
      transitivity (60%N :: ([33; 45; 45]%N ++ R)
                      ++ replace_all (update_pattern (Id c)) (card_block c) 0 T);
        [|reflexivity].
      f_equal. apply replace_update_free. apply Forall_app. split; [|exact HR].
      repeat constructor; discriminate.
  - rewrite (update_line_plain l Hh). destruct Ht as (_ & _ & Ht). rewrite Hh in Ht.
    apply replace_update_free, Ht.
Qed.

Lemma replace_update_lines (lines : list gostring) :
  Forall tidy lines ->
  ReplaceAllString (update_pattern (Id c)) (GoStrings.Join lines [Bufio.LF]) (card_block c)
  = GoStrings.Join (map (update_line c) lines) [Bufio.LF].
Proof.
  unfold ReplaceAllString.
  induction 1 as [|l lines Hl _ IH]; [reflexivity|].
  destruct lines as [|l2 lines].
  - cbn [GoStrings.Join map]. rewrite <- (app_nil_r l) at 1.
    rewrite (replace_update_line l [] Hl). cbn [replace_all]. apply app_nil_r.
  - change (GoStrings.Join (l :: l2 :: lines) [Bufio.LF])
      with (l ++ [Bufio.LF] ++ GoStrings.Join (l2 :: lines) [Bufio.LF]).
    change (GoStrings.Join (map (update_line c) (l :: l2 :: lines)) [Bufio.LF])
      with (update_line c l ++ [Bufio.LF]
              ++ GoStrings.Join (map (update_line c) (l2 :: lines)) [Bufio.LF]).
    rewrite (replace_update_line l _ Hl). f_equal.
    rewrite (replace_update_free (Id c) (card_block c) [Bufio.LF])
      by (repeat constructor; discriminate).
    rewrite IH. reflexivity.
Qed.

Lemma reschedule_with_back (x : Card) (back : gostring) :
  reschedule c (with_back x back) = with_back (reschedule c x) back.
Proof. unfold reschedule, with_back. cbn [Id]. destruct (bool_decide (Id x = Id c)); reflexivity. Qed.

Lemma reschedule_fields (x : Card) :
  Front (reschedule c x) = Front x /\ Back (reschedule c x) = Back x.
Proof. unfold reschedule. destruct (bool_decide (Id x = Id c)); split; reflexivity. Qed.

Lemma reschedule_emptyCard : reschedule c emptyCard = emptyCard.
Proof.
  unfold reschedule. rewrite bool_decide_eq_false_2; [reflexivity|].
  cbn [Id emptyCard]. intros E. rewrite <- E in Hlen. discriminate Hlen.
Qed.

Lemma reschedule_flush (st : extractor) :
  flush_pending (reschedule_state c st) = reschedule_state c (flush_pending st).
Proof.
  unfold flush_pending, pending, reschedule_state. cbn [currentCard].
  destruct (reschedule_fields (currentCard st)) as [-> HB]. rewrite HB.
  destruct (negb (bool_decide (Front (currentCard st) = []))
            && negb (bool_decide (Back (currentCard st) = []))); [|reflexivity].
  unfold appendCard. cbn [currentCard currentCategory readBack collected].
  rewrite reschedule_emptyCard, HB, map_app. cbn [map].
  rewrite reschedule_with_back. reflexivity.
Qed.

(** One iteration of the second loop of [OpenFile], on the updated
    line. *)
Lemma extract_line_update (st st' : extractor) (l : gostring) :
  tidy l -> extract_line st l = Some st' ->
  extract_line (reschedule_state c st) (update_line c l) = Some (reschedule_state c st').
Proof.
  intros Ht. destruct (update_line_kind l Ht) as (Hk & Hp & _ & _).
  unfold extract_line. rewrite Hk, Hp.
  destruct (GoStrings.HasPrefix l (str "# ")) eqn:Hcat.
  - assert (Hh : is_card_header l = false).
    { destruct (is_card_header l) eqn:Hh; [|reflexivity].
      destruct (update_line_header l Ht Hh) as (? & ? & ? & ? & ? & _ & _ & _ & _ & _ & _ & Hno & _).
      congruence. }
    rewrite (update_line_plain l Hh). intros E. inversion E; subst st'; clear E.
    rewrite reschedule_flush. reflexivity.
  - destruct (is_card_header l) eqn:Hh.
    + rewrite reschedule_flush.
      change (currentCategory (reschedule_state c (flush_pending st)))
        with (currentCategory (flush_pending st)).
      destruct (getCardFromLine l (currentCategory (flush_pending st))) as [x|] eqn:Hx;
        [|discriminate].
      rewrite (getCardFromLine_update l _ x Ht Hh Hx). cbn [mbind option_bind].
      intros E. inversion E; subst st'; clear E. reflexivity.
    + rewrite (update_line_plain l Hh).
      change (readBack (reschedule_state c st)) with (readBack st).
      destruct (readBack st) eqn:Hr; intros E; inversion E; subst; clear E; [|reflexivity].
      unfold reschedule_state. cbn [currentCard currentCategory readBack collected].
      rewrite reschedule_with_back. destruct (reschedule_fields (currentCard st)) as [_ ->].
      reflexivity.
Qed.

Lemma extract_lines_update :
  forall (lines : list gostring) (st st' : extractor),
    Forall tidy lines -> extract_lines st lines = Some st' ->
    extract_lines (reschedule_state c st) (map (update_line c) lines)
    = Some (reschedule_state c st').
Proof.
  induction lines as [|l lines IH]; intros st st' Ht E.
  - cbn in E |- *. congruence.
  - inversion Ht as [|? ? Hl Hls]; subst. cbn [extract_lines map] in E |- *.
    destruct (extract_line st l) as [st1|] eqn:E1; [|discriminate E].
    rewrite (extract_line_update st st1 l Hl E1). apply IH; assumption.
Qed.

(** The cards of the updated lines are the cards of the lines,
    rescheduled. *)
Lemma extract_update (lines : list gostring) (cards : list Card) :
  Forall tidy lines -> extract lines = Some cards ->
  extract (map (update_line c) lines) = Some (map (reschedule c) cards).
Proof.
  intros Ht. unfold extract.
  destruct (extract_lines (mkExtractor emptyCard [] false []) lines) as [st|] eqn:E;
    [|discriminate].
  cbn [mbind option_bind]. intros Hc. inversion Hc; subst cards; clear Hc.
  pose proof (extract_lines_update lines _ st Ht E) as E'.
  unfold reschedule_state in E' at 1. cbn [currentCard currentCategory readBack collected map] in E'.
  rewrite reschedule_emptyCard in E'. rewrite E'. cbn [mbind option_bind].
  change (readBack (reschedule_state c st)) with (readBack st).
  destruct (readBack st); [|reflexivity].
  unfold appendCard, reschedule_state. cbn [currentCard currentCategory readBack collected].
  destruct (reschedule_fields (currentCard st)) as [_ ->].
  rewrite map_app. cbn [map]. rewrite reschedule_with_back. reflexivity.
Qed.

(** The updated lines are again lines a load keeps as they are, and
    scanning their text gives them back. *)
Lemma update_lines_fixed (now : GoTime.Time) (tape : list N) (lines : list gostring) :
  Forall tidy lines -> NoDup (header_ids lines) ->
  normalize now tape ∅ (map (update_line c) lines) = Some (map (update_line c) lines).
Proof.
  intros Ht Hnd.
  assert (Hids : header_ids (map (update_line c) lines) = header_ids lines).
  { clear Hnd. induction Ht as [|l lines Hl _ IH]; [reflexivity|].
    cbn [map]. rewrite !header_ids_cons, IH.
    destruct (update_line_kind l Hl) as (Hk & _ & _ & Hid). rewrite Hk.
    destruct (is_card_header l); [|reflexivity].
    destruct (Hid eq_refl) as [-> _]. reflexivity. }
  apply normalize_fixed.
  - apply Forall_map. eapply Forall_impl; [exact Ht|]. intros l Hl Hh. cbn in Hh |- *.
    destruct (update_line_kind l Hl) as (Hk & _ & _ & Hid). rewrite Hk in Hh.
    apply Hid, Hh.
  - rewrite Hids. exact Hnd.
  - intros id _. reflexivity.
Qed.

Lemma update_lines_scanned (lines : list gostring) :
  Forall tidy lines -> last lines <> Some [] ->
  Bufio.ScanLines (GoStrings.Join (map (update_line c) lines) [Bufio.LF])
  = map (update_line c) lines.
Proof.
  intros Ht Hlast. unfold Bufio.ScanLines. rewrite split_lines_Join.
  - apply map_dropCR_id, Forall_map. eapply Forall_impl; [exact Ht|].
    intros l Hl. apply update_line_last, Hl.
  - apply Forall_map. eapply Forall_impl; [exact Ht|].
    intros l Hl. apply update_line_kind, Hl.
  - rewrite fmap_last. destruct (last lines) as [l|] eqn:El; [|discriminate].
    cbn. intros E. inversion E as [E0]. apply Hlast. f_equal.
    apply last_Some_elem_of in El. rewrite Forall_forall in Ht.
    apply (update_line_last l (Ht l El)), E0.
Qed.
End Persist.

Lemma alnum_not_meta (id : gostring) :
  forallb is_alnum id = true -> forallb (fun x => negb (is_meta x)) id = true.
Proof.
  intros H. rewrite forallb_forall in *. intros x Hx. specialize (H x Hx).
  apply negb_true_iff, bool_decide_eq_false. unfold is_alnum in H. intros Hin.
  repeat (apply elem_of_cons in Hin as [->|Hin]; [discriminate H|]). inversion Hin.
Qed.

Lemma tidy_carries (l : gostring) :
  tidy l -> is_card_header l = true -> exists box due en, carries l (id_of l) box due en.
Proof.
  intros Ht Hh.
  destruct (tidy_header l Ht Hh)
    as (p & id & b & due & en & El & Hp & _ & _ & _ & Hl & Ha & Hb & Hdue & Hen).
  pose proof (carries_canonical p id due en b Hp Hl Ha Hb Hdue Hen) as Hc.
  rewrite <- El in Hc. rewrite (carries_id_of _ _ _ _ _ Hc). eauto.
Qed.

(** X19. A deck in the program's own format (every card header with its
    one canonical block, no other comment, no empty last line, no
    identifier twice) is loaded, a card is given a new schedule (a box of
    one digit, a real due date) and written with [updateCardInFile], and the
    deck is loaded again, at any later time: the second load returns the
    cards of the first in the same order, with the same error, and the card
    of that identifier has the new box, the new due day and the new flag;
    nothing else in any card has changed, and the second load leaves the
    file as the update wrote it. *)
Theorem X19_schedule_survives_reload (Abs : gostring -> gostring)
    (boxIntervals : list Z) (now now' : GoTime.Time) (tape tape' : list N)
    (fs : gmap gostring gostring) (s s1 : Session) (err : option error)
    (path content : gostring) (c : Card) :
  path <> [] -> Abs path <> [] -> fs !! Abs path = Some content ->
  Forall tidy (Bufio.ScanLines content) ->
  NoDup (header_ids (Bufio.ScanLines content)) ->
  last (Bufio.ScanLines content) <> Some [] ->
  length (Id c) = 4 -> forallb is_alnum (Id c) = true ->
  (0 <= Box c <= 9)%Z -> real_date (Due c) = true ->
  (OpenFile Abs boxIntervals now tape fs s path).2 = Returned (s1, err) ->
  exists fs2,
    updateCardInFile (OpenFile Abs boxIntervals now tape fs s path).1 s1 c
    = Some (Returned fs2)
    /\ OpenFile Abs boxIntervals now' tape' fs2 s1 path
       = (fs2,
          Returned (mkSession (mkFile (Path (SFile s1)) boxIntervals
                                 (map (reschedule c) (Cards (SFile s1))))
                      (SCategory s1), err)).
Proof.
  intros Hpath Habs Hfs Ht Hnd Hlast Hlen Hal Hbox Hreal Hret.
  set (lines := Bufio.ScanLines content) in *.
  pose proof (OpenFile_written Abs boxIntervals now tape fs s path content Hpath Habs Hfs) as W.
  fold lines in W. rewrite normalize_fixed in W.
  2:{ eapply Forall_impl; [exact Ht|]. intros l Hl Hh. apply tidy_carries; assumption. }
  2:{ exact Hnd. }
  2:{ intros id _. reflexivity. }
  destruct W as [W1 W2]. rewrite W2 in Hret.
  destruct (extract lines) as [cards|] eqn:Ex; [|discriminate Hret].
  inversion Hret; subst s1 err; clear Hret. rewrite W1.
  cbn [SFile Path Cards SCategory].
  set (fs1 := <[Abs path := GoStrings.Join lines [Bufio.LF]]> fs).
  set (text := GoStrings.Join (map (update_line c) lines) [Bufio.LF]).
  exists (<[Abs path := text]> fs1). split.
  - unfold updateCardInFile, update_re. rewrite (alnum_not_meta _ Hal).
    cbn [mbind option_bind SFile Path]. unfold fs1 at 1. rewrite lookup_insert_eq.
    change (block4 (Id c) (Strconv.FormatUint (Box c)) (GoTime.Format (Due c)) (Enabled c))
      with (card_block c).
    rewrite replace_update_lines by assumption. reflexivity.
  - pose proof (OpenFile_written Abs boxIntervals now' tape' (<[Abs path := text]> fs1)
                  (mkSession (mkFile (Abs path) boxIntervals cards) (SCategory s))
                  path text Hpath Habs (lookup_insert_eq _ _ _)) as V.
    assert (Hscan : Bufio.ScanLines text = map (update_line c) lines)
      by (apply update_lines_scanned; assumption).
    assert (Hfix : normalize now' tape' ∅ (map (update_line c) lines)
                   = Some (map (update_line c) lines))
      by (apply update_lines_fixed; assumption).
    assert (Hex : extract (map (update_line c) lines) = Some (map (reschedule c) cards))
      by (apply extract_update; assumption).
    rewrite Hscan, Hfix, Hex in V.
    rewrite insert_insert_eq in V. destruct V as [V1 V2].
    cbn [SCategory] in V2. rewrite length_map in V2.
    destruct (OpenFile Abs boxIntervals now' tape' (<[Abs path := text]> fs1)
                (mkSession (mkFile (Abs path) boxIntervals cards) (SCategory s)) path)
      as [f o].
    cbn [fst snd] in V1, V2. rewrite V1, V2. reflexivity.
Qed.

Lemma X19_schedule_survives_reload_witness :
  exists fs2,
    updateCardInFile loaded_tidy.1 (session_after loaded_tidy) promoted_card
    = Some (Returned fs2)
    /\ OpenFile id [] (GoTime.mkTime 2026 11 5 0) [] fs2 (session_after loaded_tidy)
         sample_path
       = (fs2,
          Returned (mkSession (mkFile (Path (SFile (session_after loaded_tidy))) []
                                 (map (reschedule promoted_card)
                                    (Cards (SFile (session_after loaded_tidy)))))
                      (SCategory (session_after loaded_tidy)), None)).
Proof.
  assert (Hscan : Bufio.ScanLines (GoStrings.Join deck_tidy [Bufio.LF]) = deck_tidy)
    by (vm_compute; reflexivity).
  apply (X19_schedule_survives_reload id [] sample_now (GoTime.mkTime 2026 11 5 0) [] []
           fs_tidy empty_session (session_after loaded_tidy) None sample_path
           (GoStrings.Join deck_tidy [Bufio.LF]) promoted_card).
  - discriminate.
  - discriminate.
  - vm_compute. reflexivity.
  - rewrite Hscan. unfold deck_tidy.
    assert (Hplain : forall l, newline_free l -> last l <> Some Bufio.CR ->
                       is_card_header l = false -> Forall (fun x => x <> 60%N) l -> tidy l).
    { intros l H1 H2 H3 H4. unfold tidy. rewrite H3. auto. }
    assert (Hcard : forall l q id b due en,
              l = str "##" ++ 32%N :: q ++ comment_text [] id [b] due en [] ->
              newline_free l -> last l <> Some Bufio.CR -> is_card_header l = true ->
              Forall (fun x => x <> 60%N) q -> length id = 4 ->
              forallb is_alnum id = true -> digit b = true -> is_date due = true ->
              en = [] \/ en = str "true" \/ en = str "false" -> tidy l).
    { intros l q i b d e H0 H1 H2 H3 H4 H5 H6 H7 H8 H9. unfold tidy. rewrite H3.
      split; [exact H1|]. split; [exact H2|].
      exists (str "##"), q, i, b, d, e. repeat split; try assumption. left. }
    constructor.
    { apply Hplain; [reflexivity|discriminate|reflexivity|repeat constructor; discriminate]. }
    constructor.
    { apply (Hcard _ (str "What is a rune? ") (str "dupl") 49%N (str "2030-01-01") []);
        try reflexivity; [discriminate|repeat constructor; discriminate|left; reflexivity]. }
    constructor.
    { apply Hplain; [reflexivity|discriminate|reflexivity|repeat constructor; discriminate]. }
    constructor.
    { apply (Hcard _ (str "What is a slice? ") (str "0007") 49%N (str "2030-01-01") (str "true"));
        try reflexivity; [discriminate|repeat constructor; discriminate|right; left; reflexivity]. }
    constructor; [|constructor].
    apply Hplain; [reflexivity|discriminate|reflexivity|repeat constructor; discriminate].
  - rewrite Hscan.
    assert (Hids : header_ids deck_tidy = [str "dupl"; str "0007"]) by (vm_compute; reflexivity).
    rewrite Hids. apply NoDup_cons. split; [|apply NoDup_singleton].
    intros H. apply list_elem_of_singleton in H. discriminate H.
  - rewrite Hscan. discriminate.
  - reflexivity.
  - reflexivity.
  - vm_compute. split; discriminate.
  - reflexivity.
  - vm_compute. reflexivity.
Defined.
